(** * BioBombe: gene set analyses on compressed gene expression weights

    A shallow embedding of [scripts/latent.py] (the [latentModel] class, the
    GSEA pipeline driver, the overrepresentation test and the readers of
    gene set files) and of the gene
    symbol dictionary built in
    [8.gtex-interpret/scripts/nbconverted/1B.download-hematopoietic-data.py].

    Conventions of the embedding:
    - a Python exception is a value of [exn]; a call that may raise returns
      [result A];
    - float64 values are Rocq's primitive binary64 floats, pandas' missing
      value is [nan];
    - Python sets are [gset], dicts used as maps are [gmap], dicts that are
      iterated are association lists in insertion order;
    - list objects that are mutated in place live in a [heap] and are passed
      by reference ([loc]);
    - calls that leave the repository (pandas' file reader and column
      statistics, scipy's exact test, the enrichment routine that
      [latentModel] expects under the name [run_gsea_prerank]) are Section
      variables, with small reference instances to run the model on concrete
      inputs. *)

From Stdlib Require Import ZArith Floats Lia Ascii String.
From stdpp Require Import gmap strings list pretty.

Local Open Scope Z_scope.
Local Open Scope string_scope.
Local Open Scope list_scope.

(** ** Python values, exceptions *)

Inductive pyval :=
| VInt (z : Z)
| VStr (s : string)
| VNaN.

#[global] Instance pyval_eq_dec : EqDecision pyval.
Proof. solve_decision. Defined.

Definition pyval_to_sum (v : pyval) : Z + (string + unit) :=
  match v with
  | VInt z => inl z
  | VStr s => inr (inl s)
  | VNaN => inr (inr tt)
  end.

Definition pyval_of_sum (x : Z + (string + unit)) : pyval :=
  match x with
  | inl z => VInt z
  | inr (inl s) => VStr s
  | inr (inr _) => VNaN
  end.

#[global] Instance pyval_countable : Countable pyval.
Proof.
  apply (inj_countable' pyval_to_sum pyval_of_sum).
  intros []; reflexivity.
Defined.

Inductive exn :=
| ValueError (msg : string)
| TypeError (msg : string)
| AttributeError (msg : string)
| NameError (var : string)
| IndexError (msg : string)
| KeyError (msg : string)
| IOError (msg : string)
| EngineError (msg : string).

Inductive result (A : Type) :=
| Ok (a : A)
| Raise (e : exn).
Arguments Ok {A} a.
Arguments Raise {A} e.

#[global] Instance result_ret : MRet result := λ A a, Ok a.
#[global] Instance result_bind : MBind result := λ A B k r,
  match r with
  | Ok a => k a
  | Raise e => Raise e
  end.

Definition from_attr {A} (name : string) (o : option A) : result A :=
  match o with
  | Some a => Ok a
  | None => Raise (AttributeError name)
  end.

(** [for x in xs: acc = body(acc, x)], an exception leaving the loop. *)
Fixpoint for_each {A S} (body : S → A → result S) (xs : list A) (s : S)
  : result S :=
  match xs with
  | [] => Ok s
  | x :: xs' => s' ← body s x; for_each body xs' s'
  end.

(** ** Strings *)

Definition lower_ascii (c : ascii) : ascii :=
  let n := nat_of_ascii c in
  if ((65 <=? n) && (n <=? 90))%nat then ascii_of_nat (n + 32) else c.

Definition upper_ascii (c : ascii) : ascii :=
  let n := nat_of_ascii c in
  if ((97 <=? n) && (n <=? 122))%nat then ascii_of_nat (n - 32) else c.

Fixpoint str_map (f : ascii → ascii) (s : string) : string :=
  match s with
  | EmptyString => EmptyString
  | String c s' => String (f c) (str_map f s')
  end.

(** [s.lower()] and [s.upper()] on ASCII text. *)
Definition lower (s : string) : string := str_map lower_ascii s.
Definition upper (s : string) : string := str_map upper_ascii s.

(** [s.startswith(p)]. *)
Fixpoint startswith (p s : string) : bool :=
  match p, s with
  | EmptyString, _ => true
  | String a p', String b s' => if decide (a = b) then startswith p' s' else false
  | String _ _, EmptyString => false
  end.

(** [Series.str.contains(pat)] on one name.  pandas reads [pat] as a regular
    expression; the algorithm tokens of the repository ([pca], [ica], [nmf],
    [dae], [vae]) are literal, and the model is the literal substring test:
    it is the test pandas makes for a token without regular expression
    operators, and the properties that depend on which names match are
    stated for such tokens. *)
Fixpoint str_contains (pat s : string) : bool :=
  startswith pat s ||
  match s with
  | EmptyString => false
  | String _ s' => str_contains pat s'
  end.

(** [s.split(sep)] for a one-character separator. *)
Fixpoint split_on (sep : ascii) (s : string) : list string :=
  match s with
  | EmptyString => [EmptyString]
  | String c s' =>
      if decide (c = sep) then EmptyString :: split_on sep s'
      else match split_on sep s' with
           | [] => [String c EmptyString]
           | w :: ws => String c w :: ws
           end
  end.

(** [str(v)] for the values a row key can hold. *)
Definition py_str (v : pyval) : string :=
  match v with
  | VInt z => pretty z
  | VStr s => s
  | VNaN => "nan"
  end.

(** ** Data frames *)

Inductive cell :=
| CNum (x : float)
| CFlag (b : bool)
| CObj (v : pyval).

(** A weight matrix: gene identifiers as row keys, one float64 column per
    latent feature.  Columns are stored by name with their values in row
    order. *)
Record WeightMatrix := {
  w_index : list pyval;
  w_columns : list (string * list float)
}.

(** A general frame, for derived views and result tables. *)
Record DataFrame := {
  index : list pyval;
  columns : list (string * list cell)
}.

Record Series := {
  s_index : list pyval;
  s_name : string;
  s_values : list cell
}.

(** The cell of column [j] (by position) at row [i] (by position). *)
Definition cell_at (df : DataFrame) (j i : nat) : option cell :=
  nc ← columns df !! j; nc.2 !! i.

Definition is_na (c : cell) : bool :=
  match c with
  | CNum x => PrimFloat.is_nan x
  | CFlag _ => false
  | CObj VNaN => true
  | CObj _ => false
  end.

(** Apply [f] to every value of a named column. *)
Definition col_map {A B} (f : A → B) (nc : string * list A) : string * list B :=
  (nc.1, map f nc.2).

Definition to_frame (w : WeightMatrix) : DataFrame :=
  {| index := w_index w;
     columns := map (col_map CNum) (w_columns w) |}.

(** [Series.dropna()]. *)
Definition dropna (s : Series) : Series :=
  let kept := filter (λ ic, is_na ic.2 = false) (zip (s_index s) (s_values s)) in
  {| s_index := kept.*1; s_name := s_name s; s_values := kept.*2 |}.

Definition series_len (s : Series) : nat := length (s_values s).

(** Boolean mask selection [l[mask]] on columns. *)
Definition mask_select {A} (mask : list bool) (l : list A) : list A :=
  (filter (λ bx, bx.1 = true) (zip mask l)).*2.

(** ** The latent model *)

(** Attributes of a [latentModel] object.  Attributes that a method creates
    are [None] until that method has run; reading them earlier is Python's
    [AttributeError]. *)
Record gene_row := {
  symbol : string;
  entrez_gene_id : Z;
  gene_type : string;
  synonyms : option string
}.

Record latentModel := {
  filename : string;
  w_df : WeightMatrix;
  z_dim : option Z;
  dataset_name : string;
  weight_seed : Z;
  shuffled_true : bool;
  is_gene_dictionary_loaded : bool;
  algorithm_name : option string;
  gene_dictionary_df : option (list gene_row);
  pos_high_w_df : option DataFrame;
  neg_high_w_df : option DataFrame;
  high_weight_std_cutoff : option float;
  pos_w_df : option DataFrame;
  neg_w_df : option DataFrame;
  sqr_w_df : option DataFrame
}.

(** Attribute assignments [self.attr = v]. *)
Definition set_w_df (w : WeightMatrix) (m : latentModel) : latentModel :=
  {| filename := filename m; w_df := w; z_dim := z_dim m;
     dataset_name := dataset_name m; weight_seed := weight_seed m;
     shuffled_true := shuffled_true m;
     is_gene_dictionary_loaded := is_gene_dictionary_loaded m;
     algorithm_name := algorithm_name m;
     gene_dictionary_df := gene_dictionary_df m;
     pos_high_w_df := pos_high_w_df m; neg_high_w_df := neg_high_w_df m;
     high_weight_std_cutoff := high_weight_std_cutoff m;
     pos_w_df := pos_w_df m; neg_w_df := neg_w_df m; sqr_w_df := sqr_w_df m |}.

Definition set_algorithm_name (a : string) (m : latentModel) : latentModel :=
  {| filename := filename m; w_df := w_df m; z_dim := z_dim m;
     dataset_name := dataset_name m; weight_seed := weight_seed m;
     shuffled_true := shuffled_true m;
     is_gene_dictionary_loaded := is_gene_dictionary_loaded m;
     algorithm_name := Some a;
     gene_dictionary_df := gene_dictionary_df m;
     pos_high_w_df := pos_high_w_df m; neg_high_w_df := neg_high_w_df m;
     high_weight_std_cutoff := high_weight_std_cutoff m;
     pos_w_df := pos_w_df m; neg_w_df := neg_w_df m; sqr_w_df := sqr_w_df m |}.

Definition set_gene_dictionary (g : list gene_row) (m : latentModel) : latentModel :=
  {| filename := filename m; w_df := w_df m; z_dim := z_dim m;
     dataset_name := dataset_name m; weight_seed := weight_seed m;
     shuffled_true := shuffled_true m;
     is_gene_dictionary_loaded := true;
     algorithm_name := algorithm_name m;
     gene_dictionary_df := Some g;
     pos_high_w_df := pos_high_w_df m; neg_high_w_df := neg_high_w_df m;
     high_weight_std_cutoff := high_weight_std_cutoff m;
     pos_w_df := pos_w_df m; neg_w_df := neg_w_df m; sqr_w_df := sqr_w_df m |}.

Definition set_high_weight (pos neg : DataFrame) (cutoff : float)
    (m : latentModel) : latentModel :=
  {| filename := filename m; w_df := w_df m; z_dim := z_dim m;
     dataset_name := dataset_name m; weight_seed := weight_seed m;
     shuffled_true := shuffled_true m;
     is_gene_dictionary_loaded := is_gene_dictionary_loaded m;
     algorithm_name := algorithm_name m;
     gene_dictionary_df := gene_dictionary_df m;
     pos_high_w_df := Some pos; neg_high_w_df := Some neg;
     high_weight_std_cutoff := Some cutoff;
     pos_w_df := pos_w_df m; neg_w_df := neg_w_df m; sqr_w_df := sqr_w_df m |}.

Definition set_pos_neg (pos neg : DataFrame) (m : latentModel) : latentModel :=
  {| filename := filename m; w_df := w_df m; z_dim := z_dim m;
     dataset_name := dataset_name m; weight_seed := weight_seed m;
     shuffled_true := shuffled_true m;
     is_gene_dictionary_loaded := is_gene_dictionary_loaded m;
     algorithm_name := algorithm_name m;
     gene_dictionary_df := gene_dictionary_df m;
     pos_high_w_df := pos_high_w_df m; neg_high_w_df := neg_high_w_df m;
     high_weight_std_cutoff := high_weight_std_cutoff m;
     pos_w_df := Some pos; neg_w_df := Some neg; sqr_w_df := sqr_w_df m |}.

Definition set_sqr_w_df (sq : DataFrame) (m : latentModel) : latentModel :=
  {| filename := filename m; w_df := w_df m; z_dim := z_dim m;
     dataset_name := dataset_name m; weight_seed := weight_seed m;
     shuffled_true := shuffled_true m;
     is_gene_dictionary_loaded := is_gene_dictionary_loaded m;
     algorithm_name := algorithm_name m;
     gene_dictionary_df := gene_dictionary_df m;
     pos_high_w_df := pos_high_w_df m; neg_high_w_df := neg_high_w_df m;
     high_weight_std_cutoff := high_weight_std_cutoff m;
     pos_w_df := pos_w_df m; neg_w_df := neg_w_df m; sqr_w_df := Some sq |}.

Section Loader.
  (** [pd.read_table(filename, index_col=0)]: the file as pandas parsed it,
      or the exception it raised. *)
Variable read_table : string → result WeightMatrix.
  (** Python's [int] on a string. *)
Variable int_of_str : string → option Z.

  (** [int(weight_seed)]. *)
Definition py_int (v : option pyval) : result Z :=
    match v with
    | None => Raise (TypeError "int() argument must be a string or a number")
    | Some (VInt z) => Ok z
    | Some (VStr s) =>
        match int_of_str s with
        | Some z => Ok z
        | None => Raise (ValueError "invalid literal for int()")
        end
    | Some VNaN => Raise (ValueError "cannot convert float NaN to integer")
    end.

  (** [latentModel.__init__]. *)
Definition init (filename_ : string) (z_dim_ : option Z)
      (dataset_name_ : option string) (algorithm_name_ : option string)
      (weight_seed_ : option pyval) (shuffled_true_ : bool)
    : result latentModel :=
    raw ← read_table filename_;
    let w := {| w_index := map (λ k, VStr (py_str k)) (w_index raw);
                w_columns := w_columns raw |} in
    dataset ← match dataset_name_ with
              | Some d => Ok (upper d)
              | None => Raise (AttributeError "upper")
              end;
    seed ← py_int weight_seed_;
    let self := {| filename := filename_; w_df := w; z_dim := z_dim_;
                   dataset_name := dataset; weight_seed := seed;
                   shuffled_true := shuffled_true_;
                   is_gene_dictionary_loaded := false;
                   algorithm_name := None; gene_dictionary_df := None;
                   pos_high_w_df := None; neg_high_w_df := None;
                   high_weight_std_cutoff := None;
                   pos_w_df := None; neg_w_df := None; sqr_w_df := None |} in
    match algorithm_name_ with
    | Some a =>
        if decide (a = "") then Ok self
        else
          let self := set_algorithm_name (lower a) self in
          let use_cols :=
            map (λ nc, str_contains (lower a) nc.1) (w_columns (w_df self)) in
          Ok (set_w_df {| w_index := w_index (w_df self);
                          w_columns := mask_select use_cols (w_columns (w_df self)) |}
                self)
    | None => Ok self
    end.
End Loader.

(** ** Distribution views of the weight matrix *)

Local Open Scope float_scope.

(** [df.stack()]: the cells in row-major order with their row key and column
    name, missing cells dropped. *)
Definition stack (df : DataFrame) : list (pyval * string * cell) :=
  filter (λ r, is_na r.2 = false)
    (concat (imap (λ i k,
       omap (λ nc : string * list cell, (λ c, (k, nc.1, c)) <$> nc.2 !! i)
            (columns df)) (index df))).

(** One side of [_split_genes]: [stack().reset_index()], the three columns
    renamed, then [dropna()].  Rows keep the position [reset_index] gave
    them. *)
Definition long_frame (df : DataFrame) : DataFrame :=
  let rows := imap (λ i r, (Z.of_nat i, r)) (stack df) in
  let kept := filter (λ ir, ir.2.1.1 ≠ VNaN) rows in
  {| index := map (λ ir, VInt ir.1) kept;
     columns := [ ("entrez_gene", map (λ ir, CObj ir.2.1.1) kept);
                  ("feature", map (λ ir, CObj (VStr ir.2.1.2)) kept);
                  ("feature_weight", map (λ ir, ir.2.2) kept) ] |}.

(** [latentModel._split_genes]. *)
Definition _split_genes (pos_w_df neg_w_df : DataFrame) : DataFrame * DataFrame :=
  (long_frame pos_w_df, long_frame neg_w_df).

Section Statistics.
  (** pandas' column mean and (sample) standard deviation, [DataFrame.mean]
      and [DataFrame.std] on one column. *)
Variables col_mean col_std : list float → float.

Definition frame_mean (w : WeightMatrix) : list float :=
    map (λ nc, col_mean nc.2) (w_columns w).
Definition frame_std (w : WeightMatrix) : list float :=
    map (λ nc, col_std nc.2) (w_columns w).

  (** [w_df.ge(thr)] and [w_df.le(thr)], the thresholds aligned with the
      columns. *)
Definition frame_ge (w : WeightMatrix) (thr : list float) : DataFrame :=
    {| index := w_index w;
       columns := zip_with (λ nc t, col_map (λ x, CFlag (t <=? x)) nc)
                    (w_columns w) thr |}.
Definition frame_le (w : WeightMatrix) (thr : list float) : DataFrame :=
    {| index := w_index w;
       columns := zip_with (λ nc t, col_map (λ x, CFlag (x <=? t)) nc)
                    (w_columns w) thr |}.

  (** [latentModel.get_high_weight_genes]. *)
Definition get_high_weight_genes (self : latentModel) (std_dev : float)
      (long_format : bool) : latentModel :=
    let feature_mean := frame_mean (w_df self) in
    let std_dev_cutoff := map (λ s, std_dev * s) (frame_std (w_df self)) in
    let pos_thr := zip_with PrimFloat.add feature_mean std_dev_cutoff in
    let neg_thr := zip_with PrimFloat.sub feature_mean std_dev_cutoff in
    let pos := frame_ge (w_df self) pos_thr in
    let neg := frame_le (w_df self) neg_thr in
    let '(pos, neg) := if long_format then _split_genes pos neg else (pos, neg) in
    set_high_weight pos neg std_dev self.
End Statistics.

(** [latentModel.split_pos_neg_genes]. *)
Definition split_pos_neg_genes (self : latentModel) (long_format : bool)
  : latentModel :=
  let w := w_df self in
  let pos := {| index := w_index w;
                columns := map (col_map (λ x, CNum (if 0 <? x then x else nan)))
                             (w_columns w) |} in
  let neg := {| index := w_index w;
                columns := map (col_map (λ x, CNum (if x <? 0 then x else nan)))
                             (w_columns w) |} in
  let '(pos, neg) := if long_format then _split_genes pos neg else (pos, neg) in
  set_pos_neg pos neg self.

(** [latentModel.get_squared_distribution]: the weights are the float64
    values of [WeightMatrix] (a column that holds only integers in the file,
    which pandas would read as int64, is outside the model). *)
Definition get_squared_distribution (self : latentModel) : latentModel :=
  let w := w_df self in
  set_sqr_w_df {| index := w_index w;
                  columns := map (col_map (λ x, CNum (x * x))) (w_columns w) |}
    self.

Local Close Scope float_scope.

(** ** Gene identifier translation *)

(** [dict(zip(keys, values))]: a later pair overrides an earlier one with
    the same key. *)
Definition py_dict {K V} `{Countable K} (kvs : list (K * V)) : gmap K V :=
  foldl (λ m kv, <[kv.1 := kv.2]> m) ∅ kvs.

(** The two columns of the gene dictionary that translation may use. *)
Definition gene_column (name : string) (r : gene_row) : result pyval :=
  if decide (name = "entrez_gene_id") then Ok (VInt (entrez_gene_id r))
  else if decide (name = "symbol") then Ok (VStr (symbol r))
  else Raise (KeyError name).

(** [for x in xs: ys.append(f(x))] with [f] that may raise. *)
Fixpoint map_result {A B} (f : A → result B) (xs : list A) : result (list B) :=
  match xs with
  | [] => Ok []
  | x :: xs' => y ← f x; ys ← map_result f xs'; Ok (y :: ys)
  end.

Definition choices : list string := ["entrez_gene_id"; "symbol"].

Definition default_hash : string := "ad9631bb4e77e2cdc5413b0d77cb8f7e93fc5bee".

Section Translator.
  (** [pd.read_table(url)] on the gene table of the given commit. *)
Variable read_genes : string → result (list gene_row).

Definition genes_url (hash : string) : string :=
    "https://raw.githubusercontent.com/cognoma/genes/" +:+ hash +:+ "/data/genes.tsv".

  (** [latentModel._load_gene_dict]: the state after the call and whether it
      raised. *)
Definition _load_gene_dict (self : latentModel) (hash : string)
    : latentModel * result unit :=
    match read_genes (genes_url hash) with
    | Raise e => (self, Raise e)
    | Ok table =>
        let coding := filter (λ r, gene_type r = "protein-coding") table in
        (set_gene_dictionary coding self, Ok tt)
    end.

  (** [latentModel.translate_gene_ids]; [hash] is the keyword argument, [None]
      when the caller does not pass it. *)
Definition translate_gene_ids (self : latentModel) (gene_list : list pyval)
      (translate_from translate_to : string) (hash : option string)
    : latentModel * result (list pyval) :=
    let hash := default default_hash hash in
    if bool_decide (translate_from ∉ choices ∨ translate_to ∉ choices) then
      (self, Raise (ValueError "Translation for 'entrez_gene_id' and 'symbol' only"))
    else
      let '(self, loaded) :=
        if is_gene_dictionary_loaded self then (self, Ok tt)
        else _load_gene_dict self hash in
      (self,
       _ ← loaded;
       table ← from_attr "gene_dictionary_df" (gene_dictionary_df self);
       keys ← map_result (gene_column translate_from) table;
       vals ← map_result (gene_column translate_to) table;
       let gene_mapper := py_dict (zip keys vals) in
       Ok (map (λ g, default VNaN (gene_mapper !! g)) gene_list)).
End Translator.

(** ** The GSEA aggregator *)

(** [weight_df.loc[:, subset_algs].iloc[:, current_z]]. *)
Definition _get_compressed_feature (weight_df : DataFrame)
    (subset_algs : list bool) (current_z : Z) : result Series :=
  if decide (length subset_algs = length (columns weight_df)) then
    let sel := mask_select subset_algs (columns weight_df) in
    let pos := if decide (current_z < 0) then Z.of_nat (length sel) + current_z
               else current_z in
    if decide (pos < 0) then Raise (IndexError "single positional indexer is out-of-bounds")
    else
      match sel !! Z.to_nat pos with
      | Some nc => Ok {| s_index := index weight_df; s_name := nc.1; s_values := nc.2 |}
      | None => Raise (IndexError "single positional indexer is out-of-bounds")
      end
  else Raise (IndexError "Item wrong length").

(** [df.assign(name=value)] with a scalar: a constant column, replacing a
    column of that name or appended after the others. *)
Definition assign (name : string) (value : cell) (df : DataFrame) : DataFrame :=
  let col := (name, replicate (length (index df)) value) in
  {| index := index df;
     columns :=
       if bool_decide (name ∈ (columns df).*1)
       then map (λ nc : string * list cell, if decide (nc.1 = name) then col else nc)
              (columns df)
       else columns df ++ [col] |}.

Definition remove_dups_str (l : list string) : list string := remove_dups l.

(** [pd.concat(frames)]: rows of all frames in order; a frame lacking a column
    of another is filled with missing values. *)
Definition pd_concat (frames : list DataFrame) : result DataFrame :=
  match frames with
  | [] => Raise (ValueError "No objects to concatenate")
  | _ =>
      let names := remove_dups_str (concat (map (λ df, (columns df).*1) frames)) in
      let cells_of name df :=
        match list_find (λ nc : string * list cell, nc.1 = name) (columns df) with
        | Some (_, nc) => nc.2
        | None => replicate (length (index df)) (CNum PrimFloat.nan)
        end in
      Ok {| index := concat (map index frames);
            columns := map (λ name, (name, concat (map (cells_of name) frames))) names |}
  end.

(** One invocation of the enrichment routine, with the provenance the
    aggregator attaches to its rows. *)
Record gsea_call := {
  call_use_df : Series;
  call_algorithm : string;
  call_current_z : Z;
  call_full_z : Z;
  call_distribution : string;
  call_num_perm : Z;
  call_shuffled : bool;
  call_direction : string;
  call_seed : pyval;
  call_gene_sets : string
}.

(** Local variables of [get_gsea_compressed_matrix] that live across loop
    iterations ([None]: not yet bound), and the invocations made so far. *)
Record gsea_locals := {
  use_df : option Series;
  use_pos_df : option Series;
  use_neg_df : option Series;
  current_z_list : list DataFrame;
  calls : list gsea_call
}.

Definition from_local {A} (name : string) (o : option A) : result A :=
  match o with
  | Some a => Ok a
  | None => Raise (NameError name)
  end.

(** [range(0, n)]. *)
Definition py_range (n : Z) : list Z := map Z.of_nat (seq 0 (Z.to_nat n)).

Section Aggregator.
  (** [latentModel.run_gsea_prerank(gene_score_df, permutation_num,
      gene_sets)]: called by [_get_gsea_results], not defined by the class. *)
Variable run_gsea_prerank : Series → Z → string → result DataFrame.

  (** [latentModel._get_gsea_results]. *)
Definition _get_gsea_results (c : gsea_call) : result DataFrame :=
    results_df ← run_gsea_prerank (call_use_df c) (call_num_perm c) (call_gene_sets c);
    Ok (assign "seed" (CObj (call_seed c))
       (assign "direction" (CObj (VStr (call_direction c)))
       (assign "shuffled" (CFlag (call_shuffled c))
       (assign "full_z" (CObj (VInt (call_full_z c)))
       (assign "current_z" (CObj (VInt (call_current_z c)))
       (assign "algorithm" (CObj (VStr (call_algorithm c)))
       (assign "distrib" (CObj (VStr (call_distribution c))) results_df))))))).

  (** The statement
      [results_df = self._get_gsea_results(use_df=use_df, ...,
      direction=direction); current_z_list += [results_df]]. *)
Definition invoke (alg : string) (current_z full_z : Z) (distrib : string)
      (num_perm : Z) (shuffled : bool) (direction : string) (seed : pyval)
      (gene_sets : string) (st : gsea_locals) : result gsea_locals :=
    u ← from_local "use_df" (use_df st);
    let c := {| call_use_df := u; call_algorithm := alg;
                call_current_z := current_z; call_full_z := full_z;
                call_distribution := distrib; call_num_perm := num_perm;
                call_shuffled := shuffled; call_direction := direction;
                call_seed := seed; call_gene_sets := gene_sets |} in
    results_df ← _get_gsea_results c;
    Ok {| use_df := use_df st; use_pos_df := use_pos_df st;
          use_neg_df := use_neg_df st;
          current_z_list := current_z_list st ++ [results_df];
          calls := calls st ++ [c] |}.

  (** The body of the innermost loop, for one distribution method. *)
Definition gsea_body (self : latentModel) (shuffled : bool) (seed : pyval)
      (z_dim_ num_perm : Z) (gene_sets : string) (alg : string)
      (subset_algs : list bool) (current_z : Z)
      (st : gsea_locals) (distrib : string) : result gsea_locals :=
    '(num_distrib, st) ←
      (if decide (distrib = "full") then
         u ← _get_compressed_feature (to_frame (w_df self)) subset_algs current_z;
         Ok (1, {| use_df := Some u; use_pos_df := use_pos_df st;
                   use_neg_df := use_neg_df st;
                   current_z_list := current_z_list st; calls := calls st |})
       else if decide (distrib = "full_squared") then
         sq ← from_attr "sqr_w_df" (sqr_w_df self);
         u ← _get_compressed_feature sq subset_algs current_z;
         Ok (1, {| use_df := Some u; use_pos_df := use_pos_df st;
                   use_neg_df := use_neg_df st;
                   current_z_list := current_z_list st; calls := calls st |})
       else if decide (distrib = "pos_neg") then
         pw ← from_attr "pos_w_df" (pos_w_df self);
         p ← _get_compressed_feature pw subset_algs current_z;
         nw ← from_attr "neg_w_df" (neg_w_df self);
         n ← _get_compressed_feature nw subset_algs current_z;
         Ok (2, {| use_df := use_df st; use_pos_df := Some p;
                   use_neg_df := Some n;
                   current_z_list := current_z_list st; calls := calls st |})
       else if decide (distrib = "pos_neg_high_weight") then
         pw ← from_attr "pos_high_w_df" (pos_high_w_df self);
         p ← _get_compressed_feature pw subset_algs current_z;
         nw ← from_attr "neg_high_w_df" (neg_high_w_df self);
         n ← _get_compressed_feature nw subset_algs current_z;
         Ok (2, {| use_df := use_df st; use_pos_df := Some p;
                   use_neg_df := Some n;
                   current_z_list := current_z_list st; calls := calls st |})
       else Ok (1, st));
    if decide (num_distrib = 1) then
      invoke alg current_z z_dim_ distrib num_perm shuffled "both" seed gene_sets st
    else
      p ← from_local "use_pos_df" (use_pos_df st);
      st ← (if decide (series_len (dropna p) ≠ 0%nat)
            then invoke alg current_z z_dim_ distrib num_perm shuffled
                   "positive" seed gene_sets st
            else Ok st);
      n ← from_local "use_neg_df" (use_neg_df st);
      if decide (series_len (dropna n) ≠ 0%nat)
      then invoke alg current_z z_dim_ distrib num_perm shuffled
             "negative" seed gene_sets st
      else Ok st.

  (** The three nested loops of [get_gsea_compressed_matrix]. *)
Definition gsea_loops (self : latentModel) (algorithms distrib_methods : list string)
      (shuffled : bool) (seed : pyval) (z_dim_ num_perm : Z) (gene_sets : string)
    : result gsea_locals :=
    for_each (λ st alg,
      let subset_algs := map (λ nc, str_contains alg nc.1) (w_columns (w_df self)) in
      z ← match z_dim self with
          | Some z => Ok z
          | None => Raise (TypeError "int() argument must be a string or a number")
          end;
      for_each (λ st current_z,
        for_each (gsea_body self shuffled seed z_dim_ num_perm gene_sets alg
                    subset_algs current_z)
          distrib_methods st)
        (py_range z) st)
      algorithms
      {| use_df := None; use_pos_df := None; use_neg_df := None;
         current_z_list := []; calls := [] |}.

  (** [latentModel.get_gsea_compressed_matrix]. *)
Definition get_gsea_compressed_matrix (self : latentModel)
      (algorithms distrib_methods : list string) (shuffled : bool) (seed : pyval)
      (z_dim_ num_perm : Z) (gene_sets : string) : result DataFrame :=
    st ← gsea_loops self algorithms distrib_methods shuffled seed z_dim_ num_perm gene_sets;
    pd_concat (current_z_list st).
End Aggregator.

(** ** The pipeline driver *)

(** [d[k] = v] on a dict that is later iterated: the key keeps the position
    of its first insertion. *)
Fixpoint dict_set {V} (k : string) (v : V) (d : list (string * V))
  : list (string * V) :=
  match d with
  | [] => [(k, v)]
  | (k', v') :: d' => if decide (k' = k) then (k, v) :: d'
                      else (k', v') :: dict_set k v d'
  end.

(** [file_name.split('/')[-1].split('_')[1]]. *)
Definition seed_of_file_name (file_name : string) : result string :=
  match last (split_on "/" file_name) with
  | None => Raise (IndexError "list index out of range")
  | Some base =>
      match split_on "_" base !! 1%nat with
      | Some seed => Ok seed
      | None => Raise (IndexError "list index out of range")
      end
  end.

Section Pipeline.
Variable read_table : string → result WeightMatrix.
Variable int_of_str : string → option Z.
Variable read_genes : string → result (list gene_row).
Variables col_mean col_std : list float → float.
Variable run_gsea_prerank : Series → Z → string → result DataFrame.
  (** [glob.glob(pattern)]. *)
Variable glob : string → list string.

  (** Steps 1 to 4 and the aggregation for the weight matrix of one seed. *)
Definition run_seed (z_dim_ : Z) (dataset_name_ : string) (num_perm : Z)
      (shuffled_true_ : bool) (algorithms distrib_methods : list string)
      (translate : bool) (gene_sets : string) (seed file : string)
    : result DataFrame :=
    lm ← init read_table int_of_str file (Some z_dim_) (Some dataset_name_) None
           (Some (VStr seed)) shuffled_true_;
    let '(lm, loaded) := _load_gene_dict read_genes lm default_hash in
    _ ← loaded;
    lm ← (if translate then
            let '(lm, translated) :=
              translate_gene_ids read_genes lm (w_index (w_df lm))
                "entrez_gene_id" "symbol" None in
            idx ← translated;
            Ok (set_w_df {| w_index := idx; w_columns := w_columns (w_df lm) |} lm)
          else Ok lm);
    let lm := get_high_weight_genes col_mean col_std lm 2.5%float false in
    let lm := split_pos_neg_genes lm false in
    let lm := get_squared_distribution lm in
    get_gsea_compressed_matrix run_gsea_prerank lm algorithms distrib_methods
      shuffled_true_ (VStr seed) z_dim_ num_perm gene_sets.

  (** [run_gsea_pipeline_command]: the path and the table it writes. *)
Definition run_gsea_pipeline_command (input_weight_dir : string) (z_dim_ : Z)
      (dataset_name_ : string) (num_perm : Z) (shuffled_true_ : bool)
      (algorithms distrib_methods : list string) (translate : bool)
      (gene_sets : string) : result (string * DataFrame) :=
    weight_matrices ←
      for_each (λ (d : list (string * string)) file_name,
                  seed ← seed_of_file_name file_name;
                  Ok (dict_set seed file_name d))
        (glob (input_weight_dir +:+ "/*_weight_matrix*")) [];
    gsea_results_list ←
      for_each (λ (acc : list DataFrame) (sf : string * string),
                  gsea_results_df ←
                    run_seed z_dim_ dataset_name_ num_perm shuffled_true_
                      algorithms distrib_methods translate gene_sets sf.1 sf.2;
                  Ok (acc ++ [gsea_results_df]))
        weight_matrices [];
    let out_file := "gsea_results_" +:+ dataset_name_ +:+ "_zdim_" +:+
                    pretty z_dim_ +:+ ".tsv" in
    let out_file := "results/gsea/" +:+ out_file in
    table ← pd_concat gsea_results_list;
    Ok (out_file, table).
End Pipeline.

(** ** Overrepresentation *)

(** List objects are passed by reference: the heap maps a reference to the
    current contents of the list it denotes.  A reference held by a running
    program always denotes an object, so reading a reference outside the
    heap is not a case of the source; the total lookup returns [[]] there. *)
Definition loc := positive.
Abbreviation heap := (gmap loc (list pyval)).

Definition table2x2 : Type := (Z * Z) * (Z * Z).

(** The literal [[m + 1, N - m + 1], [P - m + 1, G - N - P + m + 1]]. *)
Definition contingency (m N P G : Z) : table2x2 :=
  ((m + 1, N - m + 1), (P - m + 1, G - N - P + m + 1)).

(** The table the loop body builds for the gene set stored at [gene_set]. *)
Definition gene_set_table (h : heap) (gene_list : loc) (G : Z) (gene_set : loc)
  : table2x2 :=
  let gene_set : gset pyval := list_to_set (h !!! gene_set) in
  let candidate_set : gset pyval := list_to_set (h !!! gene_list) in
  let m := Z.of_nat (size (gene_set ∩ candidate_set)) in
  let N := Z.of_nat (size candidate_set) in
  let P := Z.of_nat (size gene_set) in
  contingency m N P G.

(** [pd.DataFrame(rows, columns=cols, index=idx)] from a list of rows. *)
Definition frame_of_rows (rows : list (list cell)) (cols : list string)
    (idx : list pyval) : DataFrame :=
  {| index := idx;
     columns := imap (λ j name, (name, omap (λ r : list cell, r !! j) rows)) cols |}.

(** [df.T]. *)
Definition transpose (df : DataFrame) : DataFrame :=
  {| index := map VStr (columns df).*1;
     columns := imap (λ i k, (py_str k,
                   map (λ nc : string * list cell,
                          default (CNum PrimFloat.nan) (nc.2 !! i)) (columns df)))
                  (index df) |}.

(** Accumulators of the loop: [pvals], [odds], [gene_set_names]. *)
Record overrep_acc := {
  pvals : list float;
  odds : list float;
  gene_set_names : list string
}.

Section Overrepresentation.
  (** [scipy.stats.fisher_exact(table)], two-sided by default: the odds ratio
      and the p-value, or the exception it raised. *)
Variable fisher_exact : table2x2 → result (float * float).

  (** [run_overrepresentation]: the heap after the call and the frame
      returned or the exception raised. *)
Definition run_overrepresentation (h : heap) (gene_list : loc)
      (gene_set_dict : list (string * loc)) (background_genes : loc)
    : heap * result DataFrame :=
    (* background_genes += gene_list *)
    let h := <[background_genes := h !!! background_genes ++ h !!! gene_list]> h in
    (* background_genes = set(background_genes) *)
    let background_set : gset pyval := list_to_set (h !!! background_genes) in
    let G := Z.of_nat (size background_set) in
    (h,
     acc ← for_each (λ acc item,
              '(oddsratio, pvalue) ←
                 fisher_exact (gene_set_table h gene_list G item.2);
              Ok {| pvals := pvals acc ++ [pvalue];
                    odds := odds acc ++ [oddsratio];
                    gene_set_names := gene_set_names acc ++ [item.1] |})
            gene_set_dict {| pvals := []; odds := []; gene_set_names := [] |};
     Ok (transpose (frame_of_rows [map CNum (pvals acc); map CNum (odds acc)]
                      (gene_set_names acc) [VStr "pval"; VStr "odds"]))).
End Overrepresentation.

(** ** The symbol dictionary with synonyms *)

Module Synonyms.
  (** A row of [gene_with_syn_df]: a gene with one of its synonyms. *)
Definition syn_row : Type := gene_row * string.

Definition protein_coding (gene_df : list gene_row) : list gene_row :=
    filter (λ r, gene_type r = "protein-coding") gene_df.

  (** [dict(zip(gene_df.symbol, gene_df.entrez_gene_id))]. *)
Definition primary_symbols (gene_df : list gene_row) : gmap string Z :=
    py_dict (map (λ r, (symbol r, entrez_gene_id r)) gene_df).

  (** [dropna(subset=['synonyms'])], [str.split('|')] and the join of every
      gene with each of its synonyms. *)
Definition join_synonyms (gene_df : list gene_row) : list syn_row :=
    r ← gene_df;
    match synonyms r with
    | Some syns => map (λ s, (r, s)) (split_on "|" syns)
    | None => []
    end.

  (** [drop_duplicates(['all_synonyms'], keep=False)]. *)
Definition drop_duplicates (df : list syn_row) : list syn_row :=
    filter (λ row, length (filter (λ row', row'.2 = row.2) df) = 1%nat) df.

  (** [query('symbol not in all_synonyms')]. *)
Definition query_symbol_not_in_synonyms (df : list syn_row) : list syn_row :=
    filter (λ row, symbol row.1 ∉ df.*2) df.

Definition gene_with_syn_df (gene_df : list gene_row) : list syn_row :=
    query_symbol_not_in_synonyms (drop_duplicates (join_synonyms gene_df)).

  (** [dict(zip(gene_with_syn_df.all_synonyms, gene_with_syn_df.entrez_gene_id))]. *)
Definition synonym_to_entrez (gene_df : list gene_row) : gmap string Z :=
    py_dict (map (λ row : syn_row, (row.2, entrez_gene_id row.1))
               (gene_with_syn_df gene_df)).

  (** [d.update(other)]. *)
Definition update (d other : gmap string Z) : gmap string Z := other ∪ d.

  (** The final [symbol_to_entrez] of the notebook, from the gene table as
      downloaded. *)
Definition symbol_to_entrez (table : list gene_row) : gmap string Z :=
    let gene_df := protein_coding table in
    update (primary_symbols gene_df) (synonym_to_entrez gene_df).
End Synonyms.

(** ** Reference instances of the external calls

    Executable stand-ins, used to run the model on concrete inputs.  The
    theorems below that quantify over the external calls do not depend on
    them. *)

Module Reference.
Local Open Scope float_scope.

Definition float_of_Z (z : Z) : float :=
    if decide (z < 0)%Z then - PrimFloat.of_uint63 (Uint63.of_Z (- z))
    else PrimFloat.of_uint63 (Uint63.of_Z z).

Definition fsum (xs : list float) : float := foldl PrimFloat.add 0 xs.

  (** Mean and sample standard deviation over the values that are not
      missing, summed left to right. *)
Definition col_mean (xs : list float) : float :=
    let xs := filter (λ x, PrimFloat.is_nan x = false) xs in
    fsum xs / float_of_Z (Z.of_nat (length xs)).

Definition col_std (xs : list float) : float :=
    let xs := filter (λ x, PrimFloat.is_nan x = false) xs in
    let avg := fsum xs / float_of_Z (Z.of_nat (length xs)) in
    let sqr := fsum (map (λ x, (avg - x) * (avg - x)) xs) in
    PrimFloat.sqrt (sqr / float_of_Z (Z.of_nat (length xs) - 1)).

  (** Decimal digits with an optional sign. *)
Fixpoint digits (s : string) (acc : Z) : option Z :=
    match s with
    | EmptyString => Some acc
    | String c s' =>
        let n := nat_of_ascii c in
        if ((48 <=? n) && (n <=? 57))%nat
        then digits s' (10 * acc + Z.of_nat (n - 48))%Z
        else None
    end.

Definition int_of_str (s : string) : option Z :=
    match s with
    | EmptyString => None
    | String "-" (String c s') => Z.opp <$> digits (String c s') 0%Z
    | String "+" (String c s') => digits (String c s') 0%Z
    | _ => digits s 0%Z
    end.

Fixpoint factorial (n : nat) : Z :=
    match n with
    | O => 1%Z
    | S n' => (Z.of_nat n * factorial n')%Z
    end.

Definition choose (n k : Z) : Z :=
    if decide (0 ≤ k ≤ n)%Z
    then (factorial (Z.to_nat n)
            / (factorial (Z.to_nat k) * factorial (Z.to_nat (n - k))))%Z
    else 0%Z.

  (** The two-sided exact test on a 2x2 table: the sample odds ratio, and the
      total probability, under the hypergeometric law with the table's
      margins, of the tables that are no more probable than the observed
      one.  Counts are exact; one float division at the end. *)
Definition fisher_exact (t : table2x2) : result (float * float) :=
    let '((a, b), (c, d)) := t in
    if decide (a < 0 ∨ b < 0 ∨ c < 0 ∨ d < 0)%Z
    then Raise (ValueError "All values in `table` must be nonnegative.")
    else if decide (a + b = 0 ∨ c + d = 0 ∨ a + c = 0 ∨ b + d = 0)%Z
    then Ok (nan, 1)
    else
      let oddsratio :=
        if decide (0 < c ∧ 0 < b)%Z
        then float_of_Z (a * d) / float_of_Z (c * b)
        else infinity in
      let n1 := (a + b)%Z in
      let n2 := (c + d)%Z in
      let n := (a + c)%Z in
      let weight k := (choose n1 k * choose n2 (n - k))%Z in
      let extreme := filter (λ k, weight k ≤ weight a)%Z (py_range (n1 + 1)) in
      let pvalue := float_of_Z (foldr Z.add 0%Z (map weight extreme))
                    / float_of_Z (choose (n1 + n2) n) in
      Ok (oddsratio, pvalue).

  (** An enrichment routine that fails on an empty score series and
      otherwise reports one row, keyed by the name of the scored feature. *)
Definition run_gsea_prerank (gene_score_df : Series) (permutation_num : Z)
      (gene_sets : string) : result DataFrame :=
    if decide (s_values (dropna gene_score_df) = [])
    then Raise (EngineError "no gene scores")
    else Ok {| index := [VStr gene_sets];
               columns := [("feature", [CObj (VStr (s_name gene_score_df))]);
                           ("nes", [CNum 0])] |}.
End Reference.

(** ** Reference descriptions used by the properties *)

(** What a row of the gene dictionary holds in one of the two namespaces. *)
Definition ns_value (ns : string) (r : gene_row) : pyval :=
  if decide (ns = "entrez_gene_id") then VInt (entrez_gene_id r)
  else VStr (symbol r).

(** The translation of one identifier read directly off the table: the
    target value of the last row that holds [g] in the source namespace, the
    missing-value marker when there is none. *)
Definition translate_one (table : list gene_row) (translate_from translate_to : string)
    (g : pyval) : pyval :=
  match last (filter (λ r, ns_value translate_from r = g) table) with
  | Some r => ns_value translate_to r
  | None => VNaN
  end.

(** The characters that Python's [re] reads as operators, and the patterns
    without any: for these a regular expression search is the search for the
    pattern as a substring. *)
Definition is_meta (c : ascii) : bool :=
  bool_decide (c ∈ [".";"^";"$";"*";"+";"?";"{";"}";"[";"]";"\";"|";"(";")"]%char).

Fixpoint literal (pat : string) : bool :=
  match pat with
  | EmptyString => true
  | String c pat' => negb (is_meta c) && literal pat'
  end.

(** Text in which every character is an ASCII character; on such text the
    case mappings of the model are those of Python. *)
Fixpoint ascii_text (s : string) : bool :=
  match s with
  | EmptyString => true
  | String c s' => (nat_of_ascii c <? 128)%nat && ascii_text s'
  end.

(** The combination an invocation of the enrichment routine is made for. *)
Definition call_key (c : gsea_call) : string * Z * string * string :=
  (call_algorithm c, call_current_z c, call_distribution c, call_direction c).

(** The frame a single-distribution method reads its feature from. *)
Definition single_view (self : latentModel) (distrib : string) : option DataFrame :=
  if decide (distrib = "full") then Some (to_frame (w_df self))
  else if decide (distrib = "full_squared") then sqr_w_df self
  else None.

(** The combinations of algorithm, feature and single-distribution method in
    the order the three loops visit them. *)
Definition single_combinations (algorithms : list string) (z : Z)
    (distrib_methods : list string) : list (string * Z * string * string) :=
  alg ← algorithms; current_z ← py_range z; distrib ← distrib_methods;
  [(alg, current_z, distrib, "both")].

(** [df[name]]: the first column of that name. *)
Fixpoint assoc_column (name : string) (cols : list (string * list cell))
  : option (list cell) :=
  match cols with
  | [] => None
  | nc :: cols' => if decide (nc.1 = name) then Some nc.2
                   else assoc_column name cols'
  end.

Definition get_column (df : DataFrame) (name : string) : option (list cell) :=
  assoc_column name (columns df).

(** The names of the columns that [_get_gsea_results] attaches. *)
Definition provenance_columns : list string :=
  ["distrib"; "algorithm"; "current_z"; "full_z"; "shuffled"; "direction"; "seed"].







(** The contingency table of a gene set read off the three gene lists as
    sets: [m] genes of the set among the candidates, [N] candidates, [P]
    genes in the set, [G] genes in the background extended by the
    candidates. *)
Definition overrepresentation_table (candidates background gene_set : list pyval)
  : table2x2 :=
  let S : gset pyval := list_to_set gene_set in
  let C : gset pyval := list_to_set candidates in
  let B : gset pyval := list_to_set background in
  contingency (Z.of_nat (size (S ∩ C))) (Z.of_nat (size C)) (Z.of_nat (size S))
    (Z.of_nat (size (B ∪ C))).

(** The frame of p-values and odds ratios, one row per gene set. *)
Definition overrepresentation_frame (names : list string)
    (tests : list (float * float)) : DataFrame :=
  {| index := map VStr names;
     columns := [("pval", map (λ t, CNum t.2) tests);
                 ("odds", map (λ t, CNum t.1) tests)] |}.

(** Whether a character occurs in a string. *)
Fixpoint contains_char (c : ascii) (s : string) : bool :=
  match s with
  | EmptyString => false
  | String c' s' => if decide (c' = c) then true else contains_char c s'
  end.

(** [d.get(k)] on a dict kept in insertion order. *)
Fixpoint assoc {V} (k : string) (d : list (string * V)) : option V :=
  match d with
  | [] => None
  | (k', v) :: d' => if decide (k' = k) then Some v else assoc k d'
  end.

(** Step 0 of [run_gsea_pipeline_command]: the weight file of every seed. *)
Definition weight_matrices_of (files : list string)
  : result (list (string * string)) :=
  for_each (λ (d : list (string * string)) file_name,
              seed ← seed_of_file_name file_name;
              Ok (dict_set seed file_name d))
    files [].

(** The error of [translate_gene_ids] for a namespace it does not know. *)
Definition invalid_namespace : exn :=
  ValueError "Translation for 'entrez_gene_id' and 'symbol' only".

(** The dictionary that a translation works with: the one the model holds
    when it is marked loaded, the protein-coding rows of the fetched gene
    table otherwise. *)
Definition dictionary_in_effect (read_genes : string → result (list gene_row))
    (self : latentModel) (hash : option string) : result (list gene_row) :=
  if is_gene_dictionary_loaded self
  then from_attr "gene_dictionary_df" (gene_dictionary_df self)
  else table ← read_genes (genes_url (default default_hash hash));
       Ok (filter (λ r, gene_type r = "protein-coding") table).


(** ** Gene set files *)

Definition tab : ascii := ascii_of_nat 9.
Definition newline : ascii := ascii_of_nat 10.

(** The white space that [str.strip()] removes from ASCII text. *)
Definition is_space (c : ascii) : bool :=
  let n := nat_of_ascii c in
  ((9 <=? n) && (n <=? 13) || (28 <=? n) && (n <=? 32))%nat.

Fixpoint lstrip (s : string) : string :=
  match s with
  | EmptyString => EmptyString
  | String c s' => if is_space c then lstrip s' else s
  end.

Fixpoint rstrip (s : string) : string :=
  match s with
  | EmptyString => EmptyString
  | String c s' =>
      match rstrip s' with
      | EmptyString => if is_space c then EmptyString else String c EmptyString
      | r => String c r
      end
  end.

(** [s.strip()]. *)
Definition strip (s : string) : string := rstrip (lstrip s).

(** [s.endswith(suffix)]. *)
Fixpoint endswith (suffix s : string) : bool :=
  if decide (s = suffix) then true
  else match s with
       | EmptyString => false
       | String _ s' => endswith suffix s'
       end.

(** [line.strip().split('\t')], then the name [fields[0]] and the genes
    [fields[2:]]. *)
Definition gmt_entry (line : string) : result (string * list string) :=
  let fields := split_on tab (strip line) in
  match fields with
  | name :: _ => Ok (name, drop 2 fields)
  | [] => Raise (IndexError "list index out of range")
  end.

Section GeneSetFiles.
  (** [open(path)] and the lines of the file, each with its line end. *)
Variable read_lines : string → result (list string).

  (** [load_gmt]. *)
Definition load_gmt (gmt_file_path : string)
    : result (list (string * list string)) :=
    lines ← read_lines gmt_file_path;
    for_each (λ (gene_set_dict : list (string * list string)) line,
                '(gene_set_name, gene_set) ← gmt_entry line;
                Ok (dict_set gene_set_name gene_set gene_set_dict))
      lines [].

  (** The dict comprehension of [parse_gmt] over the lines of one file. *)
Definition gmt_comprehension (lines : list string)
    : result (gmap string (list string)) :=
    entries ← map_result gmt_entry lines;
    Ok (py_dict entries).

  (** [parse_gmt]: the dict made of the [ChainMap] of the list looks a name up
      in the first dict that has it. *)
Definition parse_gmt (gene_sets : list string)
    : result (gmap string (list string)) :=
    gene_set_dict_list ←
      for_each (λ (acc : list (gmap string (list string))) gene_set,
                  if endswith ".gmt" (lower gene_set) then
                    lines ← read_lines gene_set;
                    d ← gmt_comprehension lines;
                    Ok (acc ++ [d])
                  else Ok acc)
        gene_sets [];
    Ok (⋃ gene_set_dict_list).
End GeneSetFiles.

(** [sep.join(fields)]. *)
Fixpoint join (sep : ascii) (fields : list string) : string :=
  match fields with
  | [] => ""
  | field :: rest =>
      match rest with
      | [] => field
      | _ :: _ => field +:+ String sep (join sep rest)
      end
  end.

(** One line of a gene set file: the name, a description and the genes,
    separated by tabs and closed by a line end. *)
Definition gmt_line (name description : string) (genes : list string) : string :=
  join tab (name :: description :: genes) +:+ String newline "".

Fixpoint has_space (s : string) : bool :=
  match s with
  | EmptyString => false
  | String c s' => is_space c || has_space s'
  end.

(** A field of ASCII text that is not empty and holds no white space (so no
    tab). *)
Definition clean (s : string) : Prop :=
  s ≠ "" ∧ has_space s = false ∧ ascii_text s = true.

(** A gene set as a file states it: name, description, genes. *)
Definition gmt_record : Type := string * string * list string.

Definition well_formed (r : gmt_record) : Prop :=
  clean r.1.1 ∧ contains_char tab r.1.2 = false ∧ Forall clean r.2 ∧ r.2 ≠ [].

(** The path has the extension that [parse_gmt] looks for. *)
Definition is_gmt (path : string) : Prop := endswith ".gmt" (lower path) = true.

(** ** Concrete inputs *)

Module Examples.
Local Open Scope float_scope.

  (** A weight file whose feature names differ in letter case. *)
Definition mixed_case_matrix : WeightMatrix :=
    {| w_index := [VInt 5; VInt 7];
       w_columns := [("PCA_0", [1; -1]); ("pca_1", [0.5; 2])] |}.


  (** A feature with mean 0 and sample standard deviation 1, and one with a
      weight beyond 2.5 standard deviations. *)
Definition unit_matrix : WeightMatrix :=
    {| w_index := [VStr "g1"; VStr "g2"; VStr "g3"];
       w_columns := [("pca_0", [-1; 0; 1])] |}.

  (** Sixteen weights with mean 0 and sample standard deviation 1 that reach
      both thresholds of the multiplier 2.5. *)
Definition threshold_matrix : WeightMatrix :=
    {| w_index := map (λ k, VStr (pretty k)) (seq 0 16);
       w_columns := [("pca_0", [2.5; -2.5; 1; -1; 0.5; -0.5;
                                0; 0; 0; 0; 0; 0; 0; 0; 0; 0])] |}.

Definition model_of (w : WeightMatrix) : latentModel :=
    {| filename := "w.tsv"; w_df := w; z_dim := Some 1%Z;
       dataset_name := "TCGA"; weight_seed := 42%Z; shuffled_true := false;
       is_gene_dictionary_loaded := false; algorithm_name := None;
       gene_dictionary_df := None; pos_high_w_df := None;
       neg_high_w_df := None; high_weight_std_cutoff := None;
       pos_w_df := None; neg_w_df := None; sqr_w_df := None |}.

  (** A gene table with one gene that is not protein-coding. *)
Definition gene_table : list gene_row :=
    [ {| symbol := "TP53"; entrez_gene_id := 7157; gene_type := "protein-coding";
         synonyms := Some "P53|LFS1" |};
      {| symbol := "KRAS"; entrez_gene_id := 3845; gene_type := "protein-coding";
         synonyms := Some "KRAS2|RASK2" |};
      {| symbol := "XIST"; entrez_gene_id := 7503; gene_type := "ncRNA";
         synonyms := None |} ].

Definition gene_table_url (url : string) : result (list gene_row) :=
    Ok gene_table.

Definition unreachable_url (url : string) : result (list gene_row) :=
    Raise (IOError "unreachable").

  (** A model whose gene dictionary is loaded. *)
Definition loaded_model : latentModel :=
    set_gene_dictionary (filter (λ r, gene_type r = "protein-coding") gene_table)
      (model_of unit_matrix).

  (** A weight matrix with a single gene: its sample standard deviation is
      undefined. *)
Definition single_gene_matrix : WeightMatrix :=
    {| w_index := [VStr "g1"]; w_columns := [("pca_0", [5])] |}.

  (** Two genes and two features, none of the weights beyond the
      thresholds. *)
Definition square_matrix : WeightMatrix :=
    {| w_index := [VStr "g1"; VStr "g2"];
       w_columns := [("pca_0", [1; -1]); ("pca_1", [0.5; 2])] |}.

  (** The model of [square_matrix] after the three distribution steps of the
      pipeline. *)
Definition prepared_model : latentModel :=
    get_squared_distribution
      (split_pos_neg_genes
         (get_high_weight_genes Reference.col_mean Reference.col_std
            (model_of square_matrix) 2.5 false)
         false).


Definition no_locals : gsea_locals :=
    {| use_df := None; use_pos_df := None; use_neg_df := None;
       current_z_list := []; calls := [] |}.

  (** An invocation for the first feature of [square_matrix]. *)
Definition full_call : gsea_call :=
    {| call_use_df := {| s_index := [VStr "g1"; VStr "g2"]; s_name := "pca_0";
                         s_values := [CNum 1; CNum (-1)] |};
       call_algorithm := "pca"; call_current_z := 0; call_full_z := 2;
       call_distribution := "full"; call_num_perm := 15;
       call_shuffled := false; call_direction := "both";
       call_seed := VStr "42"; call_gene_sets := "KEGG_2016" |}.

  (** Candidates [A, B, C] at reference 1, the background [A .. E] at
      reference 2, one gene set [A, B] at reference 3 and one with genes
      outside the background at reference 4. *)
Definition gene_heap : heap :=
    <[1%positive := [VStr "A"; VStr "B"; VStr "C"]]>
    (<[2%positive := [VStr "A"; VStr "B"; VStr "C"; VStr "D"; VStr "E"]]>
    (<[3%positive := [VStr "A"; VStr "B"]]>
    (<[4%positive := [VStr "X"; VStr "Y"; VStr "Z"; VStr "W"]]> ∅))).

  (** An exact test that accepts a single table and reports which table it
      was given otherwise. *)
Definition expects_table (expected : table2x2) (t : table2x2)
    : result (float * float) :=
    if decide (t = expected) then Ok (1, 1)%float
    else Raise (ValueError "another table").

  (** Genes whose synonyms are shared or collide with primary symbols. *)
Definition synonym_table : list gene_row :=
    [ {| symbol := "A"; entrez_gene_id := 1; gene_type := "protein-coding";
         synonyms := Some "B|X" |};
      {| symbol := "B"; entrez_gene_id := 2; gene_type := "protein-coding";
         synonyms := None |};
      {| symbol := "C"; entrez_gene_id := 3; gene_type := "protein-coding";
         synonyms := Some "X|Y" |};
      {| symbol := "D"; entrez_gene_id := 4; gene_type := "protein-coding";
         synonyms := Some "D2|C" |};
      {| symbol := "E"; entrez_gene_id := 5; gene_type := "ncRNA";
         synonyms := Some "E2" |} ].

  (** A directory with the weight files of two seeds, the second of which
      cannot be read. *)
Definition two_seed_glob (pattern : string) : list string :=
    ["w/model_1_weight_matrix.tsv"; "w/model_2_weight_matrix.tsv"].

Definition second_unreadable (path : string) : result WeightMatrix :=
    if decide (path = "w/model_1_weight_matrix.tsv") then Ok square_matrix
    else Raise (IOError "cannot read").

Definition empty_glob (pattern : string) : list string := [].


End Examples.

(** Gene set files to run the readers on. *)
Module GmtExamples.
Definition hallmark_records : list gmt_record :=
    [("SET_A", "first version", ["TP53"; "KRAS"]);
     ("SET_B", "http://example.org/b", ["MYC"]);
     ("SET_A", "second version", ["EGFR"])].

Definition kegg_records : list gmt_record :=
    [("SET_B", "other source", ["BRCA1"; "BRCA2"]);
     ("SET_C", "", ["PTEN"])].

Definition lines_of (records : list gmt_record) : list string :=
    map (λ r : gmt_record, gmt_line r.1.1 r.1.2 r.2) records.

  (** A disk with two gene set files, a file that ends in a blank line, and
      nothing else. *)
Definition disk (path : string) : result (list string) :=
    if decide (path = "sets/hallmark.gmt") then Ok (lines_of hallmark_records)
    else if decide (path = "sets/KEGG.GMT") then Ok (lines_of kegg_records)
    else if decide (path = "sets/blank.gmt")
         then Ok (lines_of kegg_records ++ ["ONLY_A_NAME" +:+ String newline "";
                                            String newline ""])
    else Raise (IOError path).
End GmtExamples.

(** * Properties *)

(** ** Strings and masks *)

Lemma startswith_spec (p s : string) :
  startswith p s = true ↔ ∃ post, s = p +:+ post.
Proof.
  revert s. induction p as [|a p IH]; intros s; simpl.
  - split; [intros _; by exists s | done].
  - destruct s as [|b s].
    + split; [done | by intros [post Hpost]].
    + destruct (decide (a = b)) as [->|Hne].
      * rewrite IH. split; intros [post Hpost]; exists post.
        -- by rewrite Hpost.
        -- by injection Hpost.
      * split; [done | intros [post Hpost]; by injection Hpost].
Qed.

Lemma str_contains_spec (pat s : string) :
  str_contains pat s = true ↔ ∃ pre post, s = pre +:+ pat +:+ post.
Proof.
  induction s as [|c s IH]; simpl.
  - rewrite orb_false_r, startswith_spec. split.
    + intros [post Hpost]. by exists "", post.
    + intros [pre [post Hs]]. destruct pre; [by exists post | done].
  - rewrite orb_true_iff, startswith_spec, IH. split.
    + intros [[post Hpost] | [pre [post Hs]]].
      * by exists "", post.
      * exists (String c pre), post. simpl. by rewrite Hs.
    + intros [pre [post Hs]]. destruct pre as [|c' pre]; simpl in Hs.
      * left. by exists post.
      * right. exists pre, post. by injection Hs.
Qed.

Lemma mask_select_map {A} (f : A → bool) (l : list A) :
  mask_select (map f l) l = filter (λ x, f x = true) l.
Proof.
  unfold mask_select. induction l as [|x l IH]; [done|].
  cbn [map zip zip_with]. rewrite !filter_cons. cbn [fst].
  destruct (decide (f x = true)); cbn [fmap list_fmap snd]; by rewrite <- IH.
Qed.

(** ** Weight matrix loader *)








(** ** Float comparisons *)

Section FloatOrder.
Local Open Scope float_scope.

Lemma SFcompare_antisym (x y : spec_float) :
    SFcompare y x = CompOpp <$> SFcompare x y.
Proof.
    destruct x as [sx|sx| |sx mx ex], y as [sy|sy| |sy my ey];
      try destruct sx; try destruct sy; try reflexivity; simpl; f_equal.
    - rewrite (Z.compare_antisym ey ex).
      destruct (ey ?= ex)%Z; simpl; try reflexivity.
      by rewrite (Pos.compare_cont_antisym mx my Eq).
    - rewrite (Z.compare_antisym ey ex).
      destruct (ey ?= ex)%Z; simpl; try reflexivity.
      by rewrite (Pos.compare_cont_antisym mx my Eq).
Qed.

Lemma ltb_leb_false (a b : float) : (a <? b) = true → (b <=? a) = false.
Proof.
    intros H. rewrite FloatAxioms.ltb_spec in H. rewrite FloatAxioms.leb_spec.
    unfold SFltb in H. unfold SFleb.
    rewrite (SFcompare_antisym (Prim2SF a) (Prim2SF b)).
    by destruct (SFcompare (Prim2SF a) (Prim2SF b)) as [[]|].
Qed.

Lemma eqb_zero (m : float) : (m =? 0) = true → m = 0 ∨ m = -0.
Proof.
    intros H. rewrite FloatAxioms.eqb_spec in H. unfold SFeqb in H.
    assert (∃ s, Prim2SF m = S754_zero s) as [s Hs].
    { change (Prim2SF 0) with (S754_zero false) in H.
      destruct (Prim2SF m) as [s|s| |s mm e]; try destruct s; try done; by eexists. }
    rewrite <- (SF2Prim_Prim2SF m), Hs. destruct s; [by right | by left].
Qed.

Lemma SFcompare_Eq_finite (x : spec_float) (s : bool) (m : positive) (e : Z) :
    SFcompare x (S754_finite s m e) = Some Eq → x = S754_finite s m e.
Proof.
    destruct x as [sx|sx| |sx mx ex]; try destruct sx; try destruct s;
      try discriminate; unfold SFcompare; intros H.
    - destruct (Z.compare_spec ex e) as [->| |]; try discriminate.
      injection H as H. apply CompOpp_iff in H.
      by rewrite (Pos.compare_eq mx m H).
    - destruct (Z.compare_spec ex e) as [->| |]; try discriminate.
      injection H as H. by rewrite (Pos.compare_eq mx m H).
Qed.

Lemma eqb_one (s : float) : (s =? 1) = true → s = 1.
Proof.
    intros H. rewrite FloatAxioms.eqb_spec in H. unfold SFeqb in H.
    assert (Prim2SF 1 = S754_finite false 4503599627370496 (-52)) as Hone
      by (vm_compute; reflexivity).
    apply Prim2SF_inj. rewrite Hone in *.
    apply SFcompare_Eq_finite.
    by destruct (SFcompare (Prim2SF s) (S754_finite false 4503599627370496 (-52)))
      as [[]|].
Qed.
End FloatOrder.

(** ** Distribution extractor *)

Lemma lookup_map {A B} (f : A → B) (l : list A) (i : nat) :
  map f l !! i = f <$> l !! i.
Proof. revert i. induction l as [|a l IH]; intros [|i]; simpl; auto. Qed.

Lemma zip_with_map_self {A B C} (f : A → B → C) (g : A → B) (l : list A) :
  zip_with f l (map g l) = map (λ a, f a (g a)) l.
Proof. induction l as [|a l IH]; simpl; by f_equal. Qed.

Lemma zip_with_map_map {A B C D} (f : B → C → D) (g : A → B) (h : A → C)
    (l : list A) :
  zip_with f (map g l) (map h l) = map (λ a, f (g a) (h a)) l.
Proof. induction l as [|a l IH]; simpl; by f_equal. Qed.

Section HighWeight.
Local Open Scope float_scope.
Variables col_mean col_std : list float → float.

Lemma high_weight_frames (self : latentModel) (std_dev : float) :
    let self' := get_high_weight_genes col_mean col_std self std_dev false in
    pos_high_w_df self' =
      Some {| index := w_index (w_df self);
              columns := map (λ nc, col_map (λ x,
                           CFlag (col_mean nc.2 + std_dev * col_std nc.2 <=? x)) nc)
                           (w_columns (w_df self)) |} ∧
    neg_high_w_df self' =
      Some {| index := w_index (w_df self);
              columns := map (λ nc, col_map (λ x,
                           CFlag (x <=? col_mean nc.2 - std_dev * col_std nc.2)) nc)
                           (w_columns (w_df self)) |}.
Proof.
    unfold get_high_weight_genes, frame_ge, frame_le, frame_mean, frame_std.
    simpl. rewrite !map_map, !zip_with_map_map.
    rewrite (zip_with_map_self
               (λ nc t, col_map (λ x, CFlag (t <=? x)) nc)
               (λ nc, col_mean nc.2 + std_dev * col_std nc.2)).
    rewrite (zip_with_map_self
               (λ nc t, col_map (λ x, CFlag (x <=? t)) nc)
               (λ nc, col_mean nc.2 - std_dev * col_std nc.2)).
    done.
Qed.

  (** C4: with [long_format] off, [get_high_weight_genes] produces two boolean
      frames with the row keys and column names of the weight matrix; a cell
      is true in [pos_high_w_df] iff its weight is greater than or equal to
      the column mean plus multiplier times column standard deviation, and
      true in [neg_high_w_df] iff its weight is less than or equal to the
      column mean minus that amount.  For a column with mean 0 and standard
      deviation 1 and the multiplier 2.5, exactly the values at least 2.5 are
      flagged positive, exactly the values at most -2.5 are flagged negative,
      and the values strictly between are false in both. *)
Theorem get_high_weight_genes_threshold (self : latentModel) (std_dev : float)
      (j i : nat) (name : string) (xs : list float) (x : float) :
    w_columns (w_df self) !! j = Some (name, xs) →
    xs !! i = Some x →
    let self' := get_high_weight_genes col_mean col_std self std_dev false in
    ∃ pos neg,
      pos_high_w_df self' = Some pos ∧ neg_high_w_df self' = Some neg ∧
      index pos = w_index (w_df self) ∧ index neg = w_index (w_df self) ∧
      (columns pos).*1 = (w_columns (w_df self)).*1 ∧
      (columns neg).*1 = (w_columns (w_df self)).*1 ∧
      cell_at pos j i = Some (CFlag (col_mean xs + std_dev * col_std xs <=? x)) ∧
      cell_at neg j i = Some (CFlag (x <=? col_mean xs - std_dev * col_std xs)) ∧
      ((col_mean xs =? 0) = true → (col_std xs =? 1) = true → std_dev = 2.5 →
       cell_at pos j i = Some (CFlag (2.5 <=? x)) ∧
       cell_at neg j i = Some (CFlag (x <=? -2.5)) ∧
       ((-2.5 <? x) = true → (x <? 2.5) = true →
        cell_at pos j i = Some (CFlag false) ∧
        cell_at neg j i = Some (CFlag false))).
Proof.
    intros Hcol Hx self'.
    destruct (high_weight_frames self std_dev) as [Hpos Hneg].
    fold self' in Hpos, Hneg.
    eexists _, _. split; [exact Hpos|]. split; [exact Hneg|]. simpl.
    assert (∀ f : (string * list float) → float → cell,
              cell_at {| index := w_index (w_df self);
                         columns := map (λ nc, col_map (f nc) nc)
                                      (w_columns (w_df self)) |} j i
              = Some (f (name, xs) x)) as Hcell.
    { intros f. unfold cell_at. simpl. rewrite lookup_map, Hcol. simpl.
      by rewrite lookup_map, Hx. }
    assert (∀ f : (string * list float) → float → cell,
              (map (λ nc, col_map (f nc) nc) (w_columns (w_df self))).*1
              = (w_columns (w_df self)).*1) as Hnames.
    { intros f. generalize (w_columns (w_df self)).
      induction l as [|nc l IH]; [reflexivity|].
      cbn [map fmap list_fmap]. by rewrite <- IH. }
    pose proof (Hcell (λ nc x, CFlag (col_mean nc.2 + std_dev * col_std nc.2 <=? x)))
      as Hp.
    pose proof (Hcell (λ nc x, CFlag (x <=? col_mean nc.2 - std_dev * col_std nc.2)))
      as Hn.
    simpl in Hp, Hn.
    split_and!; try done.
    intros Hmean Hstd ->.
    rewrite Hp, Hn. apply eqb_one in Hstd. rewrite Hstd.
    assert (col_mean xs + 2.5 * 1 = 2.5 ∧ col_mean xs - 2.5 * 1 = -2.5)
      as [-> ->].
    { destruct (eqb_zero _ Hmean) as [-> | ->]; by vm_compute. }
    split_and!; try done.
    intros Hlo Hhi.
    by rewrite (ltb_leb_false _ _ Hlo), (ltb_leb_false _ _ Hhi).
Qed.
End HighWeight.

Lemma get_high_weight_genes_threshold_witness :
  ∃ pos neg,
    pos_high_w_df (get_high_weight_genes Reference.col_mean Reference.col_std
                     (Examples.model_of Examples.threshold_matrix) 2.5 false)
      = Some pos ∧
    neg_high_w_df (get_high_weight_genes Reference.col_mean Reference.col_std
                     (Examples.model_of Examples.threshold_matrix) 2.5 false)
      = Some neg ∧
    cell_at pos 0 0 = Some (CFlag true) ∧ cell_at neg 0 0 = Some (CFlag false) ∧
    cell_at pos 0 1 = Some (CFlag false) ∧ cell_at neg 0 1 = Some (CFlag true) ∧
    cell_at pos 0 2 = Some (CFlag false) ∧ cell_at neg 0 2 = Some (CFlag false).
Proof.
  pose (xs := [2.5; -2.5; 1; -1; 0.5; -0.5; 0; 0; 0; 0; 0; 0; 0; 0; 0; 0]%float).
  destruct (get_high_weight_genes_threshold Reference.col_mean Reference.col_std
              (Examples.model_of Examples.threshold_matrix) 2.5 0 0 "pca_0"
              xs 2.5 eq_refl eq_refl)
    as (pos & neg & Hpos & Hneg & _ & _ & _ & _ & _ & _ & Hunit).
  destruct (Hunit eq_refl eq_refl eq_refl) as (Hp0 & Hn0 & _).
  destruct (get_high_weight_genes_threshold Reference.col_mean Reference.col_std
              (Examples.model_of Examples.threshold_matrix) 2.5 0 1 "pca_0"
              xs (-2.5) eq_refl eq_refl)
    as (pos1 & neg1 & Hpos1 & Hneg1 & _ & _ & _ & _ & _ & _ & Hunit1).
  destruct (Hunit1 eq_refl eq_refl eq_refl) as (Hp1 & Hn1 & _).
  destruct (get_high_weight_genes_threshold Reference.col_mean Reference.col_std
              (Examples.model_of Examples.threshold_matrix) 2.5 0 2 "pca_0"
              xs 1 eq_refl eq_refl)
    as (pos2 & neg2 & Hpos2 & Hneg2 & _ & _ & _ & _ & _ & _ & Hunit2).
  destruct (Hunit2 eq_refl eq_refl eq_refl) as (_ & _ & Hbetween).
  destruct (Hbetween eq_refl eq_refl) as (Hp2 & Hn2).
  exists pos, neg.
  assert (pos1 = pos) as -> by congruence.
  assert (neg1 = neg) as -> by congruence.
  assert (pos2 = pos) as -> by congruence.
  assert (neg2 = neg) as -> by congruence.
  repeat split; assumption.
Defined.

(** * Further properties of the code *)

(** ** Gene identifier translation *)

Lemma py_dict_foldl_lookup {K V} `{Countable K} (kvs : list (K * V))
    (m : gmap K V) (k : K) :
  foldl (λ m kv, <[kv.1 := kv.2]> m) m kvs !! k =
    match last (filter (λ kv, kv.1 = k) kvs) with
    | Some kv => Some kv.2
    | None => m !! k
    end.
Proof.
  revert m. induction kvs as [|[k' v'] kvs IH]; intros m; [done|].
  cbn [foldl]. rewrite IH, filter_cons. cbn [fst snd].
  destruct (decide (k' = k)) as [->|Hne].
  - rewrite last_cons.
    destruct (last (filter (λ kv, kv.1 = k) kvs)); [done|].
    by rewrite lookup_insert_eq.
  - destruct (last (filter (λ kv, kv.1 = k) kvs)); [done|].
    by rewrite lookup_insert_ne.
Qed.

Lemma py_dict_lookup {K V} `{Countable K} (kvs : list (K * V)) (k : K) :
  py_dict kvs !! k = snd <$> last (filter (λ kv, kv.1 = k) kvs).
Proof.
  unfold py_dict. rewrite py_dict_foldl_lookup.
  by destruct (last (filter (λ kv, kv.1 = k) kvs)).
Qed.

Lemma gene_column_valid (ns : string) (table : list gene_row) :
  ns ∈ choices →
  map_result (gene_column ns) table = Ok (map (ns_value ns) table).
Proof.
  intros Hns.
  assert (∀ r, gene_column ns r = Ok (ns_value ns r)) as Hcol.
  { intros r. unfold gene_column, ns_value.
    destruct (decide (ns = "entrez_gene_id")); [done|].
    destruct (decide (ns = "symbol")); [done|].
    unfold choices in Hns.
    apply elem_of_cons in Hns as [?|Hns]; [done|].
    apply elem_of_cons in Hns as [?|Hns]; [done|].
    by apply elem_of_nil in Hns. }
  induction table as [|r table IH]; [done|].
  cbn [map_result map]. rewrite Hcol. simpl. by rewrite IH.
Qed.

Lemma filter_zip_map {A B C} `{EqDecision B} (f : A → B) (g : A → C)
    (l : list A) (k : B) :
  filter (λ kv, kv.1 = k) (zip (map f l) (map g l)) =
  map (λ a, (f a, g a)) (filter (λ a, f a = k) l).
Proof.
  induction l as [|a l IH]; [done|].
  cbn [map zip zip_with]. rewrite !filter_cons. cbn [fst].
  destruct (decide (f a = k)); cbn [map]; by rewrite IH.
Qed.

Lemma last_map {A B} (f : A → B) (l : list A) :
  last (map f l) = f <$> last l.
Proof.
  induction l as [|a l IH]; [done|].
  destruct l as [|b l]; [done|].
  change (map f (a :: b :: l)) with (f a :: map f (b :: l)).
  by rewrite !last_cons_cons.
Qed.

Lemma gene_mapper_lookup (table : list gene_row) (translate_from translate_to : string)
    (g : pyval) :
  default VNaN (py_dict (zip (map (ns_value translate_from) table)
                             (map (ns_value translate_to) table)) !! g)
  = translate_one table translate_from translate_to g.
Proof.
  rewrite py_dict_lookup, filter_zip_map, last_map. unfold translate_one.
  by destruct (last (filter (λ r, ns_value translate_from r = g) table)).
Qed.

Lemma elem_of_map_intro {A B} (f : A → B) (l : list A) (x : A) :
  x ∈ l → f x ∈ map f l.
Proof. intros Hx. apply list_elem_of_In, in_map, list_elem_of_In, Hx. Qed.

Lemma filter_none {A} (P : A → Prop) `{∀ x, Decision (P x)} (l : list A) :
  (∀ x, x ∈ l → ¬ P x) → filter P l = [].
Proof.
  induction l as [|a l IH]; intros Hall; [done|].
  rewrite filter_cons, decide_False by (apply Hall, list_elem_of_here).
  apply IH. intros x Hx. apply Hall. by apply list_elem_of_further.
Qed.

Lemma filter_unique {A B} `{EqDecision B} (f : A → B) (l : list A) (r : A) :
  NoDup (map f l) → r ∈ l → filter (λ x, f x = f r) l = [r].
Proof.
  induction l as [|a l IH]; intros Hnd Hin; [by apply elem_of_nil in Hin|].
  cbn [map] in Hnd. apply NoDup_cons in Hnd as [Hnotin Hnd].
  rewrite filter_cons. apply elem_of_cons in Hin as [->|Hin].
  - rewrite decide_True by done. f_equal.
    apply filter_none. intros x Hx Heq.
    apply Hnotin. rewrite <- Heq. by apply elem_of_map_intro.
  - rewrite decide_False; [by apply IH|].
    intros Heq. apply Hnotin. rewrite Heq. by apply elem_of_map_intro.
Qed.

Lemma translate_one_inverse (table : list gene_row) (ns1 ns2 : string) (g : pyval) :
  NoDup (map (ns_value ns1) table) → NoDup (map (ns_value ns2) table) →
  g ∈ map (ns_value ns1) table →
  translate_one table ns2 ns1 (translate_one table ns1 ns2 g) = g.
Proof.
  intros Hnd1 Hnd2 Hg.
  apply list_elem_of_In, in_map_iff in Hg as (r & <- & Hr).
  apply list_elem_of_In in Hr.
  unfold translate_one at 2. rewrite (filter_unique (ns_value ns1)) by done.
  cbn [last]. unfold translate_one.
  by rewrite (filter_unique (ns_value ns2)) by done.
Qed.

Section TranslatorProperties.
Variable read_genes : string → result (list gene_row).

Lemma translate_with_dictionary (self : latentModel) (table : list gene_row)
      (gene_list : list pyval) (translate_from translate_to : string)
      (hash : option string) :
    translate_from ∈ choices → translate_to ∈ choices →
    is_gene_dictionary_loaded self = true →
    gene_dictionary_df self = Some table →
    translate_gene_ids read_genes self gene_list translate_from translate_to hash
    = (self, Ok (map (translate_one table translate_from translate_to) gene_list)).
Proof.
    intros Hfrom Hto Hloaded Htable. unfold translate_gene_ids.
    rewrite bool_decide_eq_false_2 by tauto.
    rewrite Hloaded, Htable. cbn [from_attr mbind result_bind].
    rewrite !gene_column_valid by done. cbn [mbind result_bind].
    do 2 f_equal. apply map_ext. intros g. apply gene_mapper_lookup.
Qed.

  (** With a loaded dictionary, [translate_gene_ids] reads nothing and leaves
      the model as it is; every identifier is translated to the target value
      of the last dictionary row that holds it in the source namespace, and
      to the missing-value marker when no row does. *)
Theorem translate_gene_ids_loaded (self : latentModel) (table : list gene_row)
      (gene_list : list pyval) (translate_from translate_to : string)
      (hash : option string) :
    translate_from ∈ choices → translate_to ∈ choices →
    is_gene_dictionary_loaded self = true →
    gene_dictionary_df self = Some table →
    translate_gene_ids read_genes self gene_list translate_from translate_to hash
    = (self, Ok (map (translate_one table translate_from translate_to) gene_list)).
Proof.
    intros Hfrom Hto Hloaded Htable. unfold translate_gene_ids.
    rewrite bool_decide_eq_false_2 by tauto.
    rewrite Hloaded, Htable. cbn [from_attr mbind result_bind].
    rewrite !gene_column_valid by done. cbn [mbind result_bind].
    do 2 f_equal. apply map_ext. intros g. apply gene_mapper_lookup.
Qed.

  (** The first translation fetches the gene table of the requested commit
      (the default commit when none is given), keeps its protein-coding rows
      as the dictionary and marks it loaded; a later translation gives the
      same answer whatever the network returns. *)
Theorem translate_gene_ids_first_use (self : latentModel) (raw : list gene_row)
      (gene_list : list pyval) (translate_from translate_to : string)
      (hash : option string) :
    translate_from ∈ choices → translate_to ∈ choices →
    is_gene_dictionary_loaded self = false →
    read_genes (genes_url (default default_hash hash)) = Ok raw →
    let coding := filter (λ r, gene_type r = "protein-coding") raw in
    let self' := set_gene_dictionary coding self in
    let out := map (translate_one coding translate_from translate_to) gene_list in
    translate_gene_ids read_genes self gene_list translate_from translate_to hash
      = (self', Ok out) ∧
    ∀ (read_genes' : string → result (list gene_row)) (hash' : option string),
      translate_gene_ids read_genes' self' gene_list translate_from translate_to hash'
      = (self', Ok out).
Proof.
    intros Hfrom Hto Hloaded Hread coding self' out. split.
    - unfold translate_gene_ids.
      rewrite bool_decide_eq_false_2 by tauto.
      rewrite Hloaded. unfold _load_gene_dict. rewrite Hread.
      cbn [from_attr mbind result_bind gene_dictionary_df set_gene_dictionary].
      rewrite !gene_column_valid by done. cbn [mbind result_bind].
      do 2 f_equal. apply map_ext. intros g. apply gene_mapper_lookup.
    - intros read_genes' hash'. unfold translate_gene_ids.
      rewrite bool_decide_eq_false_2 by tauto.
      cbn [is_gene_dictionary_loaded self' set_gene_dictionary from_attr
           gene_dictionary_df mbind result_bind].
      rewrite !gene_column_valid by done. cbn [mbind result_bind].
      do 2 f_equal. apply map_ext. intros g. apply gene_mapper_lookup.
Qed.

  (** A namespace other than [entrez_gene_id] and [symbol] is refused before
      anything else happens: the call raises the [ValueError], reads nothing
      and leaves the model, its dictionary and its loaded flag as they were;
      when the gene table cannot be fetched, that failure is the one raised
      and the model is likewise unchanged. *)
Theorem translate_gene_ids_errors (self : latentModel) (gene_list : list pyval)
      (translate_from translate_to : string) (hash : option string) (e : exn) :
    (translate_from ∉ choices ∨ translate_to ∉ choices →
     translate_gene_ids read_genes self gene_list translate_from translate_to hash
     = (self, Raise (ValueError "Translation for 'entrez_gene_id' and 'symbol' only"))) ∧
    (translate_from ∈ choices → translate_to ∈ choices →
     is_gene_dictionary_loaded self = false →
     read_genes (genes_url (default default_hash hash)) = Raise e →
     translate_gene_ids read_genes self gene_list translate_from translate_to hash
     = (self, Raise e)).
Proof.
    split.
    - intros Hbad. unfold translate_gene_ids.
      by rewrite bool_decide_eq_true_2.
    - intros Hfrom Hto Hloaded Hread. unfold translate_gene_ids.
      rewrite bool_decide_eq_false_2 by tauto.
      rewrite Hloaded. unfold _load_gene_dict. by rewrite Hread.
Qed.

  (** Round trip: when no two rows of the loaded dictionary share a value in
      either namespace, translating identifiers that the dictionary holds and
      translating the result back returns the identifiers. *)
Theorem translate_gene_ids_round_trip (self : latentModel)
      (table : list gene_row) (gene_list : list pyval)
      (translate_from translate_to : string) (hash : option string) :
    translate_from ∈ choices → translate_to ∈ choices →
    is_gene_dictionary_loaded self = true →
    gene_dictionary_df self = Some table →
    NoDup (map (ns_value translate_from) table) →
    NoDup (map (ns_value translate_to) table) →
    Forall (λ g, g ∈ map (ns_value translate_from) table) gene_list →
    ∃ translated,
      translate_gene_ids read_genes self gene_list translate_from translate_to hash
        = (self, Ok translated) ∧
      translate_gene_ids read_genes self translated translate_to translate_from hash
        = (self, Ok gene_list).
Proof.
    intros Hfrom Hto Hloaded Htable Hnd1 Hnd2 Hall.
    eexists. split; [by apply translate_with_dictionary|].
    rewrite (translate_with_dictionary self table) by done.
    do 2 f_equal. rewrite map_map.
    induction Hall as [|g gl Hg Hall IH]; [done|].
    cbn [map]. rewrite translate_one_inverse by done. by rewrite IH.
Qed.
End TranslatorProperties.

Lemma entrez_in_choices : "entrez_gene_id" ∈ choices.
Proof. apply list_elem_of_here. Qed.

Lemma symbol_in_choices : "symbol" ∈ choices.
Proof. apply list_elem_of_further, list_elem_of_here. Qed.

Lemma translate_gene_ids_loaded_witness :
  translate_gene_ids Examples.unreachable_url Examples.loaded_model
    [VInt 7157; VInt 1; VInt 3845] "entrez_gene_id" "symbol" None
  = (Examples.loaded_model, Ok [VStr "TP53"; VNaN; VStr "KRAS"]).
Proof.
  exact (translate_gene_ids_loaded Examples.unreachable_url Examples.loaded_model
           (filter (λ r, gene_type r = "protein-coding") Examples.gene_table)
           [VInt 7157; VInt 1; VInt 3845] "entrez_gene_id" "symbol" None
           entrez_in_choices symbol_in_choices eq_refl eq_refl).
Defined.

Lemma translate_gene_ids_first_use_witness :
  translate_gene_ids Examples.gene_table_url (Examples.model_of Examples.unit_matrix)
    [VStr "KRAS"; VStr "XIST"] "symbol" "entrez_gene_id" None
  = (Examples.loaded_model, Ok [VInt 3845; VNaN]) ∧
  translate_gene_ids Examples.unreachable_url Examples.loaded_model
    [VStr "KRAS"; VStr "XIST"] "symbol" "entrez_gene_id" (Some "0000")
  = (Examples.loaded_model, Ok [VInt 3845; VNaN]).
Proof.
  destruct (translate_gene_ids_first_use Examples.gene_table_url
              (Examples.model_of Examples.unit_matrix) Examples.gene_table
              [VStr "KRAS"; VStr "XIST"] "symbol" "entrez_gene_id" None
              symbol_in_choices entrez_in_choices eq_refl eq_refl)
    as [Hfirst Hlater].
  split; [exact Hfirst | exact (Hlater Examples.unreachable_url (Some "0000"))].
Defined.

Lemma translate_gene_ids_errors_witness :
  translate_gene_ids Examples.gene_table_url (Examples.model_of Examples.unit_matrix)
    [VStr "KRAS"] "symbol" "ensembl" None
  = (Examples.model_of Examples.unit_matrix,
     Raise (ValueError "Translation for 'entrez_gene_id' and 'symbol' only")) ∧
  translate_gene_ids Examples.unreachable_url (Examples.model_of Examples.unit_matrix)
    [VStr "KRAS"] "symbol" "entrez_gene_id" None
  = (Examples.model_of Examples.unit_matrix, Raise (IOError "unreachable")).
Proof.
  destruct (translate_gene_ids_errors Examples.gene_table_url
              (Examples.model_of Examples.unit_matrix) [VStr "KRAS"]
              "symbol" "ensembl" None (IOError "unreachable")) as [Hbad _].
  destruct (translate_gene_ids_errors Examples.unreachable_url
              (Examples.model_of Examples.unit_matrix) [VStr "KRAS"]
              "symbol" "entrez_gene_id" None (IOError "unreachable")) as [_ Hio].
  split.
  - apply Hbad. right. intros Hin.
    apply elem_of_cons in Hin as [Heq|Hin]; [discriminate Heq|].
    apply elem_of_cons in Hin as [Heq|Hin]; [discriminate Heq|].
    by apply elem_of_nil in Hin.
  - exact (Hio symbol_in_choices entrez_in_choices eq_refl eq_refl).
Defined.

Lemma translate_gene_ids_round_trip_witness :
  ∃ translated,
    translate_gene_ids Examples.unreachable_url Examples.loaded_model
      [VInt 3845; VInt 7157] "entrez_gene_id" "symbol" None
      = (Examples.loaded_model, Ok translated) ∧
    translate_gene_ids Examples.unreachable_url Examples.loaded_model
      translated "symbol" "entrez_gene_id" None
      = (Examples.loaded_model, Ok [VInt 3845; VInt 7157]).
Proof.
  apply (translate_gene_ids_round_trip Examples.unreachable_url
           Examples.loaded_model
           (filter (λ r, gene_type r = "protein-coding") Examples.gene_table)
           [VInt 3845; VInt 7157] "entrez_gene_id" "symbol" None
           entrez_in_choices symbol_in_choices eq_refl eq_refl).
  - vm_compute. repeat constructor; intros Hin;
      repeat (apply elem_of_cons in Hin as [Heq|Hin]; [discriminate Heq|]);
      by apply elem_of_nil in Hin.
  - vm_compute. repeat constructor; intros Hin;
      repeat (apply elem_of_cons in Hin as [Heq|Hin]; [discriminate Heq|]);
      by apply elem_of_nil in Hin.
  - repeat constructor.
Defined.

(** ** Missing values and the float order *)

Section FloatMissing.
Local Open Scope float_scope.

Lemma SFcompare_refl (x : spec_float) :
    x ≠ S754_nan → SFcompare x x = Some Eq.
Proof.
    destruct x as [s|s| |s m e]; try destruct s; try done; intros _; simpl;
      rewrite Z.compare_refl, Pos.compare_cont_refl; done.
Qed.

Lemma is_nan_spec (x : float) :
    PrimFloat.is_nan x = true ↔ Prim2SF x = S754_nan.
Proof.
    unfold PrimFloat.is_nan. rewrite FloatAxioms.eqb_spec. unfold SFeqb. split.
    - intros H. destruct (Prim2SF x) as [s|s| |s m e] eqn:Hx; [| |done|];
        by rewrite SFcompare_refl in H.
    - by intros ->.
Qed.

Lemma SFcompare_nan_r (x y : spec_float) :
    y = S754_nan → SFcompare x y = None.
Proof. intros ->. by destruct x as [[]|[]| |[] ? ?]. Qed.

Lemma SFcompare_nan_l (x y : spec_float) :
    x = S754_nan → SFcompare x y = None.
Proof. by intros ->. Qed.

Lemma leb_nan_r (t x : float) : PrimFloat.is_nan x = true → (t <=? x) = false.
Proof.
    intros H. apply is_nan_spec in H.
    rewrite FloatAxioms.leb_spec. unfold SFleb. by rewrite SFcompare_nan_r.
Qed.

Lemma leb_nan_l (t x : float) : PrimFloat.is_nan x = true → (x <=? t) = false.
Proof.
    intros H. apply is_nan_spec in H.
    rewrite FloatAxioms.leb_spec. unfold SFleb. by rewrite SFcompare_nan_l.
Qed.

Lemma ltb_nan_r (t x : float) : (t <? x) = true → PrimFloat.is_nan x = false.
Proof.
    intros H. destruct (PrimFloat.is_nan x) eqn:Hnan; [|done].
    apply is_nan_spec in Hnan.
    rewrite FloatAxioms.ltb_spec in H. unfold SFltb in H.
    by rewrite SFcompare_nan_r in H.
Qed.

Lemma ltb_nan_l (t x : float) : (x <? t) = true → PrimFloat.is_nan x = false.
Proof.
    intros H. destruct (PrimFloat.is_nan x) eqn:Hnan; [|done].
    apply is_nan_spec in Hnan.
    rewrite FloatAxioms.ltb_spec in H. unfold SFltb in H.
    by rewrite SFcompare_nan_l in H.
Qed.

Lemma ltb_asym (a b : float) : (a <? b) = true → (b <? a) = false.
Proof.
    intros H. rewrite FloatAxioms.ltb_spec in H. rewrite FloatAxioms.ltb_spec.
    unfold SFltb in *.
    rewrite (SFcompare_antisym (Prim2SF a) (Prim2SF b)).
    by destruct (SFcompare (Prim2SF a) (Prim2SF b)) as [[]|].
Qed.

Lemma is_nan_nan : PrimFloat.is_nan nan = true.
Proof. reflexivity. Qed.
End FloatMissing.

(** ** Distribution views *)

Lemma cell_at_col_map {A} (idx : list pyval) (cols : list (string * list A))
    (f : string * list A → A → cell) (j i : nat) (name : string) (xs : list A)
    (x : A) :
  cols !! j = Some (name, xs) → xs !! i = Some x →
  cell_at {| index := idx; columns := map (λ nc, col_map (f nc) nc) cols |} j i
  = Some (f (name, xs) x).
Proof.
  intros Hcol Hx. unfold cell_at. cbn [columns].
  rewrite lookup_map, Hcol. cbn [fmap option_fmap option_map mbind option_bind col_map snd].
  by rewrite lookup_map, Hx.
Qed.

Section SplitViews.
Local Open Scope float_scope.

  (** [split_pos_neg_genes] keeps a weight in the positive view iff it is
      strictly positive and in the negative view iff it is strictly negative;
      a kept cell holds the weight itself, every other cell is missing.  No
      weight is kept on both sides, and a zero or missing weight is kept on
      neither. *)
Theorem split_pos_neg_genes_cells (self : latentModel) (j i : nat)
      (name : string) (xs : list float) (x : float) :
    w_columns (w_df self) !! j = Some (name, xs) →
    xs !! i = Some x →
    let self' := split_pos_neg_genes self false in
    ∃ pos neg p n,
      pos_w_df self' = Some pos ∧ neg_w_df self' = Some neg ∧
      cell_at pos j i = Some p ∧ cell_at neg j i = Some n ∧
      (is_na p = false ↔ (0 <? x) = true) ∧
      (is_na n = false ↔ (x <? 0) = true) ∧
      (is_na p = false → p = CNum x) ∧
      (is_na n = false → n = CNum x) ∧
      (is_na p = true ∨ is_na n = true).
Proof.
    intros Hcol Hx self'.
    eexists _, _, (CNum (if 0 <? x then x else nan)),
      (CNum (if x <? 0 then x else nan)).
    split; [reflexivity|]. split; [reflexivity|].
    split; [exact (cell_at_col_map _ _ (λ _ x, CNum (if 0 <? x then x else nan))
                     j i name xs x Hcol Hx)|].
    split; [exact (cell_at_col_map _ _ (λ _ x, CNum (if x <? 0 then x else nan))
                     j i name xs x Hcol Hx)|].
    cbn [is_na].
    destruct (0 <? x) eqn:Hpos, (x <? 0) eqn:Hneg.
    - by rewrite (ltb_asym _ _ Hpos) in Hneg.
    - rewrite (ltb_nan_r _ _ Hpos), is_nan_nan.
      repeat split; try done; auto.
    - rewrite (ltb_nan_l _ _ Hneg), is_nan_nan.
      repeat split; try done; auto.
    - rewrite is_nan_nan. repeat split; try done; auto.
Qed.
End SplitViews.

Lemma split_pos_neg_genes_cells_witness :
  ∃ pos neg,
    pos_w_df (split_pos_neg_genes (Examples.model_of Examples.unit_matrix) false)
      = Some pos ∧
    neg_w_df (split_pos_neg_genes (Examples.model_of Examples.unit_matrix) false)
      = Some neg ∧
    cell_at pos 0 0 = Some (CNum PrimFloat.nan) ∧
    cell_at neg 0 0 = Some (CNum (-1)%float) ∧
    cell_at pos 0 1 = Some (CNum PrimFloat.nan) ∧
    cell_at neg 0 1 = Some (CNum PrimFloat.nan).
Proof.
  destruct (split_pos_neg_genes_cells (Examples.model_of Examples.unit_matrix)
              0 0 "pca_0" [-1; 0; 1]%float (-1)%float eq_refl eq_refl)
    as (pos & neg & p & n & Hpos & Hneg & _).
  exists pos, neg. split; [exact Hpos|]. split; [exact Hneg|].
  injection Hpos as <-. injection Hneg as <-.
  repeat split; reflexivity.
Defined.

(** ** High-weight genes: missing values and the long format *)

Section NanArithmetic.
Local Open Scope float_scope.

Lemma add_nan (a b : float) :
    PrimFloat.is_nan a = true ∨ PrimFloat.is_nan b = true →
    PrimFloat.is_nan (a + b) = true.
Proof.
    rewrite !is_nan_spec, add_spec. unfold SF64add.
    intros [-> | ->]; [done|]. by destruct (Prim2SF a) as [[]|[]| |[] ? ?].
Qed.

Lemma sub_nan (a b : float) :
    PrimFloat.is_nan a = true ∨ PrimFloat.is_nan b = true →
    PrimFloat.is_nan (a - b) = true.
Proof.
    rewrite !is_nan_spec, sub_spec. unfold SF64sub.
    intros [-> | ->]; [done|]. by destruct (Prim2SF a) as [[]|[]| |[] ? ?].
Qed.

Lemma mul_nan_r (a b : float) :
    PrimFloat.is_nan b = true → PrimFloat.is_nan (a * b) = true.
Proof.
    rewrite !is_nan_spec, mul_spec. unfold SF64mul.
    intros ->. by destruct (Prim2SF a) as [[]|[]| |[] ? ?].
Qed.
End NanArithmetic.

Section HighWeightMissing.
Local Open Scope float_scope.
Variables col_mean col_std : list float → float.

  (** A missing weight is flagged neither high positive nor high negative,
      and in a column whose mean or standard deviation is undefined (as the
      sample standard deviation of a single gene is) no weight is flagged at
      all. *)
Theorem get_high_weight_genes_missing (self : latentModel) (std_dev : float)
      (j i : nat) (name : string) (xs : list float) (x : float) :
    w_columns (w_df self) !! j = Some (name, xs) →
    xs !! i = Some x →
    PrimFloat.is_nan x = true ∨ PrimFloat.is_nan (col_mean xs) = true
      ∨ PrimFloat.is_nan (col_std xs) = true →
    let self' := get_high_weight_genes col_mean col_std self std_dev false in
    ∃ pos neg,
      pos_high_w_df self' = Some pos ∧ neg_high_w_df self' = Some neg ∧
      cell_at pos j i = Some (CFlag false) ∧
      cell_at neg j i = Some (CFlag false).
Proof.
    intros Hcol Hx Hnan self'.
    destruct (high_weight_frames col_mean col_std self std_dev) as [Hpos Hneg].
    fold self' in Hpos, Hneg.
    eexists _, _. split; [exact Hpos|]. split; [exact Hneg|].
    rewrite (cell_at_col_map _ _
               (λ nc x, CFlag (col_mean nc.2 + std_dev * col_std nc.2 <=? x))
               j i name xs x Hcol Hx).
    rewrite (cell_at_col_map _ _
               (λ nc x, CFlag (x <=? col_mean nc.2 - std_dev * col_std nc.2))
               j i name xs x Hcol Hx).
    cbn [snd]. destruct Hnan as [Hnan | [Hnan | Hnan]].
    - by rewrite leb_nan_r, leb_nan_l.
    - rewrite leb_nan_l by (apply add_nan; by left).
      by rewrite leb_nan_r by (apply sub_nan; by left).
    - rewrite leb_nan_l by (apply add_nan; right; by apply mul_nan_r).
      by rewrite leb_nan_r by (apply sub_nan; right; by apply mul_nan_r).
Qed.
End HighWeightMissing.

Lemma get_high_weight_genes_missing_witness :
  ∃ pos neg,
    pos_high_w_df (get_high_weight_genes Reference.col_mean Reference.col_std
                     (Examples.model_of Examples.single_gene_matrix) 2.5 false)
      = Some pos ∧
    neg_high_w_df (get_high_weight_genes Reference.col_mean Reference.col_std
                     (Examples.model_of Examples.single_gene_matrix) 2.5 false)
      = Some neg ∧
    cell_at pos 0 0 = Some (CFlag false) ∧
    cell_at neg 0 0 = Some (CFlag false).
Proof.
  exact (get_high_weight_genes_missing Reference.col_mean Reference.col_std
           (Examples.model_of Examples.single_gene_matrix) 2.5 0 0 "pca_0"
           [5%float] 5%float eq_refl eq_refl (or_intror (or_intror eq_refl))).
Defined.

(** ** The long format *)

Lemma omap_length_total {A B} (h : A → option B) (l : list A) :
  (∀ a, a ∈ l → is_Some (h a)) → length (omap h l) = length l.
Proof.
  induction l as [|a l IH]; intros Hall; [done|].
  cbn [omap list_omap]. destruct (Hall a (list_elem_of_here _ _)) as [b ->].
  cbn [length]. f_equal. apply IH. intros a' Ha'. apply Hall.
  by apply list_elem_of_further.
Qed.

Lemma concat_imap_length {A B} (f : nat → A → list B) (l : list A) (m : nat) :
  (∀ i a, l !! i = Some a → length (f i a) = m) →
  length (concat (imap f l)) = (length l * m)%nat.
Proof.
  revert f. induction l as [|a l IH]; intros f Hall; [done|].
  rewrite imap_cons. cbn [concat length]. rewrite length_app.
  rewrite (Hall 0%nat a eq_refl), IH; [lia|].
  intros i a' Hi. apply (Hall (S i) a' Hi).
Qed.

Lemma elem_of_concat_imap {A B} (f : nat → A → list B) (l : list A) (b : B) :
  b ∈ concat (imap f l) → ∃ i a, l !! i = Some a ∧ b ∈ f i a.
Proof.
  revert f. induction l as [|a l IH]; intros f Hb.
  - by apply elem_of_nil in Hb.
  - rewrite imap_cons in Hb. cbn [concat] in Hb.
    apply elem_of_app in Hb as [Hb|Hb].
    + by exists 0%nat, a.
    + apply IH in Hb as (i & a' & Hi & Hb). by exists (S i), a'.
Qed.

Lemma filter_all {A} (P : A → Prop) `{∀ x, Decision (P x)} (l : list A) :
  (∀ x, x ∈ l → P x) → filter P l = l.
Proof.
  induction l as [|a l IH]; intros Hall; [done|].
  rewrite filter_cons, decide_True by (apply Hall, list_elem_of_here).
  f_equal. apply IH. intros x Hx. apply Hall. by apply list_elem_of_further.
Qed.

(** The cells that [stack] lists before it drops the missing ones. *)
Lemma stack_cells (df : DataFrame) (r : pyval * string * cell) :
  r ∈ concat (imap (λ i k,
        omap (λ nc : string * list cell, (λ c, (k, nc.1, c)) <$> nc.2 !! i)
             (columns df)) (index df)) →
  ∃ i nc, index df !! i = Some r.1.1 ∧ nc ∈ columns df ∧ r.1.2 = nc.1 ∧
          nc.2 !! i = Some r.2.
Proof.
  intros Hr. apply elem_of_concat_imap in Hr as (i & k & Hi & Hr).
  apply list_elem_of_omap in Hr as (nc & Hnc & Hcell).
  destruct (nc.2 !! i) as [c|] eqn:Hc; [|done].
  injection Hcell as <-. by exists i, nc.
Qed.

(** On a rectangular frame without missing cells, [stack] lists one row per
    row key and column. *)
Lemma stack_length_full (df : DataFrame) :
  (∀ nc, nc ∈ columns df → length nc.2 = length (index df)) →
  (∀ nc c, nc ∈ columns df → c ∈ nc.2 → is_na c = false) →
  length (stack df) = (length (index df) * length (columns df))%nat.
Proof.
  intros Hrect Hfull. unfold stack. rewrite filter_all.
  - apply concat_imap_length. intros i k Hi.
    apply omap_length_total. intros nc Hnc.
    destruct (lookup_lt_is_Some_2 nc.2 i) as [c Hc].
    { rewrite (Hrect nc Hnc). by apply lookup_lt_Some in Hi. }
    rewrite Hc. by eexists.
  - intros r Hr. apply stack_cells in Hr as (i & nc & _ & Hnc & _ & Hc).
    apply (Hfull nc r.2 Hnc). apply list_elem_of_lookup. by exists i.
Qed.

Lemma stack_keys (df : DataFrame) (r : pyval * string * cell) :
  r ∈ stack df → r.1.1 ∈ index df.
Proof.
  unfold stack. intros Hr. apply list_elem_of_filter in Hr as [_ Hr].
  apply stack_cells in Hr as (i & nc & Hi & _).
  apply list_elem_of_lookup. by exists i.
Qed.

Lemma long_frame_columns (df : DataFrame) :
  (columns (long_frame df)).*1 = ["entrez_gene"; "feature"; "feature_weight"].
Proof. reflexivity. Qed.

Lemma long_frame_length (df : DataFrame) :
  VNaN ∉ index df →
  length (index (long_frame df)) = length (stack df).
Proof.
  intros Hkeys. unfold long_frame. cbn [index].
  rewrite length_map, filter_all, length_imap; [done|].
  intros [z r] Hr. cbn [snd fst].
  apply elem_of_lookup_imap in Hr as (i & r' & Heq & Hi).
  injection Heq as _ ->. intros Hnan. apply Hkeys. rewrite <- Hnan.
  apply stack_keys. apply list_elem_of_lookup. by exists i.
Qed.

Section LongFormat.
Local Open Scope float_scope.
Variables col_mean col_std : list float → float.

Lemma high_weight_frames_long (self : latentModel) (std_dev : float) :
    let self' := get_high_weight_genes col_mean col_std self std_dev true in
    pos_high_w_df self' =
      Some (long_frame
              {| index := w_index (w_df self);
                 columns := map (λ nc, col_map (λ x,
                              CFlag (col_mean nc.2 + std_dev * col_std nc.2 <=? x)) nc)
                              (w_columns (w_df self)) |}) ∧
    neg_high_w_df self' =
      Some (long_frame
              {| index := w_index (w_df self);
                 columns := map (λ nc, col_map (λ x,
                              CFlag (x <=? col_mean nc.2 - std_dev * col_std nc.2)) nc)
                              (w_columns (w_df self)) |}).
Proof.
    unfold get_high_weight_genes, frame_ge, frame_le, frame_mean, frame_std,
      _split_genes.
    simpl. rewrite !map_map, !zip_with_map_map.
    rewrite (zip_with_map_self
               (λ nc t, col_map (λ x, CFlag (t <=? x)) nc)
               (λ nc, col_mean nc.2 + std_dev * col_std nc.2)).
    rewrite (zip_with_map_self
               (λ nc t, col_map (λ x, CFlag (x <=? t)) nc)
               (λ nc, col_mean nc.2 - std_dev * col_std nc.2)).
    done.
Qed.

Lemma flag_frame_long_length (idx : list pyval) (cols : list (string * list float))
      (flag : string * list float → float → bool) :
    (∀ nc, nc ∈ cols → length nc.2 = length idx) →
    VNaN ∉ idx →
    length (index (long_frame
                     {| index := idx;
                        columns := map (λ nc, col_map (λ x, CFlag (flag nc x)) nc)
                                     cols |}))
    = (length idx * length cols)%nat.
Proof.
    intros Hrect Hkeys.
    rewrite long_frame_length by done.
    rewrite stack_length_full; cbn [index columns].
    - by rewrite length_map.
    - intros nc Hnc. apply list_elem_of_In, in_map_iff in Hnc as (nc0 & <- & Hnc0).
      cbn [col_map snd]. rewrite length_map. by apply Hrect, list_elem_of_In.
    - intros nc c Hnc Hc.
      apply list_elem_of_In, in_map_iff in Hnc as (nc0 & <- & _).
      cbn [col_map snd] in Hc.
      by apply list_elem_of_In, in_map_iff in Hc as (x & <- & _).
Qed.

  (** With [long_format] on, [get_high_weight_genes] does not restrict the
      listing to the high-weight genes: a flag that is false is not a missing
      value, so for a rectangular weight matrix without missing row keys each
      of the two long frames has the three columns [entrez_gene], [feature],
      [feature_weight] and one row for every gene and every feature. *)
Theorem get_high_weight_genes_long_lists_every_cell (self : latentModel)
      (std_dev : float) :
    (∀ nc, nc ∈ w_columns (w_df self) →
           length nc.2 = length (w_index (w_df self))) →
    VNaN ∉ w_index (w_df self) →
    let self' := get_high_weight_genes col_mean col_std self std_dev true in
    let rows := (length (w_index (w_df self)) * length (w_columns (w_df self)))%nat in
    ∃ pos neg,
      pos_high_w_df self' = Some pos ∧ neg_high_w_df self' = Some neg ∧
      (columns pos).*1 = ["entrez_gene"; "feature"; "feature_weight"] ∧
      (columns neg).*1 = ["entrez_gene"; "feature"; "feature_weight"] ∧
      length (index pos) = rows ∧ length (index neg) = rows.
Proof.
    intros Hrect Hkeys self' rows.
    destruct (high_weight_frames_long self std_dev) as [Hpos Hneg].
    fold self' in Hpos, Hneg.
    eexists _, _. split; [exact Hpos|]. split; [exact Hneg|].
    split; [apply long_frame_columns|]. split; [apply long_frame_columns|].
    split.
    - apply (flag_frame_long_length _ _
               (λ nc x, col_mean nc.2 + std_dev * col_std nc.2 <=? x) Hrect Hkeys).
    - apply (flag_frame_long_length _ _
               (λ nc x, x <=? col_mean nc.2 - std_dev * col_std nc.2) Hrect Hkeys).
Qed.
End LongFormat.

Lemma get_high_weight_genes_long_lists_every_cell_witness :
  ∃ pos neg,
    pos_high_w_df (get_high_weight_genes Reference.col_mean Reference.col_std
                     (Examples.model_of Examples.square_matrix) 2.5 true)
      = Some pos ∧
    neg_high_w_df (get_high_weight_genes Reference.col_mean Reference.col_std
                     (Examples.model_of Examples.square_matrix) 2.5 true)
      = Some neg ∧
    (columns pos).*1 = ["entrez_gene"; "feature"; "feature_weight"] ∧
    (columns neg).*1 = ["entrez_gene"; "feature"; "feature_weight"] ∧
    length (index pos) = 4%nat ∧ length (index neg) = 4%nat.
Proof.
  apply (get_high_weight_genes_long_lists_every_cell Reference.col_mean
           Reference.col_std (Examples.model_of Examples.square_matrix) 2.5).
  - intros nc Hnc.
    apply elem_of_cons in Hnc as [->|Hnc]; [reflexivity|].
    apply elem_of_cons in Hnc as [->|Hnc]; [reflexivity|].
    by apply elem_of_nil in Hnc.
  - intros Hin.
    apply elem_of_cons in Hin as [Heq|Hin]; [discriminate Heq|].
    apply elem_of_cons in Hin as [Heq|Hin]; [discriminate Heq|].
    by apply elem_of_nil in Hin.
Defined.

Lemma long_frame_weight (df : DataFrame) (k : nat) (c : cell) :
  cell_at (long_frame df) 2 k = Some c →
  is_na c = false ∧ ∃ i nc, nc ∈ columns df ∧ nc.2 !! i = Some c.
Proof.
  unfold cell_at, long_frame. cbn [columns lookup list_lookup mbind option_bind snd].
  rewrite lookup_map. intros Hc.
  destruct (filter _ _ !! k) as [[z r]|] eqn:Hk; [|done].
  injection Hc as <-. cbn [snd].
  apply list_elem_of_lookup_2, list_elem_of_filter in Hk as [_ Hr].
  apply elem_of_lookup_imap in Hr as (i & r' & Heq & Hi).
  injection Heq as _ ->.
  apply list_elem_of_lookup_2 in Hi. unfold stack in Hi.
  apply list_elem_of_filter in Hi as [Hna Hr]. split; [exact Hna|].
  apply stack_cells in Hr as (i' & nc & _ & Hnc & _ & Hcell). by exists i', nc.
Qed.

Section SplitLong.
Local Open Scope float_scope.

  (** With [long_format] on, [split_pos_neg_genes] lists in [pos_w_df] only
      strictly positive weights and in [neg_w_df] only strictly negative
      ones: every entry of the [feature_weight] column is such a weight. *)
Theorem split_pos_neg_genes_long_signs (self : latentModel) :
    let self' := split_pos_neg_genes self true in
    ∃ pos neg,
      pos_w_df self' = Some pos ∧ neg_w_df self' = Some neg ∧
      (columns pos).*1 = ["entrez_gene"; "feature"; "feature_weight"] ∧
      (columns neg).*1 = ["entrez_gene"; "feature"; "feature_weight"] ∧
      (∀ k c, cell_at pos 2 k = Some c → ∃ x, c = CNum x ∧ (0 <? x) = true) ∧
      (∀ k c, cell_at neg 2 k = Some c → ∃ x, c = CNum x ∧ (x <? 0) = true).
Proof.
    intros self'. eexists _, _.
    split; [reflexivity|]. split; [reflexivity|].
    split; [reflexivity|]. split; [reflexivity|]. split.
    - intros k c Hc. apply long_frame_weight in Hc as (Hna & i & nc & Hnc & Hcell).
      cbn [columns] in Hnc.
      apply list_elem_of_In, in_map_iff in Hnc as (nc0 & <- & _).
      cbn [col_map snd] in Hcell. rewrite lookup_map in Hcell.
      destruct (nc0.2 !! i) as [x|]; [|done]. injection Hcell as <-.
      cbn [is_na] in Hna. destruct (0 <? x) eqn:Hpos; [by exists x|].
      by rewrite is_nan_nan in Hna.
    - intros k c Hc. apply long_frame_weight in Hc as (Hna & i & nc & Hnc & Hcell).
      cbn [columns] in Hnc.
      apply list_elem_of_In, in_map_iff in Hnc as (nc0 & <- & _).
      cbn [col_map snd] in Hcell. rewrite lookup_map in Hcell.
      destruct (nc0.2 !! i) as [x|]; [|done]. injection Hcell as <-.
      cbn [is_na] in Hna. destruct (x <? 0) eqn:Hneg; [by exists x|].
      by rewrite is_nan_nan in Hna.
Qed.
End SplitLong.

Lemma split_pos_neg_genes_long_signs_witness :
  ∃ pos neg,
    pos_w_df (split_pos_neg_genes (Examples.model_of Examples.square_matrix) true)
      = Some pos ∧
    neg_w_df (split_pos_neg_genes (Examples.model_of Examples.square_matrix) true)
      = Some neg ∧
    cell_at pos 2 0 = Some (CNum 1%float) ∧
    cell_at pos 2 2 = Some (CNum 2%float) ∧
    cell_at pos 2 3 = None ∧
    cell_at neg 2 0 = Some (CNum (-1)%float) ∧
    cell_at neg 2 1 = None.
Proof.
  destruct (split_pos_neg_genes_long_signs
              (Examples.model_of Examples.square_matrix))
    as (pos & neg & Hpos & Hneg & _).
  exists pos, neg. split; [exact Hpos|]. split; [exact Hneg|].
  injection Hpos as <-. injection Hneg as <-.
  repeat split; reflexivity.
Defined.

(** ** The GSEA aggregator *)

Lemma for_each_app {A S} (body : S → A → result S) (xs ys : list A) (s : S) :
  for_each body (xs ++ ys) s = (s' ← for_each body xs s; for_each body ys s').
Proof.
  revert s. induction xs as [|x xs IH]; intros s; [done|].
  cbn [for_each app]. destruct (body s x) as [s'|e]; [apply IH | done].
Qed.

(** A property that every iteration preserves holds when the loop ends. *)
Lemma for_each_invariant {A S} (body : S → A → result S) (I : S → Prop)
    (xs : list A) (s s' : S) :
  (∀ s x s', I s → body s x = Ok s' → I s') →
  I s → for_each body xs s = Ok s' → I s'.
Proof.
  intros Hstep. revert s. induction xs as [|x xs IH]; intros s Hs Hloop.
  - by injection Hloop as <-.
  - cbn [for_each] in Hloop. destruct (body s x) as [s1|e] eqn:Hbody; [|done].
    apply (IH s1); [by apply (Hstep s x)|done].
Qed.

(** An exception in one iteration is the outcome of the loop. *)
Lemma for_each_raise {A S} (body : S → A → result S) (xs ys : list A) (x : A)
    (s s1 : S) (e : exn) :
  for_each body xs s = Ok s1 → body s1 x = Raise e →
  for_each body (xs ++ x :: ys) s = Raise e.
Proof.
  intros Hxs Hx. rewrite for_each_app, Hxs. cbn [mbind result_bind for_each].
  by rewrite Hx.
Qed.

Section AggregatorSteps.
Variable run_gsea_prerank : Series → Z → string → result DataFrame.

  (** What one invocation adds: one call and its annotated frame; the
      remembered views stay as they are. *)
Lemma invoke_step (alg : string) (current_z full_z : Z) (distrib : string)
      (num_perm : Z) (shuffled : bool) (direction : string) (seed : pyval)
      (gene_sets : string) (st st' : gsea_locals) :
    invoke run_gsea_prerank alg current_z full_z distrib num_perm shuffled
      direction seed gene_sets st = Ok st' →
    ∃ u f,
      use_df st = Some u ∧
      let c := {| call_use_df := u; call_algorithm := alg;
                  call_current_z := current_z; call_full_z := full_z;
                  call_distribution := distrib; call_num_perm := num_perm;
                  call_shuffled := shuffled; call_direction := direction;
                  call_seed := seed; call_gene_sets := gene_sets |} in
      _get_gsea_results run_gsea_prerank c = Ok f ∧
      calls st' = calls st ++ [c] ∧
      current_z_list st' = current_z_list st ++ [f] ∧
      use_df st' = use_df st ∧ use_pos_df st' = use_pos_df st ∧
      use_neg_df st' = use_neg_df st.
Proof.
    unfold invoke. intros H.
    destruct (use_df st) as [u|]; [|done]. cbn [from_local mbind result_bind] in H.
    destruct (_get_gsea_results _ _) as [f|e] eqn:Hf; [|done].
    cbn [mbind result_bind] in H. injection H as <-.
    exists u, f. by repeat split.
Qed.

End AggregatorSteps.


Section AggregatorSplit.
Variable run_gsea_prerank : Series → Z → string → result DataFrame.

  (** For a split ([pos_neg]) or high-weight ([pos_neg_high_weight])
      distribution the scores passed to the enrichment routine are never the
      positive or the negative view just extracted: every invocation, for
      either direction, passes the view remembered from the last [full] or
      [full_squared] distribution, and that remembered view is left as it
      was. *)
Theorem gsea_body_split_passes_single_view (self : latentModel)
      (shuffled : bool) (seed : pyval) (z_dim_ num_perm : Z) (gene_sets alg : string)
      (subset_algs : list bool) (current_z : Z) (st st' : gsea_locals)
      (distrib : string) :
    distrib = "pos_neg" ∨ distrib = "pos_neg_high_weight" →
    gsea_body run_gsea_prerank self shuffled seed z_dim_ num_perm gene_sets alg
      subset_algs current_z st distrib = Ok st' →
    use_df st' = use_df st ∧
    ∃ news,
      calls st' = calls st ++ news ∧
      Forall (λ c, use_df st = Some (call_use_df c) ∧
                   call_distribution c = distrib ∧
                   (call_direction c = "positive" ∨ call_direction c = "negative"))
        news.
Proof.
    intros Hd Hbody. unfold gsea_body in Hbody.
    assert (∃ pw nw p n,
              _get_compressed_feature pw subset_algs current_z = Ok p ∧
              _get_compressed_feature nw subset_algs current_z = Ok n ∧
              (let st0 := {| use_df := use_df st; use_pos_df := Some p;
                             use_neg_df := Some n;
                             current_z_list := current_z_list st;
                             calls := calls st |} in
               (st1 ← (if decide (series_len (dropna p) ≠ 0%nat)
                       then invoke run_gsea_prerank alg current_z z_dim_ distrib
                              num_perm shuffled "positive" seed gene_sets st0
                       else Ok st0);
                n' ← from_local "use_neg_df" (use_neg_df st1);
                if decide (series_len (dropna n') ≠ 0%nat)
                then invoke run_gsea_prerank alg current_z z_dim_ distrib
                       num_perm shuffled "negative" seed gene_sets st1
                else Ok st1) = Ok st'))
      as (pw & nw & p & n & Hp & Hn & Hrest).
    { destruct Hd as [-> | ->].
      - rewrite decide_False in Hbody by done.
        rewrite decide_False in Hbody by done.
        rewrite decide_True in Hbody by done.
        destruct (pos_w_df self) as [pw|]; [|done].
        cbn [from_attr mbind result_bind] in Hbody.
        destruct (_get_compressed_feature pw subset_algs current_z) as [p|] eqn:Hp;
          [|done].
        cbn [mbind result_bind] in Hbody.
        destruct (neg_w_df self) as [nw|]; [|done].
        cbn [from_attr mbind result_bind] in Hbody.
        destruct (_get_compressed_feature nw subset_algs current_z) as [n|] eqn:Hn;
          [|done].
        cbn [mbind result_bind] in Hbody.
        rewrite decide_False in Hbody by done.
        cbn [from_local use_pos_df mbind result_bind] in Hbody.
        by exists pw, nw, p, n.
      - rewrite decide_False in Hbody by done.
        rewrite decide_False in Hbody by done.
        rewrite decide_False in Hbody by done.
        rewrite decide_True in Hbody by done.
        destruct (pos_high_w_df self) as [pw|]; [|done].
        cbn [from_attr mbind result_bind] in Hbody.
        destruct (_get_compressed_feature pw subset_algs current_z) as [p|] eqn:Hp;
          [|done].
        cbn [mbind result_bind] in Hbody.
        destruct (neg_high_w_df self) as [nw|]; [|done].
        cbn [from_attr mbind result_bind] in Hbody.
        destruct (_get_compressed_feature nw subset_algs current_z) as [n|] eqn:Hn;
          [|done].
        cbn [mbind result_bind] in Hbody.
        rewrite decide_False in Hbody by done.
        cbn [from_local use_pos_df mbind result_bind] in Hbody.
        by exists pw, nw, p, n. }
    clear Hbody. cbn zeta in Hrest.
    set (st0 := {| use_df := use_df st; use_pos_df := Some p; use_neg_df := Some n;
                   current_z_list := current_z_list st; calls := calls st |}) in *.
    assert (∃ st1 news1,
              use_df st1 = use_df st ∧ use_neg_df st1 = Some n ∧
              calls st1 = calls st ++ news1 ∧
              Forall (λ c, use_df st = Some (call_use_df c) ∧
                           call_distribution c = distrib ∧
                           (call_direction c = "positive" ∨
                            call_direction c = "negative")) news1 ∧
              (n' ← from_local "use_neg_df" (use_neg_df st1);
               if decide (series_len (dropna n') ≠ 0%nat)
               then invoke run_gsea_prerank alg current_z z_dim_ distrib
                      num_perm shuffled "negative" seed gene_sets st1
               else Ok st1) = Ok st')
      as (st1 & news1 & Hu1 & Hn1 & Hc1 & Hall1 & Hrest1).
    { destruct (decide (series_len (dropna p) ≠ 0%nat)).
      - destruct (invoke run_gsea_prerank alg current_z z_dim_ distrib num_perm
                    shuffled "positive" seed gene_sets st0) as [st1|] eqn:Hinv;
          [|done].
        cbn [mbind result_bind] in Hrest.
        apply invoke_step in Hinv as (u & f & Hu & _ & Hcalls & _ & Hu' & _ & Hn').
        eexists st1, [_]. split; [by rewrite Hu'|]. split; [by rewrite Hn'|].
        split; [exact Hcalls|]. split; [|exact Hrest].
        apply Forall_singleton. cbn. split; [exact Hu|]. split; [done|by left].
      - cbn [mbind result_bind] in Hrest.
        exists st0, []. split; [done|]. split; [done|].
        split; [by rewrite app_nil_r|]. split; [by apply Forall_nil|exact Hrest]. }
    rewrite Hn1 in Hrest1. cbn [from_local mbind result_bind] in Hrest1.
    destruct (decide (series_len (dropna n) ≠ 0%nat)).
    - apply invoke_step in Hrest1 as (u & f & Hu & _ & Hcalls & _ & Hu' & _).
      split; [by rewrite Hu', Hu1|].
      eexists (news1 ++ [_]). split; [by rewrite Hcalls, Hc1, app_assoc|].
      apply Forall_app. split; [exact Hall1|].
      apply Forall_singleton. cbn. rewrite <- Hu1. split; [exact Hu|].
      split; [done|by right].
    - injection Hrest1 as <-. split; [exact Hu1|].
      exists news1. by split.
Qed.
End AggregatorSplit.

Lemma gsea_body_split_passes_single_view_witness :
  ∃ st1 st2,
    gsea_body Reference.run_gsea_prerank Examples.prepared_model false (VStr "42")
      1 15 "KEGG_2016" "pca" [true; true] 0 Examples.no_locals "full" = Ok st1 ∧
    gsea_body Reference.run_gsea_prerank Examples.prepared_model false (VStr "42")
      1 15 "KEGG_2016" "pca" [true; true] 0 st1 "pos_neg" = Ok st2 ∧
    use_df st2 = use_df st1 ∧
    map call_direction (calls st2) = ["both"; "positive"; "negative"] ∧
    map (λ c, s_values (call_use_df c)) (calls st2)
    = [ [CNum 1; CNum (-1)]; [CNum 1; CNum (-1)]; [CNum 1; CNum (-1)] ]%float.
Proof.
  eexists _, _. split; [reflexivity|]. split; [reflexivity|].
  split; [|split; reflexivity].
  refine (proj1 (gsea_body_split_passes_single_view Reference.run_gsea_prerank
                   Examples.prepared_model false (VStr "42") 1 15 "KEGG_2016" "pca"
                   [true; true] 0 _ _ "pos_neg" (or_introl eq_refl) _)).
  reflexivity.
Defined.

Section AggregatorErrors.
Variable run_gsea_prerank : Series → Z → string → result DataFrame.

End AggregatorErrors.




Section AggregatorEdges.
Variable run_gsea_prerank : Series → Z → string → result DataFrame.

End AggregatorEdges.


Lemma for_each_appends {A S B} (body : S → A → result S) (proj : S → list B)
    (g : A → list B) (xs : list A) (s s' : S) :
  (∀ s x s', x ∈ xs → body s x = Ok s' → proj s' = proj s ++ g x) →
  for_each body xs s = Ok s' →
  proj s' = proj s ++ concat (map g xs).
Proof.
  revert s. induction xs as [|x xs IH]; intros s Hstep Hloop.
  - injection Hloop as <-. cbn. by rewrite app_nil_r.
  - cbn [for_each] in Hloop. destruct (body s x) as [s1|e] eqn:Hbody; [|done].
    cbn [mbind result_bind] in Hloop.
    rewrite (IH s1); [|intros; eapply Hstep; [by apply list_elem_of_further|done]|done].
    rewrite (Hstep s x s1 (list_elem_of_here _ _) Hbody). cbn [map concat].
    by rewrite app_assoc.
Qed.

Lemma for_each_invariant_in {A S} (body : S → A → result S) (I : S → Prop)
    (xs : list A) (s s' : S) :
  (∀ s x s', x ∈ xs → I s → body s x = Ok s' → I s') →
  I s → for_each body xs s = Ok s' → I s'.
Proof.
  revert s. induction xs as [|x xs IH]; intros s Hstep Hs Hloop.
  - by injection Hloop as <-.
  - cbn [for_each] in Hloop. destruct (body s x) as [s1|e] eqn:Hbody; [|done].
    apply (IH s1); [|by apply (Hstep s x s1 (list_elem_of_here _ _))|done].
    intros s2 y s3 Hy. apply Hstep. by apply list_elem_of_further.
Qed.

Lemma list_bind_concat_map {A B} (f : A → list B) (l : list A) :
  l ≫= f = concat (map f l).
Proof. induction l as [|a l IH]; [done|]. cbn. by rewrite IH. Qed.

Section AggregatorSingle.
Variable run_gsea_prerank : Series → Z → string → result DataFrame.

Lemma gsea_body_single (self : latentModel) (shuffled : bool) (seed : pyval)
      (z_dim_ num_perm : Z) (gene_sets alg : string) (subset_algs : list bool)
      (current_z : Z) (st st' : gsea_locals) (distrib : string) :
    distrib = "full" ∨ distrib = "full_squared" →
    gsea_body run_gsea_prerank self shuffled seed z_dim_ num_perm gene_sets alg
      subset_algs current_z st distrib = Ok st' →
    ∃ view u f,
      single_view self distrib = Some view ∧
      _get_compressed_feature view subset_algs current_z = Ok u ∧
      let c := {| call_use_df := u; call_algorithm := alg;
                  call_current_z := current_z; call_full_z := z_dim_;
                  call_distribution := distrib; call_num_perm := num_perm;
                  call_shuffled := shuffled; call_direction := "both";
                  call_seed := seed; call_gene_sets := gene_sets |} in
      _get_gsea_results run_gsea_prerank c = Ok f ∧
      calls st' = calls st ++ [c] ∧
      current_z_list st' = current_z_list st ++ [f] ∧
      use_df st' = Some u.
Proof.
    intros Hd Hbody. unfold gsea_body in Hbody. unfold single_view.
    destruct Hd as [-> | ->].
    - rewrite decide_True in Hbody by done. rewrite decide_True by done.
      destruct (_get_compressed_feature (to_frame (w_df self)) subset_algs current_z)
        as [u|] eqn:Hu; [|done].
      cbn [mbind result_bind] in Hbody. rewrite decide_True in Hbody by done.
      apply invoke_step in Hbody as (u' & f & Hu' & Hf & Hcalls & Hframes & Huse & _).
      cbn [use_df] in Hu'. injection Hu' as <-.
      exists (to_frame (w_df self)), u, f. repeat split; done.
    - rewrite decide_False in Hbody by done. rewrite decide_True in Hbody by done.
      rewrite decide_False by done. rewrite decide_True by done.
      destruct (sqr_w_df self) as [sq|]; [|done].
      cbn [from_attr mbind result_bind] in Hbody.
      destruct (_get_compressed_feature sq subset_algs current_z) as [u|] eqn:Hu;
        [|done].
      cbn [mbind result_bind] in Hbody. rewrite decide_True in Hbody by done.
      apply invoke_step in Hbody as (u' & f & Hu' & Hf & Hcalls & Hframes & Huse & _).
      cbn [use_df] in Hu'. injection Hu' as <-.
      exists sq, u, f. repeat split; done.
Qed.

Lemma gsea_loops_single_calls (self : latentModel)
      (algorithms distrib_methods : list string) (shuffled : bool) (seed : pyval)
      (z z_dim_ num_perm : Z) (gene_sets : string) (st : gsea_locals) :
    z_dim self = Some z →
    Forall (λ d, d = "full" ∨ d = "full_squared") distrib_methods →
    gsea_loops run_gsea_prerank self algorithms distrib_methods shuffled seed
      z_dim_ num_perm gene_sets = Ok st →
    map call_key (calls st) = single_combinations algorithms z distrib_methods ∧
    Forall (λ c, ∃ view,
              single_view self (call_distribution c) = Some view ∧
              _get_compressed_feature view
                (map (λ nc, str_contains (call_algorithm c) nc.1)
                   (w_columns (w_df self)))
                (call_current_z c) = Ok (call_use_df c)) (calls st) ∧
    length (current_z_list st) = length (calls st).
Proof.
    intros Hz Hds Hloops. unfold gsea_loops in Hloops.
    rewrite Forall_forall in Hds.
    split; [|split].
    - unfold single_combinations. rewrite list_bind_concat_map.
      apply (for_each_appends _ (λ s, map call_key (calls s))
               (λ alg, py_range z ≫= λ current_z, distrib_methods ≫= λ distrib,
                  [(alg, current_z, distrib, "both")])) in Hloops;
        [exact Hloops|].
      intros s alg s' _ Hs. rewrite Hz in Hs. cbn [mbind result_bind] in Hs.
      rewrite list_bind_concat_map.
      apply (for_each_appends _ (λ s, map call_key (calls s))
               (λ current_z, distrib_methods ≫= λ distrib,
                  [(alg, current_z, distrib, "both")])) in Hs;
        [exact Hs|].
      clear s s' Hs. intros s current_z s' _ Hs.
      rewrite list_bind_concat_map.
      apply (for_each_appends _ (λ s, map call_key (calls s))
               (λ distrib, [(alg, current_z, distrib, "both")])) in Hs;
        [exact Hs|].
      clear s s' Hs. intros s d s' Hd Hbody.
      apply gsea_body_single in Hbody as (view & u & f & _ & _ & _ & Hcalls & _);
        [|by apply Hds].
      by rewrite Hcalls, map_app.
    - refine (for_each_invariant _ (λ s, Forall _ (calls s)) _ _ _ _ _ Hloops);
        [|by apply Forall_nil].
      intros s alg s' Hs Hbody. rewrite Hz in Hbody.
      cbn [mbind result_bind] in Hbody.
      refine (for_each_invariant _ (λ s, Forall _ (calls s)) _ _ _ _ Hs Hbody).
      clear s s' Hs Hbody. intros s current_z s' Hs Hbody.
      refine (for_each_invariant_in _ (λ s, Forall _ (calls s)) _ _ _ _ Hs Hbody).
      clear s s' Hs Hbody. intros s d s' Hd Hs Hbody.
      apply gsea_body_single in Hbody as (view & u & f & Hview & Hu & _ & Hcalls & _);
        [|by apply Hds].
      rewrite Hcalls. apply Forall_app. split; [done|].
      apply Forall_singleton. by exists view.
    - refine (for_each_invariant _
                (λ s, length (current_z_list s) = length (calls s)) _ _ _ _ _ Hloops);
        [|done].
      intros s alg s' Hs Hbody. rewrite Hz in Hbody.
      cbn [mbind result_bind] in Hbody.
      refine (for_each_invariant _
                (λ s, length (current_z_list s) = length (calls s)) _ _ _ _ Hs Hbody).
      clear s s' Hs Hbody. intros s current_z s' Hs Hbody.
      refine (for_each_invariant_in _
                (λ s, length (current_z_list s) = length (calls s)) _ _ _ _ Hs Hbody).
      clear s s' Hs Hbody. intros s d s' Hd Hs Hbody.
      apply gsea_body_single in Hbody as (view & u & f & _ & _ & _ & Hcalls & Hframes & _);
        [|by apply Hds].
      rewrite Hcalls, Hframes, !length_app. cbn [length]. lia.
Qed.
Lemma mask_select_map_map {A B} (g : A → bool) (f : A → B) (l : list A) :
    mask_select (map g l) (map f l) = map f (filter (λ x, g x = true) l).
Proof.
    unfold mask_select. induction l as [|x l IH]; [done|].
    cbn [map zip zip_with]. rewrite !filter_cons. cbn [fst].
    destruct (decide (g x = true)); cbn [fmap list_fmap snd map]; by rewrite <- IH.
Qed.

Lemma single_combinations_feature (algorithms distrib_methods : list string)
      (z : Z) (key : string * Z * string * string) :
    key ∈ single_combinations algorithms z distrib_methods →
    key.1.1.1 ∈ algorithms ∧ (0 ≤ key.1.1.2)%Z ∧ key.1.2 ∈ distrib_methods.
Proof.
    unfold single_combinations.
    intros (alg & Hkey & Halg)%list_elem_of_bind.
    apply list_elem_of_bind in Hkey as (current_z & Hkey & Hz).
    apply list_elem_of_bind in Hkey as (distrib & Hkey & Hd).
    apply list_elem_of_singleton in Hkey as ->. cbn [fst snd].
    split; [done|]. split; [|done].
    unfold py_range in Hz. apply list_elem_of_In, in_map_iff in Hz as (n & <- & _). lia.
Qed.

Lemma feature_of_view {A} (f : A → cell) (idx : list pyval)
      (cols : list (string * list A)) (g : string * list A → bool) (current_z : Z)
      (u : Series) :
    (0 ≤ current_z)%Z →
    _get_compressed_feature {| index := idx; columns := map (col_map f) cols |}
      (map g cols) current_z = Ok u →
    ∃ nc, filter (λ nc, g nc = true) cols !! Z.to_nat current_z = Some nc ∧
          u = {| s_index := idx; s_name := nc.1; s_values := map f nc.2 |}.
Proof.
    intros Hz. unfold _get_compressed_feature. cbn [columns index].
    rewrite decide_True by (by rewrite !length_map).
    destruct (decide (current_z < 0)) as [?|_]; [lia|].
    rewrite decide_False by lia. rewrite mask_select_map_map, lookup_map.
    destruct (filter _ cols !! Z.to_nat current_z) as [nc|]; [|done].
    cbn [fmap option_fmap option_map]. intros [= <-]. by exists nc.
Qed.

  (** For the single-distribution methods [full] and [full_squared], after
      [get_squared_distribution], and for algorithm tokens without regular
      expression operators, the enrichment routine is invoked exactly once
      per algorithm, feature and method, in loop order and with direction
      [both]; the scores passed are the weights of the column at the
      feature's position among the columns whose name contains the token
      (for [full]), or the square of each of these weights (for
      [full_squared]), under the row keys of the weight matrix; one result
      frame is collected per invocation. *)
Theorem gsea_loops_single_distributions (lm : latentModel)
      (algorithms distrib_methods : list string) (shuffled : bool) (seed : pyval)
      (z z_dim_ num_perm : Z) (gene_sets : string) (st : gsea_locals) :
    z_dim lm = Some z →
    Forall (λ d, d = "full" ∨ d = "full_squared") distrib_methods →
    Forall (λ alg, literal alg = true) algorithms →
    gsea_loops run_gsea_prerank (get_squared_distribution lm) algorithms
      distrib_methods shuffled seed z_dim_ num_perm gene_sets = Ok st →
    map call_key (calls st) = single_combinations algorithms z distrib_methods ∧
    Forall (λ c, ∃ nc : string * list float,
              filter (λ nc : string * list float,
                        str_contains (call_algorithm c) nc.1 = true)
                (w_columns (w_df lm)) !! Z.to_nat (call_current_z c) = Some nc ∧
              call_use_df c
              = {| s_index := w_index (w_df lm); s_name := nc.1;
                   s_values :=
                     map (λ x, CNum (if decide (call_distribution c = "full_squared")
                                     then (x * x)%float else x)) nc.2 |})
      (calls st) ∧
    length (current_z_list st) = length (calls st).
Proof.
    intros Hz Hds _ Hloops.
    destruct (gsea_loops_single_calls (get_squared_distribution lm) algorithms
                distrib_methods shuffled seed z z_dim_ num_perm gene_sets st
                Hz Hds Hloops) as (Hkeys & Hcalls & Hlen).
    split; [exact Hkeys|]. split; [|exact Hlen].
    rewrite Forall_forall in Hcalls. apply Forall_forall. intros c Hc.
    destruct (Hcalls c Hc) as (view & Hview & Hu).
    assert (0 ≤ call_current_z c)%Z as Hpos.
    { assert (call_key c ∈ single_combinations algorithms z distrib_methods) as Hkey.
      { rewrite <- Hkeys. by apply elem_of_map_intro. }
      by apply single_combinations_feature in Hkey as (_ & Hkey & _). }
    unfold single_view in Hview. cbn [get_squared_distribution w_df set_sqr_w_df] in Hu.
    destruct (decide (call_distribution c = "full")) as [Hfull|Hfull].
    - injection Hview as <-. unfold to_frame in Hu.
      apply (feature_of_view CNum _ _ (λ nc, str_contains (call_algorithm c) nc.1))
        in Hu as (nc & Hnc & ->); [|done].
      exists nc. split; [done|]. f_equal. apply map_ext. intros x.
      destruct (decide (call_distribution c = "full_squared")) as [Hsq|]; [|done].
      rewrite Hfull in Hsq. discriminate Hsq.
    - destruct (decide (call_distribution c = "full_squared")) as [Hsq|]; [|done].
      cbn [get_squared_distribution sqr_w_df set_sqr_w_df] in Hview.
      injection Hview as <-.
      apply (feature_of_view (λ x, CNum (x * x)%float) _ _
               (λ nc, str_contains (call_algorithm c) nc.1))
        in Hu as (nc & Hnc & ->); [|done].
      by exists nc.
Qed.
End AggregatorSingle.
Lemma map_result_raise {A B} (f : A → result B) (xs ys : list A) (x : A) (e : exn) :
  Forall (λ a, ∃ b, f a = Ok b) xs → f x = Raise e →
  map_result f (xs ++ x :: ys) = Raise e.
Proof.
  intros Hxs Hx. induction Hxs as [|a xs [b Hb] _ IH]; cbn [app map_result].
  - by rewrite Hx.
  - by rewrite Hb, IH.
Qed.


Section AggregatorResults.
Variable run_gsea_prerank : Series → Z → string → result DataFrame.













End AggregatorResults.

Lemma gsea_loops_single_distributions_witness :
  ∃ st,
    gsea_loops Reference.run_gsea_prerank Examples.prepared_model ["pca"]
      ["full"; "full_squared"] false (VStr "42") 1 15 "KEGG_2016" = Ok st ∧
    map call_key (calls st)
    = [("pca", 0, "full", "both"); ("pca", 0, "full_squared", "both")] ∧
    map (λ c, s_values (call_use_df c)) (calls st)
    = [[CNum 1; CNum (-1)]; [CNum 1; CNum 1]]%float ∧
    length (current_z_list st) = length (calls st).
Proof.
  destruct (gsea_loops Reference.run_gsea_prerank Examples.prepared_model ["pca"]
              ["full"; "full_squared"] false (VStr "42") 1 15 "KEGG_2016")
    as [st|e] eqn:Hloops.
  - exists st. split; [reflexivity|].
    assert (Forall (λ d, d = "full" ∨ d = "full_squared") ["full"; "full_squared"])
      as Hds.
    { apply Forall_cons_2; [by left|].
      apply Forall_cons_2; [by right|]. apply Forall_nil_2. }
    assert (Forall (λ alg, literal alg = true) ["pca"]) as Hlit.
    { apply Forall_cons_2; [reflexivity|apply Forall_nil_2]. }
    destruct (gsea_loops_single_distributions Reference.run_gsea_prerank
                (split_pos_neg_genes
                   (get_high_weight_genes Reference.col_mean Reference.col_std
                      (Examples.model_of Examples.square_matrix) 2.5 false) false)
                ["pca"] ["full"; "full_squared"] false
                (VStr "42") 1 1 15 "KEGG_2016" st eq_refl Hds Hlit Hloops)
      as (Hkeys & _ & Hlen).
    split; [exact Hkeys|]. split; [|exact Hlen].
    vm_compute in Hloops. injection Hloops as <-. reflexivity.
  - vm_compute in Hloops. discriminate Hloops.
Defined.


(** ** Provenance columns *)

Lemma assoc_column_replace_other (name name' : string) (col : list cell)
    (cols : list (string * list cell)) :
  name' ≠ name →
  assoc_column name'
    (map (λ nc : string * list cell, if decide (nc.1 = name) then (name, col) else nc)
       cols)
  = assoc_column name' cols.
Proof.
  intros Hne. induction cols as [|[n c] cols IH]; [done|].
  cbn [map assoc_column]. cbn [fst].
  destruct (decide (n = name)) as [->|Hn]; cbn [fst snd].
  - rewrite !decide_False by congruence. exact IH.
  - destruct (decide (n = name')); [done|exact IH].
Qed.

Lemma assoc_column_replace_same (name : string) (col : list cell)
    (cols : list (string * list cell)) :
  name ∈ cols.*1 →
  assoc_column name
    (map (λ nc : string * list cell, if decide (nc.1 = name) then (name, col) else nc)
       cols)
  = Some col.
Proof.
  induction cols as [|[n c] cols IH]; intros Hin; [by apply elem_of_nil in Hin|].
  cbn [map assoc_column]. cbn [fst].
  destruct (decide (n = name)) as [->|Hn]; cbn [fst snd].
  - by rewrite decide_True.
  - rewrite !decide_False by congruence. apply IH.
    cbn [fmap list_fmap fst] in Hin.
    by apply elem_of_cons in Hin as [Heq|Hin].
Qed.

Lemma assoc_column_replace (name name' : string) (col : list cell)
    (cols : list (string * list cell)) :
  name ∈ cols.*1 →
  assoc_column name'
    (map (λ nc : string * list cell, if decide (nc.1 = name) then (name, col) else nc)
       cols)
  = if decide (name' = name) then Some col else assoc_column name' cols.
Proof.
  intros Hin. destruct (decide (name' = name)) as [->|Hne].
  - by apply assoc_column_replace_same.
  - by apply assoc_column_replace_other.
Qed.

Lemma assoc_column_append (name name' : string) (col : list cell)
    (cols : list (string * list cell)) :
  name ∉ cols.*1 →
  assoc_column name' (cols ++ [(name, col)])
  = if decide (name' = name) then Some col else assoc_column name' cols.
Proof.
  induction cols as [|[n c] cols IH]; intros Hnot.
  - cbn [app assoc_column fst snd].
    destruct (decide (name = name')) as [->|Hne].
    + by rewrite decide_True.
    + by rewrite decide_False.
  - cbn [fmap list_fmap fst] in Hnot. apply not_elem_of_cons in Hnot as [Hn Hnot].
    cbn [app assoc_column fst snd].
    destruct (decide (n = name')) as [->|Hn'].
    + by rewrite decide_False.
    + by apply IH.
Qed.

Lemma get_column_assign (name name' : string) (value : cell) (df : DataFrame) :
  get_column (assign name value df) name'
  = if decide (name' = name) then Some (replicate (length (index df)) value)
    else get_column df name'.
Proof.
  unfold get_column, assign. cbn [columns].
  destruct (bool_decide (name ∈ (columns df).*1)) eqn:Hin.
  - apply bool_decide_eq_true in Hin. by apply assoc_column_replace.
  - apply bool_decide_eq_false in Hin. by apply assoc_column_append.
Qed.

Section Provenance.
Variable run_gsea_prerank : Series → Z → string → result DataFrame.

  (** Every row of a frame returned by [_get_gsea_results] carries the
      provenance of its invocation: the columns [distrib], [algorithm],
      [current_z], [full_z], [shuffled], [direction] and [seed] hold the
      arguments of the call on every row (overwriting a column of the
      enrichment result that bears one of these names); the row keys and all
      other columns are those of the enrichment result. *)
Theorem _get_gsea_results_provenance (c : gsea_call) (df : DataFrame) :
    _get_gsea_results run_gsea_prerank c = Ok df →
    ∃ r,
      run_gsea_prerank (call_use_df c) (call_num_perm c) (call_gene_sets c) = Ok r ∧
      index df = index r ∧
      let const v := Some (replicate (length (index r)) v) in
      get_column df "distrib" = const (CObj (VStr (call_distribution c))) ∧
      get_column df "algorithm" = const (CObj (VStr (call_algorithm c))) ∧
      get_column df "current_z" = const (CObj (VInt (call_current_z c))) ∧
      get_column df "full_z" = const (CObj (VInt (call_full_z c))) ∧
      get_column df "shuffled" = const (CFlag (call_shuffled c)) ∧
      get_column df "direction" = const (CObj (VStr (call_direction c))) ∧
      get_column df "seed" = const (CObj (call_seed c)) ∧
      ∀ name, name ∉ provenance_columns → get_column df name = get_column r name.
Proof.
    unfold _get_gsea_results. intros H.
    destruct (run_gsea_prerank _ _ _) as [r|]; [|done].
    cbn [mbind result_bind] in H. injection H as <-. exists r.
    split; [done|]. split; [done|]. cbn zeta.
    repeat split.
    1-7: by repeat (rewrite get_column_assign; cbn [index assign];
                    first [rewrite decide_True by done | rewrite decide_False by done]).
    intros name Hname. unfold provenance_columns in Hname.
    repeat (apply not_elem_of_cons in Hname as [? Hname]).
    by repeat (rewrite get_column_assign; rewrite decide_False by done).
Qed.
End Provenance.

Lemma _get_gsea_results_provenance_witness :
  ∃ df,
    _get_gsea_results Reference.run_gsea_prerank Examples.full_call = Ok df ∧
    index df = [VStr "KEGG_2016"] ∧
    get_column df "direction" = Some [CObj (VStr "both")] ∧
    get_column df "seed" = Some [CObj (VStr "42")] ∧
    get_column df "nes" = Some [CNum 0%float].
Proof.
  destruct (_get_gsea_results Reference.run_gsea_prerank Examples.full_call)
    as [df|e] eqn:Hrun.
  - exists df. split; [reflexivity|].
    destruct (_get_gsea_results_provenance Reference.run_gsea_prerank
                Examples.full_call df Hrun)
      as (r & Hr & Hindex & _ & _ & _ & _ & _ & Hdir & Hseed & Hother).
    vm_compute in Hr. injection Hr as <-.
    split; [exact Hindex|]. split; [exact Hdir|]. split; [exact Hseed|].
    apply (Hother "nes"). intros Hin.
    repeat (apply elem_of_cons in Hin as [Heq|Hin]; [discriminate Heq|]).
    by apply elem_of_nil in Hin.
  - vm_compute in Hrun. discriminate Hrun.
Defined.

(** ** Overrepresentation *)

Lemma size_union_inter (S C : gset pyval) :
  (size (S ∪ C) + size (S ∩ C) = size S + size C)%nat.
Proof.
  assert (S ∪ C = C ∪ (S ∖ C)) as ->.
  { apply set_eq. intros x. destruct (decide (x ∈ C)); set_solver. }
  rewrite size_union by set_solver.
  assert (size S = (size (S ∩ C) + size (S ∖ C))%nat) as ->; [|lia].
  rewrite <- size_union by set_solver. f_equal.
  apply set_eq. intros x. destruct (decide (x ∈ C)); set_solver.
Qed.

Lemma list_to_set_subseteq (l k : list pyval) :
  l ⊆ k → (list_to_set l : gset pyval) ⊆ list_to_set k.
Proof. intros Hlk x. rewrite !elem_of_list_to_set. apply Hlk. Qed.

(** The heap after [background_genes += gene_list]: the candidates are among
    the background genes, also when both arguments are the same list. *)
Lemma candidates_in_background (h : heap) (gene_list background_genes : loc) :
  let h' := <[background_genes := h !!! background_genes ++ h !!! gene_list]> h in
  h' !!! gene_list ⊆ h' !!! background_genes.
Proof.
  intros h'. unfold h'. rewrite lookup_total_insert_eq.
  destruct (decide (background_genes = gene_list)) as [->|Hne].
  - by rewrite lookup_total_insert_eq.
  - rewrite lookup_total_insert_ne by done. set_solver.
Qed.

(** The table that [run_overrepresentation] passes to the exact test for a
    gene set: its four cells always sum to the size of the universe plus 4;
    the three cells [m + 1], [N - m + 1], [P - m + 1] are at least 1; the
    fourth is at least 1 when every gene of the set belongs to the universe
    (the background extended by the candidates), and it is the only cell
    that can be negative. *)
Theorem gene_set_table_cells (h : heap) (gene_list background_genes gene_set : loc)
    (a b c d : Z) :
  let h' := <[background_genes := h !!! background_genes ++ h !!! gene_list]> h in
  let G := Z.of_nat (size (list_to_set (h' !!! background_genes) : gset pyval)) in
  gene_set_table h' gene_list G gene_set = ((a, b), (c, d)) →
  (1 ≤ a)%Z ∧ (1 ≤ b)%Z ∧ (1 ≤ c)%Z ∧ a + b + c + d = G + 4 ∧
  (h' !!! gene_set ⊆ h' !!! background_genes → (1 ≤ d)%Z).
Proof.
  intros h' G Htable. unfold gene_set_table, contingency in Htable.
  set (S := list_to_set (h' !!! gene_set) : gset pyval) in *.
  set (C := list_to_set (h' !!! gene_list) : gset pyval) in *.
  injection Htable as <- <- <- <-.
  assert (size (S ∩ C) ≤ size S)%nat by (apply subseteq_size; set_solver).
  assert (size (S ∩ C) ≤ size C)%nat by (apply subseteq_size; set_solver).
  split; [lia|]. split; [lia|]. split; [lia|]. split; [lia|].
  intros Hsub.
  assert (size (S ∪ C) ≤ size (list_to_set (h' !!! background_genes) : gset pyval))%nat
    as Hle.
  { apply subseteq_size. apply union_least.
    - by apply list_to_set_subseteq.
    - apply list_to_set_subseteq, candidates_in_background. }
  pose proof (size_union_inter S C). unfold G. lia.
Qed.

Lemma gene_set_table_cells_witness :
  gene_set_table
    (<[2%positive := Examples.gene_heap !!! 2%positive ++ Examples.gene_heap !!! 1%positive]>
       Examples.gene_heap) 1%positive 5 3%positive = ((3, 2), (1, 3)) ∧
  3 + 2 + 1 + 3 = 5 + 4 ∧
  gene_set_table
    (<[2%positive := Examples.gene_heap !!! 2%positive ++ Examples.gene_heap !!! 1%positive]>
       Examples.gene_heap) 1%positive 5 4%positive = ((1, 4), (5, -1)).
Proof.
  assert (gene_set_table
            (<[2%positive := Examples.gene_heap !!! 2%positive
                             ++ Examples.gene_heap !!! 1%positive]>
               Examples.gene_heap) 1%positive 5 3%positive = ((3, 2), (1, 3)))
    as Htable by (vm_compute; reflexivity).
  split; [exact Htable|]. split; [|vm_compute; reflexivity].
  exact (proj1 (proj2 (proj2 (proj2
           (gene_set_table_cells Examples.gene_heap 1%positive 2%positive
              3%positive 3 2 1 3 Htable))))).
Defined.

Lemma frame_of_two_rows (P O : list cell) (names : list string) :
  length P = length names → length O = length names →
  imap (λ j name, (name, omap (λ r : list cell, r !! j) [P; O])) names
  = zip_with (λ name po, (name, [po.1; po.2])) names (zip P O).
Proof.
  revert P O. induction names as [|name names IH]; intros P O HP HO; [done|].
  destruct P as [|p P]; [done|]. destruct O as [|o O]; [done|].
  rewrite imap_cons. cbn [zip zip_with omap list_omap lookup list_lookup fst snd].
  f_equal. rewrite <- IH by (cbn in *; lia).
  apply imap_ext. intros j x _. done.
Qed.

Lemma transpose_two_rows (P O : list cell) (names : list string) :
  length P = length names → length O = length names →
  transpose (frame_of_rows [P; O] names [VStr "pval"; VStr "odds"])
  = {| index := map VStr names; columns := [("pval", P); ("odds", O)] |}.
Proof.
  intros HP HO. unfold transpose, frame_of_rows. cbn [index columns].
  rewrite frame_of_two_rows by done.
  cbn [imap py_str]. f_equal.
  - f_equal. revert P O HP HO.
    induction names as [|name names IH]; intros P O HP HO; [done|].
    destruct P as [|p P]; [done|]. destruct O as [|o O]; [done|].
    cbn. f_equal. apply IH; cbn in *; lia.
  - assert (∀ (P O : list cell), length P = length names → length O = length names →
              map (λ nc : string * list cell, default (CNum PrimFloat.nan) (nc.2 !! 0%nat))
                (zip_with (λ name po, (name, [po.1; po.2])) names (zip P O)) = P ∧
              map (λ nc : string * list cell, default (CNum PrimFloat.nan) (nc.2 !! 1%nat))
                (zip_with (λ name po, (name, [po.1; po.2])) names (zip P O)) = O)
      as Hcols.
    { clear. induction names as [|name names IH]; intros P O HP HO.
      - destruct P; [|done]. by destruct O.
      - destruct P as [|p P]; [done|]. destruct O as [|o O]; [done|].
        destruct (IH P O) as [IH1 IH2]; [cbn in *; lia..|].
        cbn. by rewrite IH1, IH2. }
    destruct (Hcols P O HP HO) as [HcolP HcolO].
    unfold compose. cbn [py_str]. by rewrite HcolP, HcolO.
Qed.

Section OverrepresentationResult.
Variable fisher_exact : table2x2 → result (float * float).

Lemma overrep_loop (f : string * loc → table2x2) (dict : list (string * loc))
      (acc : overrep_acc) :
    for_each (λ acc item,
        '(oddsratio, pvalue) ← fisher_exact (f item);
        Ok {| pvals := pvals acc ++ [pvalue];
              odds := odds acc ++ [oddsratio];
              gene_set_names := gene_set_names acc ++ [item.1] |}) dict acc
    = (tests ← map_result (λ item, fisher_exact (f item)) dict;
       Ok {| pvals := pvals acc ++ map snd tests;
             odds := odds acc ++ map fst tests;
             gene_set_names := gene_set_names acc ++ dict.*1 |}).
Proof.
    revert acc. induction dict as [|item dict IH]; intros acc.
    - cbn. rewrite !app_nil_r. by destruct acc.
    - cbn [for_each map_result]. destruct (fisher_exact (f item)) as [[o p]|e]; [|done].
      cbn [mbind result_bind]. rewrite IH.
      destruct (map_result _ dict) as [tests|e]; [|done].
      cbn [mbind result_bind pvals odds gene_set_names map fmap list_fmap fst snd].
      by rewrite <- !app_assoc.
Qed.

Lemma map_result_ext {A B} (f g : A → result B) (l : list A) :
    (∀ a, a ∈ l → f a = g a) → map_result f l = map_result g l.
Proof.
    induction l as [|a l IH]; intros Heq; [done|].
    cbn [map_result]. rewrite (Heq a (list_elem_of_here _ _)).
    rewrite IH; [done|]. intros b Hb. apply Heq. by apply list_elem_of_further.
Qed.

Lemma map_result_length {A B} (f : A → result B) (l : list A) (r : list B) :
    map_result f l = Ok r → length r = length l.
Proof.
    revert r. induction l as [|a l IH]; intros r H.
    - by injection H as <-.
    - cbn [map_result] in H. destruct (f a) as [b|]; [|done].
      cbn [mbind result_bind] in H.
      destruct (map_result f l) as [r'|]; [|done].
      cbn [mbind result_bind] in H. injection H as <-. cbn. f_equal. by apply IH.
Qed.

  (** [run_overrepresentation] tests the gene sets in dictionary order, each
      on the table built from the sizes of the candidate set, the gene set,
      their intersection and the background extended by the candidates; it
      returns one row per gene set, keyed by the set's name, with the
      p-value and the odds ratio of its test, and it raises what the first
      failing test raises.  (No gene set is the background list object
      itself.) *)
Theorem run_overrepresentation_result (h : heap) (gene_list : loc)
      (gene_set_dict : list (string * loc)) (background_genes : loc) :
    Forall (λ item, item.2 ≠ background_genes) gene_set_dict →
    (run_overrepresentation fisher_exact h gene_list gene_set_dict
       background_genes).2
    = (tests ← map_result
                 (λ item, fisher_exact
                            (overrepresentation_table (h !!! gene_list)
                               (h !!! background_genes) (h !!! item.2)))
                 gene_set_dict;
       Ok (overrepresentation_frame gene_set_dict.*1 tests)).
Proof.
    intros Hsets. unfold run_overrepresentation. cbn [snd].
    set (h' := <[background_genes := h !!! background_genes ++ h !!! gene_list]> h).
    rewrite (overrep_loop
               (λ item, gene_set_table h' gene_list
                          (Z.of_nat (size (list_to_set (h' !!! background_genes)
                                           : gset pyval))) item.2)).
    rewrite (map_result_ext _
               (λ item, fisher_exact
                          (overrepresentation_table (h !!! gene_list)
                             (h !!! background_genes) (h !!! item.2)))).
    - destruct (map_result _ gene_set_dict) as [tests|e] eqn:Htests; [|done].
      cbn [mbind result_bind pvals odds gene_set_names app].
      apply map_result_length in Htests.
      rewrite transpose_two_rows.
      + unfold overrepresentation_frame. do 3 f_equal.
        * f_equal. by rewrite map_map.
        * do 2 f_equal. by rewrite map_map.
      + by rewrite ?length_map, ?length_fmap.
      + by rewrite ?length_map, ?length_fmap.
    - intros item Hitem. f_equal.
      rewrite Forall_forall in Hsets. specialize (Hsets item Hitem).
      unfold gene_set_table, overrepresentation_table.
      assert (h' !!! item.2 = h !!! item.2) as ->
        by (unfold h'; by rewrite lookup_total_insert_ne).
      assert (list_to_set (h' !!! gene_list) = (list_to_set (h !!! gene_list) : gset pyval))
        as ->.
      { unfold h'. destruct (decide (background_genes = gene_list)) as [->|Hne].
        - rewrite lookup_total_insert_eq, list_to_set_app_L. set_solver.
        - by rewrite lookup_total_insert_ne. }
      assert (h' !!! background_genes = h !!! background_genes ++ h !!! gene_list) as ->
        by (unfold h'; by rewrite lookup_total_insert_eq).
      by rewrite list_to_set_app_L.
Qed.
End OverrepresentationResult.

Lemma run_overrepresentation_result_witness :
  (run_overrepresentation Reference.fisher_exact Examples.gene_heap 1%positive
     [("S", 3%positive)] 2%positive).2
  = Ok {| index := [VStr "S"];
          columns := [("pval", [CNum (66 / 126)%float]);
                      ("odds", [CNum 4.5%float])] |}.
Proof.
  etransitivity.
  - apply (run_overrepresentation_result Reference.fisher_exact Examples.gene_heap
             1%positive [("S", 3%positive)] 2%positive).
    apply Forall_cons_2; [discriminate|apply Forall_nil_2].
  - vm_compute. reflexivity.
Defined.

Lemma for_each_ext {A S} (body1 body2 : S → A → result S) (xs : list A) (s : S) :
  (∀ s x, x ∈ xs → body1 s x = body2 s x) →
  for_each body1 xs s = for_each body2 xs s.
Proof.
  revert s. induction xs as [|x xs IH]; intros s Heq; [done|].
  cbn [for_each]. rewrite (Heq s x (list_elem_of_here _ _)).
  destruct (body2 s x) as [s'|e]; [|done]. cbn [mbind result_bind].
  apply IH. intros s2 y Hy. apply Heq. by apply list_elem_of_further.
Qed.

Section OverrepresentationEffect.
Variable fisher_exact : table2x2 → result (float * float).

  (** [run_overrepresentation] changes the caller's background list in
      place: after the call, whether it returned or raised, the list holds
      its former genes followed by the candidate genes, and every other list
      is as it was.  When the candidate list and the background list are the
      same object, that one list is doubled. *)
Theorem run_overrepresentation_extends_background (h : heap) (gene_list : loc)
      (gene_set_dict : list (string * loc)) (background_genes : loc) :
    let h' := (run_overrepresentation fisher_exact h gene_list gene_set_dict
                 background_genes).1 in
    h' !!! background_genes = h !!! background_genes ++ h !!! gene_list ∧
    length (h' !!! background_genes)
      = (length (h !!! background_genes) + length (h !!! gene_list))%nat ∧
    (∀ l, l ≠ background_genes → h' !! l = h !! l) ∧
    (gene_list ≠ background_genes → h' !!! gene_list = h !!! gene_list) ∧
    (gene_list = background_genes →
     h' !!! gene_list = h !!! gene_list ++ h !!! gene_list).
Proof.
    intros h'. unfold h', run_overrepresentation. cbn [fst].
    split; [by rewrite lookup_total_insert_eq|].
    split; [by rewrite lookup_total_insert_eq, length_app|].
    split; [intros l Hl; by rewrite lookup_insert_ne|].
    split.
    - intros Hne. by rewrite lookup_total_insert_ne.
    - intros ->. by rewrite lookup_total_insert_eq.
Qed.

  (** Calling [run_overrepresentation] again with the same arguments returns
      the same frame (or raises the same exception), although the background
      list has grown in between: the tests depend on the lists only as
      sets. *)
Theorem run_overrepresentation_repeatable (h : heap) (gene_list : loc)
      (gene_set_dict : list (string * loc)) (background_genes : loc) :
    let first := run_overrepresentation fisher_exact h gene_list gene_set_dict
                   background_genes in
    (run_overrepresentation fisher_exact first.1 gene_list gene_set_dict
       background_genes).2 = first.2.
Proof.
    intros first. unfold first, run_overrepresentation. cbn [fst snd].
    set (h1 := <[background_genes := h !!! background_genes ++ h !!! gene_list]> h).
    set (h2 := <[background_genes := h1 !!! background_genes ++ h1 !!! gene_list]> h1).
    assert (∀ l, (list_to_set (h2 !!! l) : gset pyval) = list_to_set (h1 !!! l))
      as Hsets.
    { intros l. unfold h2. destruct (decide (background_genes = l)) as [<-|Hne].
      - rewrite lookup_total_insert_eq, list_to_set_app_L.
        pose proof (list_to_set_subseteq _ _
                      (candidates_in_background h gene_list background_genes)).
        fold h1 in H. set_solver.
      - by rewrite lookup_total_insert_ne. }
    rewrite (for_each_ext _
               (λ acc item,
                  '(oddsratio, pvalue) ←
                     fisher_exact
                       (gene_set_table h1 gene_list
                          (Z.of_nat (size (list_to_set (h1 !!! background_genes)
                                           : gset pyval))) item.2);
                  Ok {| pvals := pvals acc ++ [pvalue];
                        odds := odds acc ++ [oddsratio];
                        gene_set_names := gene_set_names acc ++ [item.1] |}));
      [done|].
    intros acc item _. unfold gene_set_table. by rewrite !Hsets.
Qed.
End OverrepresentationEffect.

Lemma run_overrepresentation_extends_background_witness :
  (run_overrepresentation Reference.fisher_exact Examples.gene_heap 1%positive
     [("far", 4%positive)] 2%positive).2
  = Raise (ValueError "All values in `table` must be nonnegative.") ∧
  (run_overrepresentation Reference.fisher_exact Examples.gene_heap 1%positive
     [("far", 4%positive)] 2%positive).1 !!! 2%positive
  = [VStr "A"; VStr "B"; VStr "C"; VStr "D"; VStr "E"; VStr "A"; VStr "B"; VStr "C"].
Proof.
  split; [vm_compute; reflexivity|].
  exact (proj1 (run_overrepresentation_extends_background Reference.fisher_exact
                  Examples.gene_heap 1%positive [("far", 4%positive)] 2%positive)).
Defined.

Lemma run_overrepresentation_repeatable_witness :
  (run_overrepresentation Reference.fisher_exact
     (run_overrepresentation Reference.fisher_exact Examples.gene_heap 1%positive
        [("S", 3%positive)] 2%positive).1
     1%positive [("S", 3%positive)] 2%positive).2
  = (run_overrepresentation Reference.fisher_exact Examples.gene_heap 1%positive
       [("S", 3%positive)] 2%positive).2.
Proof.
  exact (run_overrepresentation_repeatable Reference.fisher_exact Examples.gene_heap
           1%positive [("S", 3%positive)] 2%positive).
Defined.

(** ** The symbol dictionary with synonyms *)

Lemma filter_map_key {A K V} `{EqDecision K} (key : A → K) (val : A → V)
    (l : list A) (k : K) :
  filter (λ kv : K * V, kv.1 = k) (map (λ a, (key a, val a)) l)
  = map (λ a, (key a, val a)) (filter (λ a, key a = k) l).
Proof.
  induction l as [|a l IH]; [done|].
  cbn [map]. rewrite !filter_cons. cbn [fst].
  destruct (decide (key a = k)); cbn [map]; by rewrite IH.
Qed.

Lemma filter_const {A} (P : Prop) `{Decision P} (l : list A) :
  filter (λ _ : A, P) l = if decide P then l else [].
Proof.
  destruct (decide P) as [HP|HP].
  - by apply filter_all.
  - by apply filter_none.
Qed.

Lemma filter_comm {A} (P Q : A → Prop) `{∀ x, Decision (P x), ∀ x, Decision (Q x)}
    (l : list A) :
  filter P (filter Q l) = filter Q (filter P l).
Proof.
  rewrite !list_filter_filter. apply list_filter_iff. tauto.
Qed.

(** The rows of a synonym that survive [drop_duplicates(keep=False)]: its
    only row, when it has exactly one. *)
Lemma drop_duplicates_synonym (df : list Synonyms.syn_row) (s : string) :
  filter (λ row : Synonyms.syn_row, row.2 = s) (Synonyms.drop_duplicates df)
  = if decide (length (filter (λ row : Synonyms.syn_row, row.2 = s) df) = 1%nat)
    then filter (λ row : Synonyms.syn_row, row.2 = s) df else [].
Proof.
  unfold Synonyms.drop_duplicates. rewrite list_filter_filter.
  rewrite <- (filter_const
                (length (filter (λ row : Synonyms.syn_row, row.2 = s) df) = 1%nat)).
  rewrite list_filter_filter. apply list_filter_iff.
  intros row. split.
  - intros [<- Hcount]. by split.
  - intros [Hcount <-]. by split.
Qed.

(** A synonym is a key of the synonym dictionary exactly when it occurs in a
    single row of the gene table joined with its synonyms (so no synonym
    listed twice, in particular none listed for two genes, is a key) and the
    symbol of the gene of that row is not itself one of the synonyms that
    survive deduplication; the key then maps to the identifier of that
    gene. *)
Theorem synonym_to_entrez_lookup (gene_df : list gene_row) (s : string) (id : Z) :
  Synonyms.synonym_to_entrez gene_df !! s = Some id ↔
  ∃ r, filter (λ row : Synonyms.syn_row, row.2 = s) (Synonyms.join_synonyms gene_df)
       = [(r, s)] ∧
       entrez_gene_id r = id ∧
       symbol r ∉ (Synonyms.drop_duplicates (Synonyms.join_synonyms gene_df)).*2.
Proof.
  unfold Synonyms.synonym_to_entrez, Synonyms.gene_with_syn_df,
    Synonyms.query_symbol_not_in_synonyms.
  rewrite py_dict_lookup.
  rewrite (filter_map_key (λ row : Synonyms.syn_row, row.2)
             (λ row : Synonyms.syn_row, entrez_gene_id row.1)).
  rewrite last_map.
  set (J := Synonyms.join_synonyms gene_df).
  set (D := Synonyms.drop_duplicates J).
  rewrite (filter_comm (λ row : Synonyms.syn_row, row.2 = s)).
  pose proof (drop_duplicates_synonym J s) as HD. fold D in HD. rewrite HD. clear HD.
    set (F := filter (λ row : Synonyms.syn_row, row.2 = s) J).
    assert (∀ row, row ∈ F → row.2 = s) as HF.
    { intros row Hrow. by apply list_elem_of_filter in Hrow as [? _]. }
    destruct (decide (length F = 1%nat)) as [Hone|Hmany].
    + destruct F as [|[r s'] [|? ?]]; try done.
      assert (s' = s) as -> by (apply (HF (r, s')), list_elem_of_here).
      rewrite filter_cons, filter_nil. cbn [fst].
      destruct (decide (symbol r ∉ D.*2)) as [Hsym|Hsym]; cbn.
      * split.
        -- intros [= <-]. by exists r.
        -- intros (r' & [= <-] & <- & _). done.
      * split; [done|]. intros (r' & [= <-] & _ & Hnot). done.
    + rewrite filter_nil. cbn. split; [done|].
      intros (r & HFr & _). rewrite HFr in Hmany. done.
Qed.

Lemma synonym_to_entrez_lookup_witness :
  Synonyms.synonym_to_entrez (Synonyms.protein_coding Examples.synonym_table) !! "B"
  = Some 1.
Proof.
  apply (proj2 (synonym_to_entrez_lookup
                  (Synonyms.protein_coding Examples.synonym_table) "B" 1)).
  exists {| symbol := "A"; entrez_gene_id := 1; gene_type := "protein-coding";
            synonyms := Some "B|X" |}.
  split; [vm_compute; reflexivity|]. split; [reflexivity|].
  vm_compute. intros Hin.
  repeat (apply elem_of_cons in Hin as [Heq|Hin]; [discriminate Heq|]).
  by apply elem_of_nil in Hin.
Defined.

(** In the final dictionary a key maps to the identifier the synonym
    dictionary gives it when the key is a surviving synonym (also when the
    key is the primary symbol of another gene, whose own identifier is then
    replaced), and otherwise to the identifier of the last protein-coding
    gene that has the key as its primary symbol.  Genes that are not
    protein-coding contribute neither symbols nor synonyms. *)
Theorem symbol_to_entrez_lookup (table : list gene_row) (k : string) (id : Z) :
  let gene_df := Synonyms.protein_coding table in
  Synonyms.symbol_to_entrez table !! k = Some id ↔
  Synonyms.synonym_to_entrez gene_df !! k = Some id ∨
  (Synonyms.synonym_to_entrez gene_df !! k = None ∧
   ∃ r, last (filter (λ r, symbol r = k) gene_df) = Some r ∧ entrez_gene_id r = id).
Proof.
  intros gene_df. unfold Synonyms.symbol_to_entrez, Synonyms.update.
  fold gene_df. rewrite lookup_union_Some_raw.
  unfold Synonyms.primary_symbols. rewrite py_dict_lookup.
  rewrite (filter_map_key symbol entrez_gene_id), last_map.
  destruct (last (filter (λ r, symbol r = k) gene_df)) as [r|]; cbn.
  - split.
    + intros [Hsyn | [Hnone [= <-]]]; [by left|]. right. split; [done|]. by exists r.
    + intros [Hsyn | [Hnone (r' & [= <-] & <-)]]; [by left|]. by right.
  - split.
    + intros [Hsyn | [_ ?]]; [by left|done].
    + intros [Hsyn | [_ (r' & ? & _)]]; [by left|done].
Qed.

Lemma symbol_to_entrez_lookup_witness :
  Synonyms.symbol_to_entrez Examples.synonym_table !! "B" = Some 1 ∧
  Synonyms.symbol_to_entrez Examples.synonym_table !! "A" = Some 1 ∧
  Synonyms.symbol_to_entrez Examples.synonym_table !! "X" = None ∧
  Synonyms.symbol_to_entrez Examples.synonym_table !! "E2" = None.
Proof.
  split.
  - apply (proj2 (symbol_to_entrez_lookup Examples.synonym_table "B" 1)).
    left. vm_compute. reflexivity.
  - split.
    + apply (proj2 (symbol_to_entrez_lookup Examples.synonym_table "A" 1)).
      right. split; [vm_compute; reflexivity|].
      eexists. split; [vm_compute; reflexivity|reflexivity].
    + split; vm_compute; reflexivity.
Defined.

(** ** File names and seeds *)

Lemma split_on_nonempty (sep : ascii) (s : string) : split_on sep s ≠ [].
Proof.
  destruct s as [|c s]; [done|]. cbn [split_on].
  destruct (decide (c = sep)); [done|]. by destruct (split_on sep s).
Qed.

Lemma split_on_no_sep (sep : ascii) (s : string) :
  contains_char sep s = false → split_on sep s = [s].
Proof.
  induction s as [|c s IH]; [done|]. cbn [contains_char split_on].
  destruct (decide (c = sep)); [done|]. intros Hs. by rewrite IH.
Qed.

Lemma split_on_app (sep : ascii) (a b : string) :
  contains_char sep a = false →
  split_on sep (a +:+ String sep b) = a :: split_on sep b.
Proof.
  induction a as [|c a IH]; simpl.
  - intros _. by rewrite decide_True.
  - destruct (decide (c = sep)); [done|]. intros Ha. by rewrite IH.
Qed.

Lemma last_cons_nonempty {A} (x : A) (l : list A) : l ≠ [] → last (x :: l) = last l.
Proof. by destruct l. Qed.

Lemma split_on_app_length (sep : ascii) (a b : string) :
  (2 ≤ length (split_on sep (a +:+ String sep b)))%nat.
Proof.
  induction a as [|c a IH]; simpl.
  - rewrite decide_True by done. cbn [length].
    pose proof (split_on_nonempty sep b). destruct (split_on sep b); [done|].
    cbn [length]. lia.
  - destruct (decide (c = sep)); [cbn [length]; lia|].
    destruct (split_on sep (a +:+ String sep b)); cbn [length] in *; lia.
Qed.

Lemma last_split_on_app (sep : ascii) (a b : string) :
  last (split_on sep (a +:+ String sep b)) = last (split_on sep b).
Proof.
  induction a as [|c a IH]; simpl.
  - rewrite decide_True by done. apply last_cons_nonempty, split_on_nonempty.
  - destruct (decide (c = sep)).
    + rewrite last_cons_nonempty by apply split_on_nonempty. exact IH.
    + pose proof (split_on_app_length sep a b) as Hlen.
      destruct (split_on sep (a +:+ String sep b)) as [|w [|w' ws]];
        [cbn [length] in Hlen; lia..|].
      by rewrite <- IH.
Qed.

(** The seed of a weight file is the text between the first and the second
    underscore of its base name (the part after the last slash); a base name
    without an underscore has no seed and is an [IndexError]. *)
Theorem seed_of_file_name_spec (dir base pre seed rest : string) :
  contains_char "/" base = false →
  (contains_char "_" pre = false → contains_char "_" seed = false →
   base = pre +:+ "_" +:+ seed +:+ "_" +:+ rest →
   seed_of_file_name (dir +:+ "/" +:+ base) = Ok seed) ∧
  (contains_char "_" base = false →
   seed_of_file_name (dir +:+ "/" +:+ base)
   = Raise (IndexError "list index out of range")).
Proof.
  intros Hbase. unfold seed_of_file_name.
  change (dir +:+ "/" +:+ base) with (dir +:+ String "/" base).
  rewrite last_split_on_app, (split_on_no_sep "/" base) by done. cbn [last].
  split.
  - intros Hpre Hseed ->.
    change (pre +:+ "_" +:+ seed +:+ "_" +:+ rest)
      with (pre +:+ String "_" (seed +:+ String "_" rest)).
    by rewrite !split_on_app.
  - intros Hnone. by rewrite split_on_no_sep.
Qed.

Lemma seed_of_file_name_spec_witness :
  seed_of_file_name "results/weights/model_486191_weight_matrix.tsv" = Ok "486191" ∧
  seed_of_file_name "results/weights/matrix.tsv"
  = Raise (IndexError "list index out of range").
Proof.
  split.
  - apply (proj1 (seed_of_file_name_spec "results/weights"
                    "model_486191_weight_matrix.tsv" "model" "486191"
                    "weight_matrix.tsv" eq_refl) eq_refl eq_refl eq_refl).
  - apply (proj2 (seed_of_file_name_spec "results/weights" "matrix.tsv"
                    "" "" "" eq_refl) eq_refl).
Defined.

(** ** The pipeline driver *)

Lemma assoc_dict_set {V} (k k' : string) (v : V) (d : list (string * V)) :
  assoc k' (dict_set k v d) = if decide (k' = k) then Some v else assoc k' d.
Proof.
  induction d as [|[k0 v0] d IH]; cbn [dict_set assoc].
  - destruct (decide (k = k')) as [->|Hne].
    + by rewrite decide_True.
    + by rewrite decide_False.
  - destruct (decide (k0 = k)) as [->|Hk0]; cbn [assoc].
    + destruct (decide (k = k')) as [->|Hne].
      * by rewrite decide_True.
      * by rewrite decide_False.
    + destruct (decide (k0 = k')) as [->|Hk0'].
      * by rewrite decide_False.
      * exact IH.
Qed.

Lemma dict_set_keys {V} (k : string) (v : V) (d : list (string * V)) :
  (dict_set k v d).*1 = if decide (k ∈ d.*1) then d.*1 else d.*1 ++ [k].
Proof.
  induction d as [|[k0 v0] d IH]; cbn [dict_set].
  - rewrite decide_False; [done|]. apply not_elem_of_nil.
  - cbn [fmap list_fmap fst]. destruct (decide (k0 = k)) as [->|Hk0].
    + rewrite decide_True; [done|]. apply list_elem_of_here.
    + cbn [fmap list_fmap fst]. fold (d.*1). fold ((dict_set k v d).*1). rewrite IH.
      destruct (decide (k ∈ d.*1)) as [Hin|Hnot].
      * rewrite decide_True; [done|]. by apply list_elem_of_further.
      * rewrite decide_False; [done|]. apply not_elem_of_cons. by split.
Qed.

Lemma dict_set_NoDup {V} (k : string) (v : V) (d : list (string * V)) :
  NoDup d.*1 → NoDup (dict_set k v d).*1.
Proof.
  intros Hnd. rewrite dict_set_keys. destruct (decide (k ∈ d.*1)); [done|].
  apply NoDup_app. split; [done|]. split.
  - intros x Hx Hxk. apply list_elem_of_singleton in Hxk as ->. done.
  - apply NoDup_singleton.
Qed.

Lemma weight_matrices_loop (files : list string) (d0 wm : list (string * string)) :
  NoDup d0.*1 →
  for_each (λ (d : list (string * string)) file_name,
              seed ← seed_of_file_name file_name;
              Ok (dict_set seed file_name d)) files d0 = Ok wm →
  ∃ seeds,
    map_result seed_of_file_name files = Ok seeds ∧
    NoDup wm.*1 ∧
    ∀ seed, assoc seed wm =
            match last (filter (λ sf, sf.1 = seed) (zip seeds files)) with
            | Some sf => Some sf.2
            | None => assoc seed d0
            end.
Proof.
  revert d0. induction files as [|file files IH]; intros d0 Hnd Hloop.
  - injection Hloop as <-. by exists [].
  - cbn [for_each] in Hloop.
    destruct (seed_of_file_name file) as [s|] eqn:Hs; [|done].
    cbn [mbind result_bind] in Hloop.
    apply IH in Hloop as (seeds & Hseeds & Hnd' & Hassoc); [|by apply dict_set_NoDup].
    exists (s :: seeds). cbn [map_result]. rewrite Hs, Hseeds.
    split; [done|]. split; [done|].
    intros seed. rewrite Hassoc. cbn [zip zip_with]. rewrite filter_cons. cbn [fst].
    rewrite assoc_dict_set.
    destruct (last (filter (λ sf, sf.1 = seed) (zip seeds files))) as [sf|] eqn:Hlast.
    + destruct (decide (s = seed)); [|by rewrite Hlast].
      rewrite last_cons_nonempty; [by rewrite Hlast|]. intros Hnil. by rewrite Hnil in Hlast.
    + destruct (decide (s = seed)) as [->|Hne].
      * apply last_None in Hlast. rewrite Hlast. cbn [last snd].
        by rewrite decide_True.
      * rewrite Hlast. by rewrite decide_False.
Qed.

(** Each seed is processed once, with the last weight file listed for it: an
    earlier file carrying the same seed in its name is silently left out. *)
Theorem weight_matrices_of_last_file (files : list string)
    (wm : list (string * string)) :
  weight_matrices_of files = Ok wm →
  ∃ seeds,
    map_result seed_of_file_name files = Ok seeds ∧
    NoDup wm.*1 ∧
    ∀ seed, assoc seed wm
            = snd <$> last (filter (λ sf, sf.1 = seed) (zip seeds files)).
Proof.
  intros Hwm. apply weight_matrices_loop in Hwm as (seeds & Hseeds & Hnd & Hassoc);
    [|apply NoDup_nil_2].
  exists seeds. split; [done|]. split; [done|].
  intros seed. rewrite Hassoc.
  by destruct (last (filter (λ sf, sf.1 = seed) (zip seeds files))).
Qed.

Lemma weight_matrices_of_last_file_witness :
  ∃ wm,
    weight_matrices_of ["w/a_7_weight_matrix.tsv"; "w/b_9_weight_matrix.tsv";
                        "w/c_7_weight_matrix.tsv"] = Ok wm ∧
    wm.*1 = ["7"; "9"] ∧
    assoc "7" wm = Some "w/c_7_weight_matrix.tsv".
Proof.
  destruct (weight_matrices_of ["w/a_7_weight_matrix.tsv"; "w/b_9_weight_matrix.tsv";
                                "w/c_7_weight_matrix.tsv"]) as [wm|e] eqn:Hwm.
  - exists wm. split; [reflexivity|].
    destruct (weight_matrices_of_last_file _ wm Hwm) as (seeds & Hseeds & _ & Hassoc).
    vm_compute in Hseeds. injection Hseeds as <-.
    split; [|exact (Hassoc "7")].
    vm_compute in Hwm. by injection Hwm as <-.
  - vm_compute in Hwm. discriminate Hwm.
Defined.

Lemma for_each_collect {A B} (f : A → result B) (xs : list A) (acc : list B) :
  for_each (λ (acc : list B) x, y ← f x; Ok (acc ++ [y])) xs acc
  = (ys ← map_result f xs; Ok (acc ++ ys)).
Proof.
  revert acc. induction xs as [|x xs IH]; intros acc.
  - cbn. by rewrite app_nil_r.
  - cbn [for_each map_result]. destruct (f x) as [y|e]; [|done].
    cbn [mbind result_bind]. rewrite IH.
    destruct (map_result f xs) as [ys|e]; [|done].
    cbn [mbind result_bind]. by rewrite <- app_assoc.
Qed.

Section PipelineProperties.
Variable read_table : string → result WeightMatrix.
Variable int_of_str : string → option Z.
Variable read_genes : string → result (list gene_row).
Variables col_mean col_std : list float → float.
Variable run_gsea_prerank : Series → Z → string → result DataFrame.
Variable glob : string → list string.

Lemma run_gsea_pipeline_command_unfold (input_weight_dir : string) (z_dim_ : Z)
      (dataset_name_ : string) (num_perm : Z) (shuffled_true_ : bool)
      (algorithms distrib_methods : list string) (translate : bool)
      (gene_sets : string) :
    run_gsea_pipeline_command read_table int_of_str read_genes col_mean col_std
      run_gsea_prerank glob input_weight_dir z_dim_ dataset_name_ num_perm
      shuffled_true_ algorithms distrib_methods translate gene_sets
    = (wm ← weight_matrices_of (glob (input_weight_dir +:+ "/*_weight_matrix*"));
       dfs ← map_result
               (λ sf, run_seed read_table int_of_str read_genes col_mean col_std
                        run_gsea_prerank z_dim_ dataset_name_ num_perm
                        shuffled_true_ algorithms distrib_methods translate
                        gene_sets sf.1 sf.2) wm;
       table ← pd_concat dfs;
       Ok ("results/gsea/" +:+ ("gsea_results_" +:+ dataset_name_ +:+ "_zdim_" +:+
                                 pretty z_dim_ +:+ ".tsv"), table)).
Proof.
    unfold run_gsea_pipeline_command, weight_matrices_of.
    destruct (for_each _ (glob _) []) as [wm|e]; [|done].
    cbn [mbind result_bind].
    rewrite (for_each_collect
               (λ sf, run_seed read_table int_of_str read_genes col_mean col_std
                        run_gsea_prerank z_dim_ dataset_name_ num_perm
                        shuffled_true_ algorithms distrib_methods translate
                        gene_sets sf.1 sf.2)).
    by destruct (map_result _ wm).
Qed.

  (** A failure while processing the weight matrix of one seed aborts
      [run_gsea_pipeline_command]: the exception is raised to the caller, no
      results file is written, and the results of the seeds processed before
      are lost. *)
Theorem run_gsea_pipeline_command_aborts (input_weight_dir : string) (z_dim_ : Z)
      (dataset_name_ : string) (num_perm : Z) (shuffled_true_ : bool)
      (algorithms distrib_methods : list string) (translate : bool)
      (gene_sets : string) (processed rest : list (string * string))
      (seed file : string) (e : exn) :
    let run sf := run_seed read_table int_of_str read_genes col_mean col_std
                    run_gsea_prerank z_dim_ dataset_name_ num_perm shuffled_true_
                    algorithms distrib_methods translate gene_sets sf.1 sf.2 in
    weight_matrices_of (glob (input_weight_dir +:+ "/*_weight_matrix*"))
      = Ok (processed ++ (seed, file) :: rest) →
    Forall (λ sf, ∃ df, run sf = Ok df) processed →
    run (seed, file) = Raise e →
    run_gsea_pipeline_command read_table int_of_str read_genes col_mean col_std
      run_gsea_prerank glob input_weight_dir z_dim_ dataset_name_ num_perm
      shuffled_true_ algorithms distrib_methods translate gene_sets
    = Raise e.
Proof.
    intros run Hwm Hdone Hfail. rewrite run_gsea_pipeline_command_unfold, Hwm.
    cbn [mbind result_bind]. fold run.
    by rewrite (map_result_raise run processed rest (seed, file) e).
Qed.

  (** Without any weight file in the directory the command raises the
      [ValueError] of [pd.concat] on an empty list.  When it returns, the
      table was written to [results/gsea/gsea_results_<dataset>_zdim_<z>.tsv]
      with the dataset name as passed, and it is the concatenation of the
      tables of all seeds, every one of which was processed. *)
Theorem run_gsea_pipeline_command_output (input_weight_dir : string) (z_dim_ : Z)
      (dataset_name_ : string) (num_perm : Z) (shuffled_true_ : bool)
      (algorithms distrib_methods : list string) (translate : bool)
      (gene_sets : string) :
    let run sf := run_seed read_table int_of_str read_genes col_mean col_std
                    run_gsea_prerank z_dim_ dataset_name_ num_perm shuffled_true_
                    algorithms distrib_methods translate gene_sets sf.1 sf.2 in
    let command := run_gsea_pipeline_command read_table int_of_str read_genes
                     col_mean col_std run_gsea_prerank glob input_weight_dir z_dim_
                     dataset_name_ num_perm shuffled_true_ algorithms
                     distrib_methods translate gene_sets in
    (glob (input_weight_dir +:+ "/*_weight_matrix*") = [] →
     command = Raise (ValueError "No objects to concatenate")) ∧
    (∀ path table, command = Ok (path, table) →
       path = "results/gsea/gsea_results_" +:+ dataset_name_ +:+ "_zdim_" +:+
              pretty z_dim_ +:+ ".tsv" ∧
       ∃ wm dfs,
         weight_matrices_of (glob (input_weight_dir +:+ "/*_weight_matrix*")) = Ok wm ∧
         Forall2 (λ sf df, run sf = Ok df) wm dfs ∧
         pd_concat dfs = Ok table).
Proof.
    intros run command. unfold command. rewrite run_gsea_pipeline_command_unfold.
    fold run. split.
    - by intros ->.
    - intros path table Hcmd.
      destruct (weight_matrices_of _) as [wm|] eqn:Hwm; [|done].
      cbn [mbind result_bind] in Hcmd.
      destruct (map_result run wm) as [dfs|] eqn:Hdfs; [|done].
      cbn [mbind result_bind] in Hcmd.
      destruct (pd_concat dfs) as [t|] eqn:Hcat; [|done].
      cbn [mbind result_bind] in Hcmd. injection Hcmd as <- <-.
      split; [done|]. exists wm, dfs. split; [done|]. split; [|done].
      clear Hwm Hcat. revert dfs Hdfs.
      induction wm as [|sf wm IH]; intros dfs Hdfs.
      + injection Hdfs as <-. apply Forall2_nil_2.
      + cbn [map_result] in Hdfs. destruct (run sf) as [df|] eqn:Hsf; [|done].
        cbn [mbind result_bind] in Hdfs.
        destruct (map_result run wm) as [dfs'|]; [|done].
        cbn [mbind result_bind] in Hdfs. injection Hdfs as <-.
        constructor; [done|]. by apply IH.
Qed.
End PipelineProperties.

Lemma run_gsea_pipeline_command_aborts_witness :
  run_gsea_pipeline_command Examples.second_unreadable Reference.int_of_str
    Examples.gene_table_url Reference.col_mean Reference.col_std
    Reference.run_gsea_prerank Examples.two_seed_glob "w" 1 "tcga" 15 false
    ["pca"] ["full"] false "KEGG_2016"
  = Raise (IOError "cannot read").
Proof.
  apply (run_gsea_pipeline_command_aborts Examples.second_unreadable
           Reference.int_of_str Examples.gene_table_url Reference.col_mean
           Reference.col_std Reference.run_gsea_prerank Examples.two_seed_glob
           "w" 1 "tcga" 15 false ["pca"] ["full"] false "KEGG_2016"
           [("1", "w/model_1_weight_matrix.tsv")] []
           "2" "w/model_2_weight_matrix.tsv" (IOError "cannot read")).
  - vm_compute. reflexivity.
  - constructor; [|constructor]. cbn [fst snd].
    destruct (run_seed Examples.second_unreadable Reference.int_of_str
                Examples.gene_table_url Reference.col_mean Reference.col_std
                Reference.run_gsea_prerank 1 "tcga" 15 false ["pca"] ["full"]
                false "KEGG_2016" "1" "w/model_1_weight_matrix.tsv")
      as [df|e] eqn:Hrun.
    + by exists df.
    + vm_compute in Hrun. discriminate Hrun.
  - vm_compute. reflexivity.
Defined.

Lemma run_gsea_pipeline_command_output_witness :
  run_gsea_pipeline_command Examples.second_unreadable Reference.int_of_str
    Examples.gene_table_url Reference.col_mean Reference.col_std
    Reference.run_gsea_prerank Examples.empty_glob "w" 1 "tcga" 15 false
    ["pca"] ["full"] false "KEGG_2016"
  = Raise (ValueError "No objects to concatenate").
Proof.
  exact (proj1 (run_gsea_pipeline_command_output Examples.second_unreadable
                  Reference.int_of_str Examples.gene_table_url Reference.col_mean
                  Reference.col_std Reference.run_gsea_prerank Examples.empty_glob
                  "w" 1 "tcga" 15 false ["pca"] ["full"] false "KEGG_2016")
           eq_refl).
Defined.

(** ** Feature selection *)

(** For the column mask that the aggregator computes for an algorithm token
    without regular expression operators, a feature index from [range]
    selects the column at that position among the columns whose name
    contains the token, with the row keys of the frame; an index at or
    beyond the number of such columns (a [z_dim] larger than the number of
    features of the algorithm) is an [IndexError]. *)
Theorem _get_compressed_feature_by_algorithm (weight_df : DataFrame)
    (alg : string) (current_z : Z) :
  literal alg = true →
  (0 ≤ current_z)%Z →
  let matching := filter (λ nc : string * list cell, str_contains alg nc.1 = true)
                    (columns weight_df) in
  _get_compressed_feature weight_df
    (map (λ nc : string * list cell, str_contains alg nc.1) (columns weight_df))
    current_z
  = match matching !! Z.to_nat current_z with
    | Some nc => Ok {| s_index := index weight_df; s_name := nc.1; s_values := nc.2 |}
    | None => Raise (IndexError "single positional indexer is out-of-bounds")
    end ∧
  (∀ nc, matching !! Z.to_nat current_z = Some nc →
         ∃ pre post, nc.1 = pre +:+ alg +:+ post) ∧
  ((Z.of_nat (length matching) ≤ current_z)%Z →
   matching !! Z.to_nat current_z = None).
Proof.
  intros _ Hz matching. split; [|split].
  - unfold _get_compressed_feature.
    rewrite decide_True by (by rewrite length_map).
    destruct (decide (current_z < 0)) as [?|_]; [lia|].
    rewrite decide_False by lia. by rewrite mask_select_map.
  - intros nc Hnc. apply list_elem_of_lookup_2 in Hnc.
    apply list_elem_of_filter in Hnc as [Hnc _]. by apply str_contains_spec.
  - intros Hlen. apply lookup_ge_None. lia.
Qed.

Lemma _get_compressed_feature_by_algorithm_witness :
  _get_compressed_feature (to_frame Examples.mixed_case_matrix)
    (map (λ nc : string * list cell, str_contains "pca" nc.1)
       (columns (to_frame Examples.mixed_case_matrix))) 0
  = Ok {| s_index := [VInt 5; VInt 7]; s_name := "pca_1";
          s_values := [CNum 0.5; CNum 2]%float |} ∧
  _get_compressed_feature (to_frame Examples.mixed_case_matrix)
    (map (λ nc : string * list cell, str_contains "pca" nc.1)
       (columns (to_frame Examples.mixed_case_matrix))) 1
  = Raise (IndexError "single positional indexer is out-of-bounds").
Proof.
  split.
  - exact (proj1 (_get_compressed_feature_by_algorithm
                    (to_frame Examples.mixed_case_matrix) "pca" 0 eq_refl
                    ltac:(lia))).
  - exact (proj1 (_get_compressed_feature_by_algorithm
                    (to_frame Examples.mixed_case_matrix) "pca" 1 eq_refl
                    ltac:(lia))).
Defined.

(** ** Gene set files *)

Lemma endswith_spec (suffix s : string) :
  endswith suffix s = true ↔ ∃ pre, s = pre +:+ suffix.
Proof.
  induction s as [|c s IH]; cbn [endswith].
  - destruct (decide ("" = suffix)) as [<-|Hne].
    + split; [by exists ""|done].
    + split; [done|]. intros [[|c pre] Hpre]; simpl in Hpre; [done|discriminate].
  - destruct (decide (String c s = suffix)) as [<-|Hne].
    + split; [by exists ""|done].
    + rewrite IH. split.
      * intros [pre ->]. by exists (String c pre).
      * intros [[|c' pre] Hpre]; simpl in Hpre; [done|].
        injection Hpre as -> ->. by exists pre.
Qed.

Lemma rstrip_newline (s : string) : rstrip (s +:+ String newline "") = rstrip s.
Proof.
  induction s as [|c s IH]; [reflexivity|].
  change (String c s +:+ String newline "") with (String c (s +:+ String newline "")).
  cbn [rstrip]. by rewrite IH.
Qed.

Lemma rstrip_no_space (s : string) : has_space s = false → rstrip s = s.
Proof.
  induction s as [|c s IH]; [done|]. cbn [has_space rstrip].
  intros [Hc Hs]%orb_false_iff. rewrite (IH Hs). destruct s; [by rewrite Hc|done].
Qed.

Lemma rstrip_cons (c : ascii) (s : string) :
  rstrip s = s → s ≠ "" → rstrip (String c s) = String c s.
Proof. intros Hs Hne. cbn [rstrip]. rewrite Hs. by destruct s. Qed.

Lemma rstrip_app (a b : string) :
  rstrip b = b → b ≠ "" → rstrip (a +:+ b) = a +:+ b.
Proof.
  intros Hb Hne. induction a as [|c a IH]; [done|].
  change (String c a +:+ b) with (String c (a +:+ b)).
  apply rstrip_cons; [done|]. by destruct a.
Qed.

Lemma clean_no_tab (s : string) : has_space s = false → contains_char tab s = false.
Proof.
  induction s as [|c s IH]; [done|]. cbn [has_space contains_char].
  intros [Hc Hs]%orb_false_iff. destruct (decide (c = tab)) as [->|_]; [done|auto].
Qed.

Lemma rstrip_join (fields : list string) (final : string) :
  last fields = Some final → clean final →
  rstrip (join tab fields) = join tab fields ∧ join tab fields ≠ "".
Proof.
  intros Hlast (Hne & Hsp & _).
  induction fields as [|f [|g fs] IH]; [done| |].
  - injection Hlast as ->. cbn [join]. split; [by apply rstrip_no_space|done].
  - destruct IH as [IH1 IH2]; [done|].
    change (join tab (f :: g :: fs)) with (f +:+ String tab (join tab (g :: fs))).
    split.
    + apply rstrip_app; [|done]. by apply rstrip_cons.
    + by destruct f.
Qed.

Lemma lstrip_join (name : string) (fields : list string) :
  clean name →
  lstrip (join tab (name :: fields) +:+ String newline "")
  = join tab (name :: fields) +:+ String newline "".
Proof.
  intros (Hne & Hsp & _). destruct name as [|c name]; [done|].
  cbn [has_space] in Hsp. apply orb_false_iff in Hsp as [Hc _].
  destruct fields; cbn [join]; simpl; by rewrite Hc.
Qed.

Lemma split_on_join (fields : list string) :
  fields ≠ [] → Forall (λ f, contains_char tab f = false) fields →
  split_on tab (join tab fields) = fields.
Proof.
  intros Hne Hall. induction fields as [|f [|g fs] IH]; [done| |].
  - cbn [join]. apply split_on_no_sep. by apply Forall_inv in Hall.
  - change (join tab (f :: g :: fs)) with (f +:+ String tab (join tab (g :: fs))).
    rewrite split_on_app by (by apply Forall_inv in Hall).
    rewrite IH; [done|done|by apply Forall_inv_tail in Hall].
Qed.

Lemma gmt_entry_line (r : gmt_record) :
  well_formed r → gmt_entry (gmt_line r.1.1 r.1.2 r.2) = Ok (r.1.1, r.2).
Proof.
  destruct r as [[name description] genes]. cbn [fst snd].
  intros (Hname & Hdesc & Hgenes & Hne). cbn [fst snd] in *.
  unfold gmt_entry, gmt_line, strip. rewrite lstrip_join by done.
  rewrite rstrip_newline.
  assert (∃ final, last (name :: description :: genes) = Some final ∧ clean final)
    as (final & Hlast & Hfinal).
  { destruct (last genes) as [final|] eqn:Hl.
    - exists final. split.
      + rewrite !last_cons. by rewrite Hl.
      + rewrite Forall_forall in Hgenes. apply Hgenes.
        apply last_Some in Hl as [l' ->]. apply elem_of_app. right. apply list_elem_of_here.
    - apply last_None in Hl. done. }
  destruct (rstrip_join _ _ Hlast Hfinal) as [-> _].
  rewrite split_on_join; [done|done|].
  apply Forall_cons_2; [apply clean_no_tab, Hname|].
  apply Forall_cons_2; [done|].
  eapply Forall_impl; [exact Hgenes|]. intros g (_ & Hg & _). by apply clean_no_tab.
Qed.

Lemma gmt_entry_total (line : string) :
  gmt_entry line
  = Ok (default "" (head (split_on tab (strip line))),
        drop 2 (split_on tab (strip line))).
Proof.
  unfold gmt_entry. pose proof (split_on_nonempty tab (strip line)).
  by destruct (split_on tab (strip line)).
Qed.

Lemma map_result_total {A B} (f : A → result B) (g : A → B) (xs : list A) :
  (∀ x, x ∈ xs → f x = Ok (g x)) → map_result f xs = Ok (map g xs).
Proof.
  induction xs as [|x xs IH]; intros Hf; [done|]. cbn [map_result map].
  rewrite Hf by apply list_elem_of_here. cbn [mbind result_bind].
  rewrite IH; [done|]. intros y Hy. apply Hf. by apply list_elem_of_further.
Qed.

Lemma dict_of_entries {A V} (f : A → result (string * V)) (g : A → string * V)
    (xs : list A) (d0 : list (string * V)) :
  (∀ x, x ∈ xs → f x = Ok (g x)) → NoDup d0.*1 →
  ∃ d, for_each (λ (d : list (string * V)) x,
                   '(k, v) ← f x; Ok (dict_set k v d)) xs d0 = Ok d ∧
       NoDup d.*1 ∧
       ∀ k, assoc k d = match last (filter (λ x, (g x).1 = k) xs) with
                        | Some x => Some (g x).2
                        | None => assoc k d0
                        end.
Proof.
  revert d0. induction xs as [|x xs IH]; intros d0 Hf Hnd.
  - by exists d0.
  - cbn [for_each]. rewrite Hf by apply list_elem_of_here.
    cbn [mbind result_bind]. destruct (g x) as [k0 v0] eqn:Hgx.
    destruct (IH (dict_set k0 v0 d0)) as (d & Hd & Hnd' & Hassoc).
    { intros y Hy. apply Hf. by apply list_elem_of_further. }
    { by apply dict_set_NoDup. }
    exists d. split; [done|]. split; [done|].
    intros k. rewrite Hassoc, filter_cons, Hgx. cbn [fst]. rewrite assoc_dict_set.
    destruct (last (filter (λ x, (g x).1 = k) xs)) as [y|] eqn:Hlast.
    + destruct (decide (k0 = k)); [|by rewrite Hlast].
      rewrite last_cons_nonempty; [by rewrite Hlast|].
      intros Hnil. by rewrite Hnil in Hlast.
    + destruct (decide (k0 = k)) as [->|Hne].
      * apply last_None in Hlast. rewrite Hlast. cbn [last].
        rewrite Hgx. cbn [snd]. by rewrite decide_True.
      * rewrite Hlast. by rewrite decide_False.
Qed.

Section GeneSetFileProperties.
Variable read_lines : string → result (list string).

(** [load_gmt] on a file of well-formed lines (a name without white space, a
    description, at least one gene, genes without white space) reads back
    the gene sets that the lines state: every name is a key once, and it
    maps to the genes of the last line that carries the name. *)
Theorem load_gmt_well_formed (path : string) (records : list gmt_record) :
  Forall well_formed records →
  read_lines path = Ok (map (λ r : gmt_record, gmt_line r.1.1 r.1.2 r.2) records) →
  ∃ d, load_gmt read_lines path = Ok d ∧
       NoDup d.*1 ∧
       ∀ name, assoc name d
               = snd <$> last (filter (λ r : gmt_record, r.1.1 = name) records).
Proof.
  intros Hwf Hread. unfold load_gmt. rewrite Hread. cbn [mbind result_bind].
  destruct (dict_of_entries gmt_entry
              (λ line, (default "" (head (split_on tab (strip line))),
                        drop 2 (split_on tab (strip line))))
              (map (λ r : gmt_record, gmt_line r.1.1 r.1.2 r.2) records) [])
    as (d & Hd & Hnd & Hassoc).
  { intros line _. apply gmt_entry_total. }
  { apply NoDup_nil_2. }
  exists d. split; [exact Hd|]. split; [exact Hnd|].
  intros name. rewrite Hassoc. clear Hd Hnd Hassoc Hread.
  assert (∀ r, r ∈ records →
            (default "" (head (split_on tab (strip (gmt_line r.1.1 r.1.2 r.2)))),
             drop 2 (split_on tab (strip (gmt_line r.1.1 r.1.2 r.2))))
            = (r.1.1, r.2)) as Hline.
  { intros r Hr. rewrite Forall_forall in Hwf.
    pose proof (gmt_entry_line r (Hwf r Hr)) as He.
    rewrite gmt_entry_total in He. by injection He as -> ->. }
  clear Hwf. induction records as [|r records IH] using rev_ind; [done|].
  rewrite map_app, !filter_app. cbn [map]. rewrite !filter_cons, !filter_nil.
  rewrite Hline by (apply elem_of_app; right; apply list_elem_of_here).
  cbn [fst]. destruct (decide (r.1.1 = name)) as [Hn|Hn].
  - rewrite !last_snoc. rewrite Hline by (apply elem_of_app; right; apply list_elem_of_here).
    done.
  - rewrite !app_nil_r. apply IH. intros r' Hr'. apply Hline, elem_of_app. by left.
Qed.

(** [load_gmt] raises only what opening and reading the file raises: a line
    with fewer than three fields is no error.  A line of ASCII text that
    holds no tab once stripped makes its stripped text the name of a gene
    set, without genes when the line is the last of the file; in particular
    a blank line defines the gene set named by the empty string. *)
Theorem load_gmt_short_lines (path : string) :
  (∀ e, read_lines path = Raise e → load_gmt read_lines path = Raise e) ∧
  (∀ lines, read_lines path = Ok lines →
     ∃ d, load_gmt read_lines path = Ok d ∧
          ∀ line, line ∈ lines → ascii_text line = true →
                  contains_char tab (strip line) = false →
                  strip line ∈ d.*1 ∧
                  (last lines = Some line → assoc (strip line) d = Some [])).
Proof.
  split.
  - intros e He. unfold load_gmt. by rewrite He.
  - intros lines Hread. unfold load_gmt. rewrite Hread. cbn [mbind result_bind].
    destruct (dict_of_entries gmt_entry
                (λ line, (default "" (head (split_on tab (strip line))),
                          drop 2 (split_on tab (strip line))))
                lines [])
      as (d & Hd & Hnd & Hassoc).
    { intros line _. apply gmt_entry_total. }
    { apply NoDup_nil_2. }
    exists d. split; [exact Hd|].
    intros line Hin _ Htab.
    assert (∀ k, k ∈ d.*1 ↔ is_Some (assoc k d)) as Hkeys.
    { clear. intros k. induction d as [|[k0 v0] d IH].
      - split; [by intros ?%elem_of_nil|by intros [? ?]].
      - cbn [fmap list_fmap fst assoc]. fold (d.*1).
        destruct (decide (k0 = k)) as [->|Hne].
        + split; [by eexists|intros _; apply list_elem_of_here].
        + rewrite elem_of_cons, IH. naive_solver. }
    pose proof (split_on_no_sep tab (strip line) Htab) as Hsplit.
    split.
    + apply Hkeys. rewrite Hassoc.
      destruct (last (filter _ lines)) as [x|] eqn:Hlast; [by eexists|].
      apply last_None in Hlast.
      assert (line ∈ filter
                (λ x, (default "" (head (split_on tab (strip x))),
                       drop 2 (split_on tab (strip x))).1 = strip line) lines) as Hf.
      { apply list_elem_of_filter. split; [|done]. cbn [fst]. by rewrite Hsplit. }
      rewrite Hlast in Hf. by apply elem_of_nil in Hf.
    + intros Hl. rewrite Hassoc. apply last_Some in Hl as [l' ->].
      rewrite filter_app, filter_cons, filter_nil. cbn [fst]. rewrite Hsplit.
      cbn [head default]. rewrite decide_True by done. rewrite last_snoc.
      cbn [snd]. by rewrite Hsplit.
Qed.

End GeneSetFileProperties.

Lemma lookup_union_list_first {V} (ds : list (gmap string V)) (k : string) :
  (⋃ ds) !! k = head (omap (λ d : gmap string V, d !! k) ds).
Proof.
  induction ds as [|d ds IH]; [done|]. cbn [union_list foldr omap list_omap].
  destruct (d !! k) as [v|] eqn:Hd.
  - cbn [head]. by rewrite lookup_union_l' by (by eexists).
  - by rewrite lookup_union_r.
Qed.

Lemma map_result_Forall2 {A B} (f : A → result B) (xs : list A) (ys : list B) :
  map_result f xs = Ok ys → Forall2 (λ x y, f x = Ok y) xs ys.
Proof.
  revert ys. induction xs as [|x xs IH]; intros ys H.
  - injection H as <-. constructor.
  - cbn [map_result] in H. destruct (f x) as [y|] eqn:Hy; [|done].
    cbn [mbind result_bind] in H. destruct (map_result f xs) as [ys'|]; [|done].
    cbn [mbind result_bind] in H. injection H as <-. constructor; [done|by apply IH].
Qed.

Lemma last_filter_map {A B} (g : A → B) (P : B → Prop) `{∀ b, Decision (P b)}
    (xs : list A) :
  last (filter P (map g xs)) = g <$> last (filter (λ x, P (g x)) xs).
Proof.
  induction xs as [|x xs IH] using rev_ind; [done|].
  rewrite map_app, !filter_app. cbn [map]. rewrite !filter_cons, !filter_nil.
  destruct (decide (P (g x))).
  - by rewrite !last_snoc.
  - by rewrite !app_nil_r.
Qed.

Lemma gmt_comprehension_total (lines : list string) :
  ∃ g, gmt_comprehension lines = Ok g.
Proof.
  unfold gmt_comprehension.
  rewrite (map_result_total gmt_entry _ lines (λ x _, gmt_entry_total x)).
  by eexists.
Qed.

Section GeneSetDictionaries.
Variable read_lines : string → result (list string).

Lemma parse_gmt_loop (paths : list string) (acc : list (gmap string (list string))) :
  for_each (λ (acc : list (gmap string (list string))) gene_set,
              if endswith ".gmt" (lower gene_set) then
                lines ← read_lines gene_set;
                d ← gmt_comprehension lines;
                Ok (acc ++ [d])
              else Ok acc) paths acc
  = (ds ← map_result (λ p, lines ← read_lines p; gmt_comprehension lines)
            (filter is_gmt paths);
     Ok (acc ++ ds)).
Proof.
  revert acc. induction paths as [|p paths IH]; intros acc.
  - cbn. by rewrite app_nil_r.
  - cbn [for_each]. rewrite filter_cons.
    destruct (decide (is_gmt p)) as [Hp|Hp]; unfold is_gmt in Hp.
    + rewrite Hp. cbn [map_result].
      destruct (read_lines p) as [lines|e]; [|done]. cbn [mbind result_bind].
      destruct (gmt_comprehension lines) as [d|e]; [|done]. cbn [mbind result_bind].
      rewrite IH. destruct (map_result _ (filter is_gmt paths)); [|done].
      cbn [mbind result_bind]. by rewrite <- app_assoc.
    + apply not_true_is_false in Hp. rewrite Hp. cbn [mbind result_bind]. apply IH.
Qed.

Lemma parse_gmt_unfold (paths : list string) :
  parse_gmt read_lines paths
  = (ds ← map_result (λ p, lines ← read_lines p; gmt_comprehension lines)
            (filter is_gmt paths);
     Ok (⋃ ds)).
Proof. unfold parse_gmt. rewrite parse_gmt_loop. by destruct (map_result _ _). Qed.

Lemma gmt_comprehension_load (path : string) (g : gmap string (list string)) :
  (lines ← read_lines path; gmt_comprehension lines) = Ok g →
  ∃ d, load_gmt read_lines path = Ok d ∧ ∀ k, g !! k = assoc k d.
Proof.
  unfold load_gmt. destruct (read_lines path) as [lines|]; [|done].
  cbn [mbind result_bind]. unfold gmt_comprehension.
  set (entry := λ line, (default "" (head (split_on tab (strip line))),
                         drop 2 (split_on tab (strip line)))).
  rewrite (map_result_total gmt_entry entry) by (intros; apply gmt_entry_total).
  cbn [mbind result_bind]. intros [= <-].
  destruct (dict_of_entries gmt_entry entry lines []) as (d & Hd & _ & Hassoc).
  { intros; apply gmt_entry_total. }
  { apply NoDup_nil_2. }
  exists d. split; [exact Hd|]. intros k.
  rewrite Hassoc, py_dict_lookup, (last_filter_map entry (λ kv, kv.1 = k)).
  by destruct (last (filter _ lines)).
Qed.

(** [parse_gmt] returns, for every name, the genes that [load_gmt] reads for
    it from the first listed file with the extension [.gmt] (in any case of
    the letters) that states the name; files are read in the order listed
    and every such file was read. *)
Theorem parse_gmt_first_file_wins (gene_sets : list string)
    (m : gmap string (list string)) :
  parse_gmt read_lines gene_sets = Ok m →
  ∃ dicts,
    Forall2 (λ path d, load_gmt read_lines path = Ok d)
      (filter is_gmt gene_sets) dicts ∧
    ∀ name, m !! name = head (omap (assoc name) dicts).
Proof.
  rewrite parse_gmt_unfold.
  destruct (map_result _ (filter is_gmt gene_sets)) as [ds|] eqn:Hds; [|done].
  cbn [mbind result_bind]. intros [= <-].
  apply map_result_Forall2 in Hds.
  assert (∃ dicts, Forall2 (λ path d, load_gmt read_lines path = Ok d)
                     (filter is_gmt gene_sets) dicts ∧
                   Forall2 (λ (g : gmap string (list string)) d,
                              ∀ k, g !! k = assoc k d) ds dicts)
    as (dicts & Hload & Hsame).
  { induction Hds as [|p g ps gs Hp _ IH].
    - exists []. split; constructor.
    - destruct IH as (dicts & Hl & Hs).
      apply gmt_comprehension_load in Hp as (d & Hd & Hgd).
      exists (d :: dicts). split; by constructor. }
  exists dicts. split; [exact Hload|].
  intros name. rewrite lookup_union_list_first. clear Hload Hds.
  induction Hsame as [|g d gs dicts Hgd _ IH]; [done|].
  cbn [omap list_omap]. rewrite Hgd. destruct (assoc name d); [done|exact IH].
Qed.

(** [parse_gmt] opens only the paths that end in [.gmt]: its result does not
    depend on what any other path holds or on whether it can be read, and a
    list without such a path (for instance a library keyword) gives the
    empty dictionary. *)
Theorem parse_gmt_opens_only_gmt (other_files : string → result (list string))
    (gene_sets : list string) :
  (∀ path, is_gmt path → other_files path = read_lines path) →
  parse_gmt other_files gene_sets = parse_gmt read_lines gene_sets ∧
  (Forall (λ path, ¬ is_gmt path) gene_sets →
   parse_gmt read_lines gene_sets = Ok ∅).
Proof.
  intros Hagree. split.
  - unfold parse_gmt. f_equal.
    apply for_each_ext. intros acc path _.
    destruct (endswith ".gmt" (lower path)) eqn:Hp; [|done].
    by rewrite Hagree.
  - intros Hnone. rewrite parse_gmt_unfold.
    assert (filter is_gmt gene_sets = []) as ->; [|done].
    induction Hnone as [|p ps Hp _ IH]; [done|].
    rewrite filter_cons. by rewrite decide_False.
Qed.

(** A [.gmt] file that cannot be read aborts [parse_gmt] with the exception
    of the reader: the gene sets of the files read before it are not
    returned. *)
Theorem parse_gmt_unreadable (before after : list string) (path : string) (e : exn) :
  Forall (λ p, is_gmt p → ∃ lines, read_lines p = Ok lines) before →
  is_gmt path → read_lines path = Raise e →
  parse_gmt read_lines (before ++ path :: after) = Raise e.
Proof.
  intros Hbefore Hgmt Hread. rewrite parse_gmt_unfold.
  rewrite filter_app, filter_cons, decide_True by done.
  destruct (map_result (λ p, lines ← read_lines p; gmt_comprehension lines)
              (filter is_gmt before)) as [ds|e'] eqn:Hds.
  - rewrite (map_result_raise _ (filter is_gmt before) (filter is_gmt after) path e);
      [done| |by rewrite Hread].
    apply map_result_Forall2 in Hds. clear -Hds.
    induction Hds; constructor; eauto.
  - exfalso. clear -Hbefore Hds.
    induction Hbefore as [|p ps Hp _ IH]; [done|].
    rewrite filter_cons in Hds. destruct (decide (is_gmt p)) as [Hg|]; [|auto].
    cbn [map_result] in Hds. destruct (Hp Hg) as [lines Hl]. rewrite Hl in Hds.
    cbn [mbind result_bind] in Hds.
    destruct (gmt_comprehension_total lines) as [g Hcomp]. rewrite Hcomp in Hds.
    cbn [mbind result_bind] in Hds.
    destruct (map_result _ (filter is_gmt ps)); [done|]. apply IH.
    cbn [mbind result_bind] in Hds. congruence.
Qed.

End GeneSetDictionaries.

Lemma load_gmt_well_formed_witness :
  ∃ d, load_gmt GmtExamples.disk "sets/hallmark.gmt" = Ok d ∧
       assoc "SET_A" d = Some ["EGFR"] ∧ assoc "SET_B" d = Some ["MYC"] ∧
       assoc "SET_C" d = None.
Proof.
  assert (Forall well_formed GmtExamples.hallmark_records) as Hwf.
  { unfold GmtExamples.hallmark_records, well_formed, clean.
    repeat (first [apply Forall_cons_2 | apply Forall_nil_2]); cbn [fst snd];
      repeat split; try done;
      repeat (first [apply Forall_cons_2 | apply Forall_nil_2]); repeat split; done. }
  destruct (load_gmt_well_formed GmtExamples.disk "sets/hallmark.gmt"
              GmtExamples.hallmark_records Hwf eq_refl) as (d & Hd & _ & Hassoc).
  exists d. split; [exact Hd|].
  split; [exact (Hassoc "SET_A")|]. split; [exact (Hassoc "SET_B")|exact (Hassoc "SET_C")].
Defined.

Lemma load_gmt_short_lines_witness :
  load_gmt GmtExamples.disk "sets/missing.gmt" = Raise (IOError "sets/missing.gmt") ∧
  ∃ d, load_gmt GmtExamples.disk "sets/blank.gmt" = Ok d ∧
       "ONLY_A_NAME" ∈ d.*1 ∧ assoc "" d = Some [].
Proof.
  destruct (load_gmt_short_lines GmtExamples.disk "sets/missing.gmt") as [Hraise _].
  split; [exact (Hraise _ eq_refl)|].
  destruct (load_gmt_short_lines GmtExamples.disk "sets/blank.gmt") as [_ Hok].
  destruct (Hok _ eq_refl) as (d & Hd & Hlines).
  exists d. split; [exact Hd|]. split.
  - refine (proj1 (Hlines ("ONLY_A_NAME" +:+ String newline "") _ eq_refl eq_refl)).
    apply elem_of_app. right. apply list_elem_of_here.
  - refine (proj2 (Hlines (String newline "") _ eq_refl eq_refl) eq_refl).
    apply elem_of_app. right. apply list_elem_of_further, list_elem_of_here.
Defined.

Lemma parse_gmt_first_file_wins_witness :
  ∃ m, parse_gmt GmtExamples.disk
         ["sets/hallmark.gmt"; "KEGG_2016"; "sets/KEGG.GMT"] = Ok m ∧
       m !! "SET_A" = Some ["EGFR"] ∧ m !! "SET_B" = Some ["MYC"] ∧
       m !! "SET_C" = Some ["PTEN"].
Proof.
  destruct (parse_gmt GmtExamples.disk
              ["sets/hallmark.gmt"; "KEGG_2016"; "sets/KEGG.GMT"]) as [m|e] eqn:Hm.
  - exists m. split; [reflexivity|].
    destruct (parse_gmt_first_file_wins GmtExamples.disk _ m Hm)
      as (dicts & Hload & Hlookup).
    rewrite !Hlookup.
    change (filter is_gmt ["sets/hallmark.gmt"; "KEGG_2016"; "sets/KEGG.GMT"])
      with ["sets/hallmark.gmt"; "sets/KEGG.GMT"] in Hload.
    apply Forall2_cons_inv_l in Hload as (d1 & dicts' & Hd1 & Hload & ->).
    apply Forall2_cons_inv_l in Hload as (d2 & dicts'' & Hd2 & Hload & ->).
    apply Forall2_nil_inv_l in Hload as ->.
    vm_compute in Hd1. injection Hd1 as <-.
    vm_compute in Hd2. injection Hd2 as <-.
    repeat split; reflexivity.
  - vm_compute in Hm. discriminate Hm.
Defined.

Lemma parse_gmt_opens_only_gmt_witness :
  parse_gmt (λ path, if decide (path = "KEGG_2016") then Ok ["not a gene set file"]
                     else GmtExamples.disk path)
    ["sets/hallmark.gmt"; "KEGG_2016"]
  = parse_gmt GmtExamples.disk ["sets/hallmark.gmt"; "KEGG_2016"] ∧
  parse_gmt GmtExamples.disk ["KEGG_2016"; "sets/hallmark.tsv"] = Ok ∅.
Proof.
  split.
  - refine (proj1 (parse_gmt_opens_only_gmt GmtExamples.disk _ _ _)).
    intros path Hpath. destruct (decide (path = "KEGG_2016")) as [->|]; [|done].
    vm_compute in Hpath. discriminate Hpath.
  - refine (proj2 (parse_gmt_opens_only_gmt GmtExamples.disk GmtExamples.disk _
                     (λ _ _, eq_refl)) _).
    repeat (first [apply Forall_cons_2 | apply Forall_nil_2]);
      intros H; vm_compute in H; discriminate H.
Defined.

Lemma parse_gmt_unreadable_witness :
  parse_gmt GmtExamples.disk ["sets/hallmark.gmt"; "sets/missing.gmt"; "sets/KEGG.GMT"]
  = Raise (IOError "sets/missing.gmt").
Proof.
  apply (parse_gmt_unreadable GmtExamples.disk ["sets/hallmark.gmt"] ["sets/KEGG.GMT"]
           "sets/missing.gmt").
  - apply Forall_cons_2; [|apply Forall_nil_2]. intros _. by eexists.
  - reflexivity.
  - reflexivity.
Defined.

(** * Further claims of the specification *)

(** ** Gene identifier translation: namespaces *)

Section TranslatorNamespaces.
Variable read_genes : string → result (list gene_row).

Lemma translate_valid_outcome (self : latentModel) (gene_list : list pyval)
      (translate_from translate_to : string) (hash : option string) :
    translate_from ∈ choices → translate_to ∈ choices →
    (translate_gene_ids read_genes self gene_list translate_from translate_to hash).2
    = (table ← dictionary_in_effect read_genes self hash;
       Ok (map (translate_one table translate_from translate_to) gene_list)).
Proof.
    intros Hfrom Hto. unfold translate_gene_ids, dictionary_in_effect.
    rewrite bool_decide_eq_false_2 by tauto.
    destruct (is_gene_dictionary_loaded self) eqn:Hloaded.
    - cbn [snd mbind result_bind].
      destruct (gene_dictionary_df self) as [table|]; [|done].
      cbn [from_attr mbind result_bind].
      rewrite !gene_column_valid by done. cbn [mbind result_bind].
      f_equal. apply map_ext. intros g. apply gene_mapper_lookup.
    - unfold _load_gene_dict.
      destruct (read_genes (genes_url (default default_hash hash))) as [raw|e]; [|done].
      cbn [snd mbind result_bind set_gene_dictionary gene_dictionary_df from_attr].
      rewrite !gene_column_valid by done. cbn [mbind result_bind].
      f_equal. apply map_ext. intros g. apply gene_mapper_lookup.
Qed.

  (** C7: [translate_gene_ids] raises the invalid-namespace error exactly
      when the source or the target namespace is not one of
      [entrez_gene_id] and [symbol] (the reader of the gene table raising
      errors of its own, not this one); with valid namespaces and a
      dictionary at hand, an identifier that the dictionary does not hold
      is translated to the missing-value marker, without error, and every
      other identifier to the value its dictionary row gives. *)
Theorem translate_gene_ids_namespaces (self : latentModel) (gene_list : list pyval)
      (translate_from translate_to : string) (hash : option string) :
    (∀ url, read_genes url ≠ Raise invalid_namespace) →
    let translated :=
      (translate_gene_ids read_genes self gene_list translate_from translate_to
         hash).2 in
    (translated = Raise invalid_namespace ↔
     translate_from ∉ choices ∨ translate_to ∉ choices) ∧
    (translate_from ∈ choices → translate_to ∈ choices →
     ∀ table, dictionary_in_effect read_genes self hash = Ok table →
       ∃ out, translated = Ok out ∧ length out = length gene_list ∧
         ∀ i g, gene_list !! i = Some g →
           (g ∉ map (ns_value translate_from) table → out !! i = Some VNaN) ∧
           (∀ r, last (filter (λ r, ns_value translate_from r = g) table) = Some r →
                 out !! i = Some (ns_value translate_to r))).
Proof.
    intros Hreader translated. split.
    - split.
      + intros Hraise.
        destruct (decide (translate_from ∈ choices)) as [Hfrom|]; [|by left].
        destruct (decide (translate_to ∈ choices)) as [Hto|]; [|by right].
        exfalso. unfold translated in Hraise.
        rewrite translate_valid_outcome in Hraise by done.
        unfold dictionary_in_effect in Hraise.
        destruct (is_gene_dictionary_loaded self).
        * destruct (gene_dictionary_df self); cbn in Hraise; discriminate Hraise.
        * destruct (read_genes (genes_url (default default_hash hash))) as [raw|e] eqn:Hread.
          -- cbn in Hraise. discriminate Hraise.
          -- cbn in Hraise. apply (Hreader (genes_url (default default_hash hash))).
             rewrite Hread. by injection Hraise as ->.
      + intros Hbad. unfold translated, translate_gene_ids.
        by rewrite bool_decide_eq_true_2.
    - intros Hfrom Hto table Htable. unfold translated.
      rewrite translate_valid_outcome by done. rewrite Htable.
      cbn [mbind result_bind]. eexists. split; [reflexivity|].
      split; [by rewrite length_map|].
      intros i g Hg. rewrite lookup_map, Hg. cbn [fmap option_fmap option_map].
      unfold translate_one. split.
      + intros Habsent.
        rewrite filter_none; [done|].
        intros r Hr Heq. apply Habsent. rewrite <- Heq. by apply elem_of_map_intro.
      + by intros r ->.
Qed.

  (** C10: when a namespace is invalid, [translate_gene_ids] raises the
      invalid-namespace error and leaves the model as it was: the loaded flag
      and the dictionary keep their values, and nothing is fetched (the
      outcome is the same whatever the reader of the gene table would
      return), the namespace check coming before the lazy load. *)
Theorem translate_gene_ids_invalid_keeps_state (self : latentModel)
      (gene_list : list pyval) (translate_from translate_to : string)
      (hash : option string) :
    translate_from ∉ choices ∨ translate_to ∉ choices →
    let outcome :=
      translate_gene_ids read_genes self gene_list translate_from translate_to hash in
    outcome.2 = Raise invalid_namespace ∧
    outcome.1 = self ∧
    is_gene_dictionary_loaded outcome.1 = is_gene_dictionary_loaded self ∧
    gene_dictionary_df outcome.1 = gene_dictionary_df self ∧
    (∀ other_reader,
       translate_gene_ids other_reader self gene_list translate_from translate_to hash
       = outcome).
Proof.
    intros Hbad outcome. unfold outcome, translate_gene_ids.
    rewrite !bool_decide_eq_true_2 by done. cbn [fst snd].
    by split_and!.
Qed.
End TranslatorNamespaces.

Lemma ensembl_not_in_choices : "ensembl" ∉ choices.
Proof.
  intros Hin.
  apply elem_of_cons in Hin as [Heq|Hin]; [discriminate Heq|].
  apply elem_of_cons in Hin as [Heq|Hin]; [discriminate Heq|].
  by apply elem_of_nil in Hin.
Qed.

Lemma translate_gene_ids_namespaces_witness :
  (translate_gene_ids Examples.gene_table_url (Examples.model_of Examples.unit_matrix)
     [VInt 7157; VInt 1] "ensembl" "symbol" None).2 = Raise invalid_namespace ∧
  ∃ out,
    (translate_gene_ids Examples.gene_table_url (Examples.model_of Examples.unit_matrix)
       [VInt 7157; VInt 1] "entrez_gene_id" "symbol" None).2 = Ok out ∧
    out !! 0%nat = Some (VStr "TP53") ∧ out !! 1%nat = Some VNaN.
Proof.
  assert (∀ url, Examples.gene_table_url url ≠ Raise invalid_namespace) as Hreader
    by (intros url; discriminate).
  split.
  - apply (translate_gene_ids_namespaces Examples.gene_table_url
             (Examples.model_of Examples.unit_matrix) [VInt 7157; VInt 1]
             "ensembl" "symbol" None Hreader).
    left. exact ensembl_not_in_choices.
  - destruct (translate_gene_ids_namespaces Examples.gene_table_url
                (Examples.model_of Examples.unit_matrix) [VInt 7157; VInt 1]
                "entrez_gene_id" "symbol" None Hreader) as [_ Hvalid].
    destruct (Hvalid entrez_in_choices symbol_in_choices _ eq_refl)
      as (out & Hout & _ & Hitems).
    exists out. split; [exact Hout|]. split.
    + refine (proj2 (Hitems 0%nat (VInt 7157) eq_refl)
                {| symbol := "TP53"; entrez_gene_id := 7157;
                   gene_type := "protein-coding"; synonyms := Some "P53|LFS1" |} _).
      reflexivity.
    + apply (proj1 (Hitems 1%nat (VInt 1) eq_refl)).
      intros Hin. vm_compute in Hin.
      repeat (apply elem_of_cons in Hin as [Heq|Hin]; [discriminate Heq|]).
      by apply elem_of_nil in Hin.
Defined.

Lemma translate_gene_ids_invalid_keeps_state_witness :
  translate_gene_ids Examples.unreachable_url (Examples.model_of Examples.unit_matrix)
    [VStr "KRAS"] "symbol" "ensembl" None
  = (Examples.model_of Examples.unit_matrix, Raise invalid_namespace) ∧
  translate_gene_ids Examples.gene_table_url (Examples.model_of Examples.unit_matrix)
    [VStr "KRAS"] "symbol" "ensembl" None
  = (Examples.model_of Examples.unit_matrix, Raise invalid_namespace).
Proof.
  destruct (translate_gene_ids_invalid_keeps_state Examples.unreachable_url
              (Examples.model_of Examples.unit_matrix) [VStr "KRAS"]
              "symbol" "ensembl" None (or_intror ensembl_not_in_choices))
    as (Hraise & Hstate & _ & _ & Hany).
  split.
  - apply injective_projections; [exact Hstate | exact Hraise].
  - rewrite (Hany Examples.gene_table_url).
    apply injective_projections; [exact Hstate | exact Hraise].
Defined.

(** ** Overrepresentation: the table, the test and the background list *)

Section OverrepresentationClaims.
Variable fisher_exact : table2x2 → result (float * float).



  (** C3 (as amended): for the candidates [A, B, C], the background
      [A, B, C, D, E] and the gene set [A, B] we have [m = 2], [N = 3],
      [P = 2] and [G = 5]; the table that [run_overrepresentation] builds is
      [[3, 2], [1, 3]], and the p-value and the odds ratio returned for the
      set are those of the exact test on that table. *)
Theorem run_overrepresentation_example :
    contingency 2 3 2 5 = ((3, 2), (1, 3)) ∧
    (run_overrepresentation fisher_exact Examples.gene_heap 1%positive
       [("S", 3%positive)] 2%positive).2
    = ('(oddsratio, pvalue) ← fisher_exact ((3, 2), (1, 3));
       Ok {| index := [VStr "S"];
             columns := [("pval", [CNum pvalue]); ("odds", [CNum oddsratio])] |}).
Proof.
    split; [reflexivity|].
    unfold run_overrepresentation. cbn [snd for_each].
    match goal with
    | |- context [fisher_exact ?t] =>
        assert (t = ((3, 2), (1, 3))) as -> by (vm_compute; reflexivity)
    end.
    destruct (fisher_exact ((3, 2), (1, 3))) as [[o p]|e]; [|done].
    cbn [mbind result_bind pvals odds gene_set_names app map].
    by rewrite transpose_two_rows.
Qed.

  (** C9 (as amended): [run_overrepresentation] extends the caller's
      background list in place by the whole candidate list, whether it
      returns or raises, so that the list is longer by the length of the
      candidate list; the candidate list and the lists of the gene sets are
      left as they were when they are other list objects than the
      background list, and no other list changes. *)
Theorem run_overrepresentation_mutates_background (h : heap) (gene_list : loc)
      (gene_set_dict : list (string * loc)) (background_genes : loc) :
    let h' := (run_overrepresentation fisher_exact h gene_list gene_set_dict
                 background_genes).1 in
    h' !!! background_genes = h !!! background_genes ++ h !!! gene_list ∧
    length (h' !!! background_genes)
    = (length (h !!! background_genes) + length (h !!! gene_list))%nat ∧
    (gene_list ≠ background_genes → h' !!! gene_list = h !!! gene_list) ∧
    Forall (λ item : string * loc,
              item.2 ≠ background_genes → h' !!! item.2 = h !!! item.2)
      gene_set_dict ∧
    (∀ l, l ≠ background_genes → h' !! l = h !! l).
Proof.
    unfold run_overrepresentation. cbn [fst].
    split; [by rewrite lookup_total_insert_eq|].
    split; [by rewrite lookup_total_insert_eq, length_app|].
    split; [by intros Hne; rewrite lookup_total_insert_ne|].
    split.
    - apply Forall_forall. intros item _ Hne. by rewrite lookup_total_insert_ne.
    - intros l Hl. by rewrite lookup_insert_ne.
Qed.
End OverrepresentationClaims.


(** C3 (as stated) fails: the exact test that accepts only the table
    [[3, 2], [1, 5]] refuses the table that [run_overrepresentation] builds
    for the candidates [A, B, C], the background [A, B, C, D, E] and the
    gene set [A, B]; the one that accepts only [[3, 2], [1, 3]] is
    satisfied.  The fourth cell is [G - N - P + m + 1 = 5 - 3 - 2 + 2 + 1]. *)
Lemma overrepresentation_example_table_is_not_3215 :
  (run_overrepresentation (Examples.expects_table ((3, 2), (1, 5)))
     Examples.gene_heap 1%positive [("S", 3%positive)] 2%positive).2
  = Raise (ValueError "another table") ∧
  (run_overrepresentation (Examples.expects_table ((3, 2), (1, 3)))
     Examples.gene_heap 1%positive [("S", 3%positive)] 2%positive).2
  = Ok {| index := [VStr "S"];
          columns := [("pval", [CNum 1%float]); ("odds", [CNum 1%float])] |} ∧
  5 - 3 - 2 + 2 + 1 = 3.
Proof. split; [|split]; vm_compute; reflexivity. Qed.

(** C9 (as stated) fails when the candidate list is the background list
    itself: the call doubles it. *)
Lemma run_overrepresentation_doubles_aliased_candidates :
  Examples.gene_heap !!! 1%positive = [VStr "A"; VStr "B"; VStr "C"] ∧
  (run_overrepresentation Reference.fisher_exact Examples.gene_heap 1%positive
     [("S", 3%positive)] 1%positive).1 !!! 1%positive
  = [VStr "A"; VStr "B"; VStr "C"; VStr "A"; VStr "B"; VStr "C"].
Proof. split; vm_compute; reflexivity. Qed.

Lemma run_overrepresentation_mutates_background_witness :
  (run_overrepresentation Reference.fisher_exact Examples.gene_heap 1%positive
     [("S", 3%positive)] 2%positive).1 !!! 2%positive
  = [VStr "A"; VStr "B"; VStr "C"; VStr "D"; VStr "E"; VStr "A"; VStr "B"; VStr "C"] ∧
  (run_overrepresentation Reference.fisher_exact Examples.gene_heap 1%positive
     [("S", 3%positive)] 2%positive).1 !!! 1%positive
  = [VStr "A"; VStr "B"; VStr "C"].
Proof.
  destruct (run_overrepresentation_mutates_background Reference.fisher_exact
              Examples.gene_heap 1%positive [("S", 3%positive)] 2%positive)
    as (Hbackground & _ & Hcandidates & _).
  split; [exact Hbackground|]. apply Hcandidates. discriminate.
Defined.

(** ** The aggregator: scores of the split distributions, failures *)

(** C1 on the weights [pca_0 = [1, -1]] with the methods [full] and
    [pos_neg]: the positive tail of the feature is [[1, missing]] and its
    negative tail [[missing, -1]], and the invocations made for the
    directions [positive] and [negative] are both passed [[1, -1]], the
    scores of the preceding [full] invocation. *)
Lemma split_directions_are_passed_the_full_view :
  ∃ st positive negative,
    gsea_loops Reference.run_gsea_prerank Examples.prepared_model ["pca"]
      ["full"; "pos_neg"] false (VStr "42") 1 15 "KEGG_2016" = Ok st ∧
    use_pos_df st = Some positive ∧ use_neg_df st = Some negative ∧
    s_values positive = [CNum 1; CNum nan]%float ∧
    s_values negative = [CNum nan; CNum (-1)]%float ∧
    map (λ c, (call_distribution c, call_direction c, s_values (call_use_df c)))
      (calls st)
    = [("full", "both", [CNum 1; CNum (-1)]);
       ("pos_neg", "positive", [CNum 1; CNum (-1)]);
       ("pos_neg", "negative", [CNum 1; CNum (-1)])]%float.
Proof.
  destruct (gsea_loops Reference.run_gsea_prerank Examples.prepared_model ["pca"]
              ["full"; "pos_neg"] false (VStr "42") 1 15 "KEGG_2016")
    as [st|e] eqn:Hloops.
  - vm_compute in Hloops. injection Hloops as <-.
    eexists _, _, _. split; [reflexivity|]. repeat split; reflexivity.
  - vm_compute in Hloops. discriminate Hloops.
Qed.

Section BatchFailures.
Variable read_table : string → result WeightMatrix.
Variable int_of_str : string → option Z.
Variable read_genes : string → result (list gene_row).
Variables col_mean col_std : list float → float.
Variable run_gsea_prerank : Series → Z → string → result DataFrame.
Variable glob : string → list string.


End BatchFailures.



(** ** The symbol dictionary: which synonyms are excluded *)



